(** * patch_unitree: a line-oriented spawn-mode patcher

    Shallow embedding of [tools/patch_unitree.py] and the properties of its
    comment toggle, region locator, sub-block finder, orchestrator and
    directive rewriter.

    A Python [str] is a sequence of Unicode code points; it is modelled as a
    list of [N].  Python [int] is [Z].  Indices into lists are [nat] where
    the source only ever produces non-negative ones. *)

From Stdlib Require Import ZArith NArith List Bool Lia String Ascii.
From stdpp Require Import base option list gmap.

(** ** Python strings *)

Abbreviation char := N (only parsing).
Abbreviation str := (list N) (only parsing).

Section Characters.
Local Open Scope N_scope.

(** A string literal of the source, as code points. *)
Fixpoint lit (s : string) : str :=
  match s with
  | EmptyString => []
  | String a s' => N_of_ascii a :: lit s'
  end.

Definition LF : char := 10.
Definition CR : char := 13.
Definition TAB : char := 9.
Definition SP : char := 32.
Definition DQUOTE : char := 34.
Definition HASH : char := 35.
Definition SQUOTE : char := 39.
Definition LPAREN : char := 40.
Definition RPAREN : char := 41.
Definition COMMA : char := 44.
Definition EQUALS : char := 61.

(** [str.isspace] on one code point, which is also the regex class [\s] of a
    [str] pattern: CPython's [_PyUnicode_IsWhitespace]. *)
Definition is_space (c : char) : bool :=
  ((9 <=? c) && (c <=? 13)) || ((28 <=? c) && (c <=? 32))
  || (c =? 133) || (c =? 160) || (c =? 5760)
  || ((8192 <=? c) && (c <=? 8202))
  || (c =? 8232) || (c =? 8233) || (c =? 8239) || (c =? 8287) || (c =? 12288).

(** The line boundaries of [str.splitlines]: CPython's
    [_PyUnicode_IsLinebreak]. *)
Definition is_linebreak (c : char) : bool :=
  ((10 <=? c) && (c <=? 13)) || ((28 <=? c) && (c <=? 30))
  || (c =? 133) || (c =? 8232) || (c =? 8233).

(** The regex class [[ \t]]. *)
Definition is_blank (c : char) : bool := (c =? SP) || (c =? TAB).

(** The regex [.] (no DOTALL flag): anything but a newline. *)
Definition is_dot (c : char) : bool := negb (c =? LF).

(** The regex class [[A-Z0-9_]]. *)
Definition is_upper_digit_us (c : char) : bool :=
  ((65 <=? c) && (c <=? 90)) || ((48 <=? c) && (c <=? 57)) || (c =? 95).

Definition is_char (a : char) (c : char) : bool := c =? a.

End Characters.

Fixpoint drop_while (p : char -> bool) (s : str) : str :=
  match s with
  | c :: s' => if p c then drop_while p s' else s
  | [] => []
  end.

Fixpoint take_while (p : char -> bool) (s : str) : str :=
  match s with
  | c :: s' => if p c then c :: take_while p s' else []
  | [] => []
  end.

(** [s.lstrip()], [s.rstrip()], [s.strip()] with no argument. *)
Definition lstrip (s : str) : str := drop_while is_space s.
Definition rstrip (s : str) : str := rev (drop_while is_space (rev s)).
Definition strip (s : str) : str := rstrip (lstrip s).

(** [s.rstrip("\n")]: every trailing newline is removed. *)
Definition rstrip_nl (s : str) : str := rev (drop_while (is_char LF) (rev s)).

(** [s.startswith(p)] and [s.endswith(p)]. *)
Fixpoint startswith (p s : str) : bool :=
  match p, s with
  | [], _ => true
  | a :: p', c :: s' => (c =? a)%N && startswith p' s'
  | _ :: _, [] => false
  end.

Definition endswith (p s : str) : bool := startswith (rev p) (rev s).

(** [s.splitlines(True)]: the lines of [s], each with its terminator.  A
    carriage return directly followed by a newline is one terminator.  [cur]
    is the line being collected. *)
Fixpoint splitlines_from (cur : str) (s : str) : list str :=
  match s with
  | [] => match cur with [] => [] | _ => [cur] end
  | c :: s' =>
      if (c =? CR)%N then
        match s' with
        | c2 :: s'' =>
            if (c2 =? LF)%N then (cur ++ [CR; LF]) :: splitlines_from [] s''
            else (cur ++ [CR]) :: splitlines_from [] s'
        | [] => [cur ++ [CR]]
        end
      else if is_linebreak c then (cur ++ [c]) :: splitlines_from [] s'
      else splitlines_from (cur ++ [c]) s'
  end.

Definition splitlines (s : str) : list str := splitlines_from [] s.

(** ["".join(lines)]. *)
Definition join (lines : list str) : str := concat lines.

(** ** The fragment of Python's [re] used by the source

    A backtracking matcher in continuation-passing style: alternatives are
    tried in the priority order of Python's engine (greedy repetition first
    tries the longest run, lazy repetition the shortest; an optional part is
    tried before it is skipped), and the first success wins.  Repetition is
    only ever applied to a character class in the source. *)

Inductive re : Type :=
| Eps
| Bol                                  (* ^ *)
| Eol                                  (* $ *)
| Chr (p : char -> bool)               (* one character of a class *)
| Str (s : str)                        (* a literal string *)
| Seq (a b : re)
| Alt (a b : re)                       (* a|b *)
| Opt (a : re)                         (* a? *)
| Star (p : char -> bool)              (* [class]* *)
| Lazy (p : char -> bool)              (* [class]*? *)
| Grp (name : string) (a : re)         (* a capturing group *)
| Ref (name : string).                 (* (?P=name) *)

Declare Scope re_scope.
Delimit Scope re_scope with re.
Bind Scope re_scope with re.
Infix "+>" := Seq (at level 60, right associativity) : re_scope.

(** [[class]+] *)
Definition Plus (p : char -> bool) : re := Seq (Chr p) (Star p).

(** The matcher's state: how many characters are consumed, what is left of
    the subject, and the groups captured so far (latest binding first). *)
Record mstate : Type := MState {
  m_pos : nat;
  m_rest : str;
  m_groups : list (string * str)
}.

Fixpoint assoc (name : string) (g : list (string * str)) : option str :=
  match g with
  | [] => None
  | (n, v) :: g' => if String.eqb n name then Some v else assoc name g'
  end.

Definition set_group (name : string) (v : str) (st : mstate) : mstate :=
  MState (m_pos st) (m_rest st) ((name, v) :: m_groups st).

Definition advance (n : nat) (st : mstate) : mstate :=
  MState (n + m_pos st) (drop n (m_rest st)) (m_groups st).

Arguments set_group _ _ _ /.
Arguments advance _ _ /.

Section Exec.
Variable k : mstate -> option mstate.

Fixpoint star_greedy (p : char -> bool) (pos : nat) (g : list (string * str))
    (s : str) : option mstate :=
  match s with
  | c :: s' =>
      if p c then
        match star_greedy p (S pos) g s' with
        | Some r => Some r
        | None => k (MState pos s g)
        end
      else k (MState pos s g)
  | [] => k (MState pos s g)
  end.

Fixpoint star_lazy (p : char -> bool) (pos : nat) (g : list (string * str))
    (s : str) : option mstate :=
  match k (MState pos s g) with
  | Some r => Some r
  | None =>
      match s with
      | c :: s' => if p c then star_lazy p (S pos) g s' else None
      | [] => None
      end
  end.

End Exec.

Fixpoint exec (r : re) (k : mstate -> option mstate) (st : mstate)
    : option mstate :=
  match r with
  | Eps => k st
  | Bol => if Nat.eqb (m_pos st) 0 then k st else None
  | Eol =>
      match m_rest st with
      | [] => k st
      | [c] => if (c =? LF)%N then k st else None
      | _ => None
      end
  | Chr p =>
      match m_rest st with
      | c :: s' => if p c then k (MState (S (m_pos st)) s' (m_groups st)) else None
      | [] => None
      end
  | Str v =>
      if startswith v (m_rest st) then k (advance (length v) st) else None
  | Seq a b => exec a (exec b k) st
  | Alt a b =>
      match exec a k st with
      | Some r' => Some r'
      | None => exec b k st
      end
  | Opt a =>
      match exec a k st with
      | Some r' => Some r'
      | None => k st
      end
  | Star p => star_greedy k p (m_pos st) (m_groups st) (m_rest st)
  | Lazy p => star_lazy k p (m_pos st) (m_groups st) (m_rest st)
  | Grp name a =>
      exec a (fun st' =>
                k (set_group name (take (m_pos st' - m_pos st) (m_rest st)) st'))
           st
  | Ref name =>
      match assoc name (m_groups st) with
      | Some v =>
          if startswith v (m_rest st) then k (advance (length v) st) else None
      | None => None
      end
  end.

(** [pattern.match(s)]: the match object is the final state, [None] when
    there is no match. *)
Definition re_match (r : re) (s : str) : option mstate :=
  exec r Some (MState 0 s []).

(** [m.group(name)], [None] for a group that took no part in the match. *)
Definition group (m : mstate) (name : string) : option str :=
  assoc name (m_groups m).

(** [m.group(name) or ""] *)
Definition group_or_empty (m : mstate) (name : string) : str :=
  default [] (group m name).

(** ** Comment toggle *)

(** The pattern of [is_commented]: whitespace, then the marker. *)
Definition COMMENTED_RE : re :=
  (Bol +> Star is_space +> Chr (is_char HASH))%re.

Definition is_commented (line : str) : bool :=
  bool_decide (is_Some (re_match COMMENTED_RE line)).

(** The pattern of [comment_line]: from the start, group 1 is a greedy run of
    spaces and tabs, group 2 a lazy run of any characters, the optional
    group 3 an optional carriage return and a newline, then the end. *)
Definition COMMENT_RE : re :=
  (Bol +> Grp "1" (Star is_blank) +> Grp "2" (Lazy is_dot)
   +> Opt (Grp "3" (Opt (Chr (is_char CR)) +> Chr (is_char LF))) +> Eol)%re.

(** The pattern of [uncomment_line]: as above, with the marker and one
    optional whitespace character between groups 1 and 2. *)
Definition UNCOMMENT_RE : re :=
  (Bol +> Grp "1" (Star is_blank) +> Chr (is_char HASH) +> Opt (Chr is_space)
   +> Grp "2" (Lazy is_dot)
   +> Opt (Grp "3" (Opt (Chr (is_char CR)) +> Chr (is_char LF))) +> Eol)%re.

Definition comment_line (line : str) : str :=
  if bool_decide (strip line = []) then line
  else
    match re_match COMMENT_RE line with
    | None => line
    | Some m =>
        let indent := group_or_empty m "1" in
        let rest := group_or_empty m "2" in
        let nl := group_or_empty m "3" in
        if startswith [HASH] (lstrip rest) then line
        else indent ++ [HASH; SP] ++ rest ++ nl
    end.

Definition uncomment_line (line : str) : str :=
  if bool_decide (strip line = []) then line
  else
    match re_match UNCOMMENT_RE line with
    | None => line
    | Some m =>
        let indent := group_or_empty m "1" in
        let rest := group_or_empty m "2" in
        let nl := group_or_empty m "3" in
        indent ++ rest ++ nl
    end.

(** ** Errors and loops

    [lines[i]] raises [IndexError] out of range; a [while] loop is run on
    fuel, and running out of it is an outcome of its own (shown below never
    to happen for the fuel the top-level functions supply). *)

Inductive outcome (A : Type) : Type :=
| Ret (a : A)
| IndexError
| OutOfFuel.
Arguments Ret {A} a.
Arguments IndexError {A}.
Arguments OutOfFuel {A}.

Definition bind {A B : Type} (x : outcome A) (f : A -> outcome B) : outcome B :=
  match x with
  | Ret a => f a
  | IndexError => IndexError
  | OutOfFuel => OutOfFuel
  end.

Notation "'do' x <- a ; b" := (bind a (fun x => b))
  (at level 10, x pattern, a at level 100, b at level 200).

(** [lines[i]] for a non-negative [i]. *)
Definition getitem (lines : list str) (i : nat) : outcome str :=
  match lines !! i with
  | Some ln => Ret ln
  | None => IndexError
  end.

(** ** Top-level directory assignments *)

Definition DIR_ASSIGN_RE : re :=
  (Bol +> Grp "indent" (Star is_blank)
   +> Grp "name" (Str (lit "UNITREE_") +> Alt (Str (lit "ROS")) (Str (lit "MODEL"))
                  +> Str (lit "_DIR"))
   +> Star is_space +> Chr (is_char EQUALS) +> Star is_space
   +> Grp "q" (Chr (fun c => is_char SQUOTE c || is_char DQUOTE c))
   +> Grp "val" (Lazy is_dot)
   +> Ref "q"
   +> Grp "tail" (Star is_blank +> Opt (Grp "6" (Chr (is_char HASH) +> Star is_dot)))
   +> Eol)%re.

(** The body of the loop of [replace_dir_assignments], for one line. *)
Definition replace_dir_line (values : gmap str str) (ln : str) : str :=
  match re_match DIR_ASSIGN_RE (rstrip_nl ln) with
  | Some m =>
      let name := group_or_empty m "name" in
      match values !! name with
      | Some v =>
          let indent := group_or_empty m "indent" in
          let tail := group_or_empty m "tail" in
          indent ++ name ++ lit " = " ++ [DQUOTE] ++ v ++ [DQUOTE] ++ tail ++ [LF]
      | None => ln
      end
  | None => ln
  end.

Definition replace_dir_assignments (src : str) (values : gmap str str) : str :=
  join (map (replace_dir_line values) (splitlines src)).

(** ** Spawn block switcher *)

Definition SPAWN_HEADER_ANY_RE : re :=
  (Bol +> Grp "indent" (Star is_blank)
   +> Opt (Grp "prefix" (Chr (is_char HASH) +> Star is_space))
   +> Str (lit "spawn") +> Star is_space +> Chr (is_char EQUALS) +> Star is_space
   +> Grp "kind" (Str (lit "Unitree") +> Alt (Str (lit "Urdf")) (Str (lit "Usd"))
                  +> Str (lit "FileCfg"))
   +> Star is_space +> Chr (is_char LPAREN) +> Star is_space +> Eol)%re.

Definition SPAWN_FOOTER_ANY_RE : re :=
  (Bol +> Grp "indent" (Star is_blank)
   +> Opt (Grp "prefix" (Chr (is_char HASH) +> Star is_space))
   +> Chr (is_char RPAREN) +> Star is_space +> Chr (is_char COMMA)
   +> Star is_space +> Eol)%re.

Definition CFG_START_RE : re :=
  (Bol +> Grp "indent" (Star is_blank)
   +> Grp "var" (Plus is_upper_digit_us +> Str (lit "_CFG"))
   +> Star is_space +> Chr (is_char EQUALS) +> Star is_space
   +> Str (lit "UnitreeArticulationCfg")
   +> Star is_space +> Chr (is_char LPAREN) +> Star is_space +> Eol)%re.

Definition is_footer (ln : str) : bool :=
  bool_decide (is_Some (re_match SPAWN_FOOTER_ANY_RE (rstrip_nl ln))).

Definition is_cfg_start (ln : str) : bool :=
  bool_decide (is_Some (re_match CFG_START_RE (rstrip_nl ln))).

(** The first index from [j] on, in [ls = lines[j:]], whose line satisfies
    [p]. *)
Fixpoint find_from (p : str -> bool) (j : nat) (ls : list str) : option nat :=
  match ls with
  | [] => None
  | ln :: ls' => if p ln then Some j else find_from p (S j) ls'
  end.

Definition find_matching_footer (lines : list str) (start_idx : nat)
    : option nat :=
  find_from is_footer (S start_idx) (drop (S start_idx) lines).

Definition span : Type := nat * nat.

Fixpoint locate_loop (fuel : nat) (lines : list str) (block_end : Z)
    (urdf usd : option span) (i : nat)
    : outcome (option span * option span) :=
  match fuel with
  | O => OutOfFuel
  | S fuel' =>
      if (Z.of_nat i <=? block_end)%Z then
        do ln <- getitem lines i;
        match re_match SPAWN_HEADER_ANY_RE (rstrip_nl ln) with
        | Some m =>
            let kind := group_or_empty m "kind" in
            match find_matching_footer lines i with
            | None => locate_loop fuel' lines block_end urdf usd (S i)
            | Some j =>
                if (Z.of_nat j >? block_end)%Z then
                  locate_loop fuel' lines block_end urdf usd (S i)
                else if endswith (lit "UrdfFileCfg") kind
                           && bool_decide (urdf = None) then
                  locate_loop fuel' lines block_end (Some (i, j)) usd (S j)
                else if endswith (lit "UsdFileCfg") kind
                           && bool_decide (usd = None) then
                  locate_loop fuel' lines block_end urdf (Some (i, j)) (S j)
                else locate_loop fuel' lines block_end urdf usd (S j)
            end
        | None => locate_loop fuel' lines block_end urdf usd (S i)
        end
      else Ret (urdf, usd)
  end.

(** The loop visits each index of [block_start .. block_end] at most once,
    and once more to leave. *)
Definition locate_spawn_blocks_within (lines : list str) (block_start : nat)
    (block_end : Z) : outcome (option span * option span) :=
  locate_loop (S (Z.to_nat (block_end + 1 - Z.of_nat block_start)))
              lines block_end None None block_start.

(** [for k in range(k, k + n): lines[k] = f(lines[k])] *)
Fixpoint switch_from (f : str -> str) (lines : list str) (k n : nat)
    : outcome (list str) :=
  match n with
  | O => Ret lines
  | S n' =>
      do ln <- getitem lines k;
      switch_from f (<[k := f ln]> lines) (S k) n'
  end.

Definition switch_spawn_block (lines : list str) (sp : span) (enable : bool)
    : outcome (list str) :=
  let '(s, e) := sp in
  switch_from (if enable then uncomment_line else comment_line) lines s (S e - s).

(** The inner loop of [find_cfg_block_end] over the characters of a line. *)
Definition count_parens (st : Z * bool) (ln : str) : Z * bool :=
  fold_left
    (fun '(depth, started) ch =>
       if (ch =? LPAREN)%N then ((depth + 1)%Z, true)
       else if (ch =? RPAREN)%N then ((depth - 1)%Z, started)
       else (depth, started))
    ln st.

(** The outer loop, over [ls = lines[i:]]: the index of the first line after
    which the scan has started and the depth is not positive. *)
Fixpoint cfg_scan (st : Z * bool) (i : nat) (ls : list str) : option nat :=
  match ls with
  | [] => None
  | ln :: ls' =>
      let st' := count_parens st ln in
      if snd st' && (fst st' <=? 0)%Z then Some i
      else cfg_scan st' (S i) ls'
  end.

Definition find_cfg_block_end (lines : list str) (start_idx : nat) : Z :=
  match cfg_scan (0%Z, false) start_idx (drop start_idx lines) with
  | Some i => Z.of_nat i
  | None => (Z.of_nat (length lines) - 1)%Z
  end.

(** The two switches of one region, in the order of the source. *)
Definition switch_region (mode : str) (lines : list str)
    (urdf_span usd_span : option span) : outcome (list str) :=
  if bool_decide (mode = lit "urdf") then
    do lines1 <- match urdf_span with
                 | Some sp => switch_spawn_block lines sp true
                 | None => Ret lines
                 end;
    match usd_span with
    | Some sp => switch_spawn_block lines1 sp false
    | None => Ret lines1
    end
  else
    do lines1 <- match usd_span with
                 | Some sp => switch_spawn_block lines sp true
                 | None => Ret lines
                 end;
    match urdf_span with
    | Some sp => switch_spawn_block lines1 sp false
    | None => Ret lines1
    end.

Definition seen (sp : option span) : Z :=
  match sp with Some _ => 1%Z | None => 0%Z end.

(** The [while] loop of [patch_spawn_modes].  [block_end + 1] is never
    negative there (see [find_cfg_block_end_ge]). *)
Fixpoint patch_loop (fuel : nat) (mode : str) (lines : list str) (i : nat)
    (cfg_blocks urdf_seen usd_seen : Z) : outcome (list str * Z * Z * Z) :=
  match fuel with
  | O => OutOfFuel
  | S fuel' =>
      match lines !! i with
      | None => Ret (lines, cfg_blocks, urdf_seen, usd_seen)
      | Some ln =>
          if is_cfg_start ln then
            let block_start := i in
            let block_end := find_cfg_block_end lines block_start in
            do (urdf_span, usd_span) <-
               locate_spawn_blocks_within lines block_start block_end;
            do lines' <- switch_region mode lines urdf_span usd_span;
            patch_loop fuel' mode lines' (Z.to_nat (block_end + 1))
                       (cfg_blocks + 1)%Z (urdf_seen + seen urdf_span)%Z
                       (usd_seen + seen usd_span)%Z
          else
            patch_loop fuel' mode lines (S i) cfg_blocks urdf_seen usd_seen
      end
  end.

Definition patch_spawn_modes (src : str) (mode : str)
    : outcome (str * Z * Z * Z) :=
  let lines := splitlines src in
  do (lines', cfg_blocks, urdf_seen, usd_seen) <-
     patch_loop (S (length lines)) mode lines 0 0%Z 0%Z 0%Z;
  Ret (join lines', cfg_blocks, urdf_seen, usd_seen).

(** ** Main

    The file system is the target file and its backup, each the text it
    holds; the dictionary [values] is what step 2 of [main] collects from
    the directories that exist (it is only consulted under
    [--write-dirs]). *)

Record files : Type := Files {
  unitree_py : option str;
  unitree_py_bak : option str
}.

(** [Path.read_text] opens the file in text mode with universal newlines:
    a carriage return and a newline, and a lone carriage return, are read
    as one newline.  ([write_text] writes a newline as it is where the line
    separator of the platform is the newline.) *)
Fixpoint universal_newlines (s : str) : str :=
  match s with
  | [] => []
  | c :: s' =>
      if (c =? CR)%N then
        match s' with
        | c2 :: s'' =>
            if (c2 =? LF)%N then LF :: universal_newlines s''
            else LF :: universal_newlines s'
        | [] => [LF]
        end
      else c :: universal_newlines s'
  end.

Definition read_text (content : str) : str := universal_newlines content.

Definition main (fs : files) (mode : str) (write_dirs no_backup : bool)
    (values : gmap str str) : outcome (Z * files) :=
  match unitree_py fs with
  | None => Ret (1%Z, fs)
  | Some content =>
      let original := read_text content in
      do (patched, cfg_blocks, urdf_seen, usd_seen) <-
         patch_spawn_modes original mode;
      let patched :=
        if write_dirs && negb (bool_decide (values = ∅))
        then replace_dir_assignments patched values else patched in
      if bool_decide (patched <> original) then
        let bak := if no_backup then unitree_py_bak fs else Some original in
        Ret (0%Z, Files (Some patched) bak)
      else Ret (0%Z, fs)
  end.

(** ** Auxiliary notions for the statements *)

(** [line.strip() == ""] *)
Definition blank_line (s : str) : bool := bool_decide (strip s = []).

(** A line holds no newline except as its last character, as every element
    of [splitlines] does. *)
Fixpoint single_line (s : str) : bool :=
  match s with
  | [] => true
  | c :: s' => if (c =? LF)%N then bool_decide (s' = []) else single_line s'
  end.

(** The text of a line before its final newline, or carriage return and
    newline, and that terminator. *)
Fixpoint split_nl (s : str) : str * str :=
  match s with
  | [] => ([], [])
  | c :: s' =>
      if bool_decide (s = [LF]) || bool_decide (s = [CR; LF]) then ([], s)
      else (c :: fst (split_nl s'), snd (split_nl s'))
  end.

(** The binding of group 3 of the comment patterns, when it took part. *)
Definition opt3 (nl : str) : list (string * str) :=
  match nl with [] => [] | _ => [("3"%string, nl)] end.

(** What an optional single character of class [p] leaves of [s]. *)
Definition skip1 (p : char -> bool) (s : str) : str :=
  match s with
  | c :: s' => if p c then s' else s
  | [] => []
  end.

(** [comment_line] and [uncomment_line] on a line, without the matcher. *)
Definition comment_spec (s : str) : str :=
  if blank_line s then s
  else
    let b := drop_while is_blank s in
    if startswith [HASH] (lstrip (fst (split_nl b))) then s
    else take_while is_blank s ++ [HASH; SP] ++ fst (split_nl b) ++ snd (split_nl b).

Definition uncomment_spec (s : str) : str :=
  if blank_line s then s
  else
    match drop_while is_blank s with
    | c :: t =>
        if (c =? HASH)%N then
          take_while is_blank s ++ fst (split_nl (skip1 is_space t))
                                ++ snd (split_nl (skip1 is_space t))
        else s
    | [] => s
    end.

(** [k] fails on whatever starts with a character of the class [p]. *)
Definition fails_after (p : char -> bool) (k : mstate -> option mstate) : Prop :=
  forall pos c t g, p c = true -> k (MState pos (c :: t) g) = None.


(** The line boundary a line ends with, if any. *)
Definition terminator (s : str) : str :=
  match rev s with
  | c :: r =>
      if (c =? LF)%N then
        match r with
        | d :: _ => if (d =? CR)%N then [CR; LF] else [LF]
        | [] => [LF]
        end
      else if is_linebreak c then [c] else []
  | [] => []
  end.

(** ** The depth counter of the region locator, as the specification has it

    The state [(depth, started)] after every character of the lines
    [start .. i] has been scanned, from [(0, false)]. *)
Definition scan_state (lines : list str) (start i : nat) : Z * bool :=
  fold_left count_parens (take (S i - start) (drop start lines)) (0%Z, false).

(** [started and depth <= 0] *)
Definition closed (st : Z * bool) : bool := snd st && (fst st <=? 0)%Z.

Definition balanced_at (lines : list str) (start i : nat) : bool :=
  closed (scan_state lines start i).

(** ** Notions for the sub-block finder and the orchestrator *)

(** The kind a header line carries, [None] for a line that is no header. *)
Definition header_kind (ln : str) : option str :=
  match re_match SPAWN_HEADER_ANY_RE (rstrip_nl ln) with
  | Some m => Some (group_or_empty m "kind")
  | None => None
  end.

(** The scan of [locate_spawn_blocks_within] from line [i] on, with the spans
    recorded so far. *)
Definition locate_from (lines : list str) (block_end : Z)
    (urdf usd : option span) (i : nat) : outcome (option span * option span) :=
  locate_loop (S (Z.to_nat (block_end + 1 - Z.of_nat i))) lines block_end urdf usd i.

(** What the scan records for a header of kind [kind] at [i] with its footer
    at [j]. *)
Definition record_span (kind : str) (i j : nat) (urdf usd : option span)
    : option span * option span :=
  if endswith (lit "UrdfFileCfg") kind && bool_decide (urdf = None)
  then (Some (i, j), usd)
  else if endswith (lit "UsdFileCfg") kind && bool_decide (usd = None)
  then (urdf, Some (i, j))
  else (urdf, usd).

(** A recorded span of the kind named by [suffix], inside the region
    [block_start .. block_end]: a header of that kind, and the first footer
    of the document after it. *)
Definition span_ok (lines : list str) (block_start : nat) (block_end : Z)
    (suffix : str) (sp : option span) : Prop :=
  match sp with
  | None => True
  | Some (h, f) =>
      block_start <= h /\ h < f /\ (Z.of_nat f <= block_end)%Z
      /\ (exists ln kind, lines !! h = Some ln /\ header_kind ln = Some kind
                          /\ endswith suffix kind = true)
      /\ (exists ln, lines !! f = Some ln /\ is_footer ln = true)
      /\ (forall j ln, h < j < f -> lines !! j = Some ln -> is_footer ln = false)
  end.

(** The regions the orchestrator visits, from line [i] on. *)
Fixpoint regions_from (fuel : nat) (lines : list str) (i : nat) : list (nat * Z) :=
  match fuel with
  | O => []
  | S fuel' =>
      match lines !! i with
      | None => []
      | Some ln =>
          if is_cfg_start ln then
            let block_end := find_cfg_block_end lines i in
            (i, block_end) :: regions_from fuel' lines (Z.to_nat (block_end + 1))
          else regions_from fuel' lines (S i)
      end
  end.

Definition regions (lines : list str) : list (nat * Z) :=
  regions_from (S (length lines)) lines 0.

Definition in_span (sp : span) (i : nat) : Prop := fst sp <= i <= snd sp.

Definition spans_apart (a b : option span) : Prop :=
  match a, b with
  | Some (h1, f1), Some (h2, f2) => f1 < h2 \/ f2 < h1
  | _, _ => True
  end.

(** The spans recorded so far end before line [i]. *)
Definition ends_before (i : nat) (sp : option span) : Prop :=
  match sp with Some (_, f) => f < i | None => True end.


(** The span the mode enables and the span it disables. *)
Definition enabled_span (mode : str) (urdf usd : option span) : option span :=
  if bool_decide (mode = lit "urdf") then urdf else usd.

Definition disabled_span (mode : str) (urdf usd : option span) : option span :=
  if bool_decide (mode = lit "urdf") then usd else urdf.

Definition in_opt_span (sp : option span) (i : nat) : Prop :=
  match sp with Some s => in_span s i | None => False end.

(** [switch_spawn_block] on a span that may be absent. *)
Definition switch_opt (lines : list str) (sp : option span) (enable : bool)
    : outcome (list str) :=
  match sp with
  | Some s => switch_spawn_block lines s enable
  | None => Ret lines
  end.

(** ** What a match consists of

    [matches r st w st']: the pattern [r] can take the string [w] off the
    front of what is left in [st] and lead to [st'].  The matcher only ever
    returns such matches (it picks one of them by priority). *)
Inductive matches : re -> mstate -> str -> mstate -> Prop :=
| M_Eps st : matches Eps st [] st
| M_Bol st : m_pos st = 0 -> matches Bol st [] st
| M_Eol st : m_rest st = [] \/ m_rest st = [LF] -> matches Eol st [] st
| M_Chr p pos c s g :
    p c = true -> matches (Chr p) (MState pos (c :: s) g) [c] (MState (S pos) s g)
| M_Str v st :
    startswith v (m_rest st) = true -> matches (Str v) st v (advance (length v) st)
| M_Seq a b st w1 st1 w2 st2 :
    matches a st w1 st1 -> matches b st1 w2 st2 -> matches (Seq a b) st (w1 ++ w2) st2
| M_AltL a b st w st' : matches a st w st' -> matches (Alt a b) st w st'
| M_AltR a b st w st' : matches b st w st' -> matches (Alt a b) st w st'
| M_OptSome a st w st' : matches a st w st' -> matches (Opt a) st w st'
| M_OptNone a st : matches (Opt a) st [] st
| M_Star p pos w s g :
    forallb p w = true ->
    matches (Star p) (MState pos (w ++ s) g) w (MState (length w + pos) s g)
| M_Lazy p pos w s g :
    forallb p w = true ->
    matches (Lazy p) (MState pos (w ++ s) g) w (MState (length w + pos) s g)
| M_Grp name a st w st' :
    matches a st w st' -> matches (Grp name a) st w (set_group name w st')
| M_Ref name st v :
    assoc name (m_groups st) = Some v -> startswith v (m_rest st) = true ->
    matches (Ref name) st v (advance (length v) st).

(** The condition under which [replace_dir_assignments] rewrites a line. *)
Definition dir_line_matches (values : gmap str str) (ln : str) : bool :=
  match re_match DIR_ASSIGN_RE (rstrip_nl ln) with
  | Some m => bool_decide (is_Some (values !! group_or_empty m "name"))
  | None => false
  end.

(** The trailing part of a directive line: spaces and tabs, then possibly
    an inline comment. *)
Definition tail_ok (tail : str) : Prop :=
  exists sp cmt,
    tail = sp ++ cmt /\ forallb is_blank sp = true
    /\ (cmt = [] \/ exists t, cmt = HASH :: t /\ forallb is_dot t = true).

(** The binding of the inline-comment group of the directive pattern, when
    it took part. *)
Definition opt6 (cmt : str) : list (string * str) :=
  match cmt with [] => [] | _ => [("6"%string, cmt)] end.

(** ** Header and footer lines, without the matcher *)

(** What is left of a line after its spaces and tabs and, when a marker
    comes next, after the marker and the whitespace that follows it. *)
Definition core (s : str) : str :=
  match drop_while is_blank s with
  | c :: t => if (c =? HASH)%N then drop_while is_space t else c :: t
  | [] => []
  end.

(** [s] without the prefix [p], when it starts with it. *)
Definition strip_prefix (p s : str) : option str :=
  if startswith p s then Some (drop (length p) s) else None.

(** The footer pattern on the core of a line. *)
Definition footer_rest (b : str) : bool :=
  match b with
  | c :: t =>
      (c =? RPAREN)%N
      && match drop_while is_space t with
         | c2 :: t2 => (c2 =? COMMA)%N && forallb is_space t2
         | [] => false
         end
  | [] => false
  end.

(** What may follow the kind in a header: whitespace, the opening
    parenthesis, whitespace. *)
Definition header_end (t : str) : bool :=
  match drop_while is_space t with
  | c :: t' => (c =? LPAREN)%N && forallb is_space t'
  | [] => false
  end.

(** The header pattern on the core of a line, and the kind it captures. *)
Definition header_rest (b : str) : option str :=
  match strip_prefix (lit "spawn") b with
  | Some t1 =>
      match drop_while is_space t1 with
      | c :: t2 =>
          if (c =? EQUALS)%N then
            match strip_prefix (lit "Unitree") (drop_while is_space t2) with
            | Some t3 =>
                match strip_prefix (lit "Urdf") t3 with
                | Some t4 =>
                    match strip_prefix (lit "FileCfg") t4 with
                    | Some t5 =>
                        if header_end t5 then Some (lit "UnitreeUrdfFileCfg") else None
                    | None => None
                    end
                | None =>
                    match strip_prefix (lit "Usd") t3 with
                    | Some t4 =>
                        match strip_prefix (lit "FileCfg") t4 with
                        | Some t5 =>
                            if header_end t5 then Some (lit "UnitreeUsdFileCfg") else None
                        | None => None
                        end
                    | None => None
                    end
                end
            | None => None
            end
          else None
      | [] => None
      end
  | None => None
  end.

(** Every whitespace character of the text is a space, a tab or a newline. *)
Definition plain_text (s : str) : bool :=
  forallb (fun c => negb (is_space c) || is_blank c || (c =? LF)%N) s.

(** What [uncomment_line] leaves of the line after its indentation is not
    empty and does not begin with the marker. *)
Definition marker_once (ln : str) : bool :=
  match drop_while is_blank (uncomment_line ln) with
  | c :: _ => negb (c =? HASH)%N
  | [] => false
  end.

(** Whether there is a match. *)
Definition matched (o : option mstate) : bool :=
  match o with Some _ => true | None => false end.

(** The header pattern from [spawn] on. *)
Definition HEADER_REST : re :=
  (Str (lit "spawn") +> Star is_space +> Chr (is_char EQUALS) +> Star is_space
   +> Grp "kind" (Str (lit "Unitree") +> Alt (Str (lit "Urdf")) (Str (lit "Usd"))
                  +> Str (lit "FileCfg"))
   +> Star is_space +> Chr (is_char LPAREN) +> Star is_space +> Eol)%re.

(** A line as the orchestrator may leave it: as it was, commented, or
    uncommented where that leaves something that does not begin with the
    marker. *)
Definition switched (ln ln' : str) : Prop :=
  ln' = ln \/ ln' = comment_line ln
  \/ (ln' = uncomment_line ln /\ marker_once ln = true).

(** A line of a text whose whitespace is spaces, tabs and newlines. *)
Definition plain_line (ln : str) : Prop :=
  ln <> [] /\ single_line ln = true /\ plain_text ln = true.

Definition ends_lf (ln : str) : Prop := exists b, ln = b ++ [LF].

(** The lines of a text: none is empty and all but the last end with a
    newline. *)
Fixpoint text_lines (L : list str) : Prop :=
  match L with
  | [] => True
  | ln :: L' => plain_line ln /\ (L' = [] \/ ends_lf ln) /\ text_lines L'
  end.

(** Two lines the region locator and the sub-block finder cannot tell
    apart. *)
Definition alike (ln ln' : str) : Prop :=
  header_kind ln' = header_kind ln /\ is_footer ln' = is_footer ln
  /\ forall st, count_parens st ln' = count_parens st ln.

(** A line as [switch_spawn_block] may leave it. *)
Definition toggled (ln ln' : str) : Prop :=
  ln' = ln \/ ln' = comment_line ln \/ ln' = uncomment_line ln.

(** ** Notions for the report of the orchestrator *)

(** How many of the regions [regs] of [lines] have a span of the first
    kind, and how many one of the second. *)
Fixpoint count_seen (lines : list str) (regs : list (nat * Z)) : Z * Z :=
  match regs with
  | [] => (0%Z, 0%Z)
  | (bs, be) :: regs' =>
      match locate_spawn_blocks_within lines bs be with
      | Ret (u, d) =>
          ((seen u + fst (count_seen lines regs'))%Z,
           (seen d + snd (count_seen lines regs'))%Z)
      | _ => count_seen lines regs'
      end
  end.

(** Line [k] lies in the span to enable, or to disable, of one of the
    regions [regs] of [lines]. *)
Definition in_enabled_of (mode : str) (lines : list str) (regs : list (nat * Z))
    (k : nat) : Prop :=
  exists bs be u d,
    (bs, be) ∈ regs /\ locate_spawn_blocks_within lines bs be = Ret (u, d)
    /\ in_opt_span (enabled_span mode u d) k.

Definition in_disabled_of (mode : str) (lines : list str) (regs : list (nat * Z))
    (k : nat) : Prop :=
  exists bs be u d,
    (bs, be) ∈ regs /\ locate_spawn_blocks_within lines bs be = Ret (u, d)
    /\ in_opt_span (disabled_span mode u d) k.

(** ** Notions for a switch to the other mode and back *)

(** A line of live code: blank, or not beginning with the marker after its
    spaces and tabs. *)
Definition live_line (ln : str) : Prop :=
  blank_line ln = true \/ startswith [HASH] (drop_while is_blank ln) = false.

(** A line that is switched off: commented in the style [comment_line]
    writes (indentation, the marker, one space, then text that begins with
    neither whitespace nor the marker), or blank and ended by a newline. *)
Definition off_line (ln : str) : Prop :=
  (exists indent c rest,
      ln = indent ++ HASH :: SP :: c :: rest
      /\ forallb is_blank indent = true /\ is_space c = false /\ c <> HASH)
  \/ (blank_line ln = true /\ ends_lf ln).

(** ** Path helpers

    A resolved absolute path is the list of its components below the root,
    the outermost first; the file system is the predicate [exists_] that
    tells which paths exist. *)

Definition path : Type := list str.

(** [p.parents]: the path without its last component, then without its
    last two, and so on up to the root. *)
Fixpoint parents_from (n : nat) (p : path) : list path :=
  match n with
  | O => []
  | S n' => take n' p :: parents_from n' p
  end.

Definition parents (p : path) : list path := parents_from (length p) p.

(** [find_repo_root] on [p = start.resolve()]. *)
Definition find_repo_root (exists_ : path -> bool) (p : path) : path :=
  match List.find (fun parent => exists_ (parent ++ [lit "pixi.toml"]))
                  (p :: parents p) with
  | Some parent => parent
  | None => p
  end.

(** ** Notions for the results of the finder and of the patch *)

(** The lines [out] are the lines of the document as the orchestrator
    leaves them: as many, each one the line of the document uncommented
    when it lies in the span to enable of a region, commented when it lies
    in the span to disable of a region, and the line itself otherwise. *)
Definition patched_lines (mode : str) (lines out : list str) : Prop :=
  length out = length lines
  /\ forall k ln, lines !! k = Some ln ->
       (in_enabled_of mode lines (regions lines) k
        /\ out !! k = Some (uncomment_line ln))
       \/ (in_disabled_of mode lines (regions lines) k
           /\ out !! k = Some (comment_line ln))
       \/ (~ in_enabled_of mode lines (regions lines) k
           /\ ~ in_disabled_of mode lines (regions lines) k
           /\ out !! k = Some ln).

(** Line [h] is a header of the kind named by [suffix] whose first footer
    [f] lies in the region [block_start .. block_end], and every header
    before it in the region whose first footer lies in the region is of
    the other kind and has that footer before [h]: the block is the first
    of its kind in the region and follows the blocks before it. *)
Definition first_block (lines : list str) (block_start : nat) (block_end : Z)
    (suffix : str) (h f : nat) : Prop :=
  block_start <= h /\ (Z.of_nat f <= block_end)%Z
  /\ (exists ln kind, lines !! h = Some ln /\ header_kind ln = Some kind
                      /\ endswith suffix kind = true)
  /\ find_matching_footer lines h = Some f
  /\ forall h' ln' kind' f',
       block_start <= h' < h -> lines !! h' = Some ln' ->
       header_kind ln' = Some kind' -> find_matching_footer lines h' = Some f' ->
       (Z.of_nat f' <= block_end)%Z ->
       f' < h /\ endswith suffix kind' = false.

(** * Properties *)

(** ** Characters and strings *)

Lemma is_char_true a c : is_char a c = true <-> c = a.
Proof. unfold is_char. apply N.eqb_eq. Qed.

Lemma is_char_false a c : is_char a c = false <-> c <> a.
Proof. unfold is_char. apply N.eqb_neq. Qed.

Lemma is_dot_true c : is_dot c = true <-> c <> LF.
Proof. unfold is_dot. rewrite negb_true_iff. apply N.eqb_neq. Qed.

Lemma is_blank_space c : is_blank c = true -> is_space c = true.
Proof.
  unfold is_blank. rewrite orb_true_iff, !N.eqb_eq. by intros [-> | ->].
Qed.

Lemma is_blank_not_hash c : is_blank c = true -> c <> HASH.
Proof.
  unfold is_blank. rewrite orb_true_iff, !N.eqb_eq. by intros [-> | ->].
Qed.

Lemma is_space_not_hash c : is_space c = true -> c <> HASH.
Proof. intros H ->. discriminate H. Qed.

Lemma is_blank_not_LF c : is_blank c = true -> c <> LF.
Proof.
  unfold is_blank. rewrite orb_true_iff, !N.eqb_eq. by intros [-> | ->].
Qed.

Lemma is_blank_not_CR c : is_blank c = true -> c <> CR.
Proof.
  unfold is_blank. rewrite orb_true_iff, !N.eqb_eq. by intros [-> | ->].
Qed.

Lemma take_drop_while p s : take_while p s ++ drop_while p s = s.
Proof. induction s as [|c s IH]; simpl; [done|]. destruct (p c); simpl; by f_equal. Qed.

Lemma take_while_all p s : forallb p (take_while p s) = true.
Proof. induction s as [|c s IH]; simpl; [done|]. destruct (p c) eqn:E; simpl; [by rewrite E|done]. Qed.

Lemma drop_while_head p s c t : drop_while p s = c :: t -> p c = false.
Proof.
  induction s as [|d s IH]; simpl; [done|].
  destruct (p d) eqn:E; [done|]. by intros [= -> ->].
Qed.

Lemma drop_while_nil p s : drop_while p s = [] <-> forallb p s = true.
Proof.
  induction s as [|c s IH]; simpl; [done|].
  destruct (p c); simpl; [done|]. split; discriminate.
Qed.

Lemma take_while_app p a c t :
  forallb p a = true -> p c = false -> take_while p (a ++ c :: t) = a.
Proof.
  intros Ha Hc. induction a as [|d a IH]; simpl in *; [by rewrite Hc|].
  apply andb_true_iff in Ha as [-> Ha]. f_equal. auto.
Qed.

Lemma drop_while_app p a c t :
  forallb p a = true -> p c = false -> drop_while p (a ++ c :: t) = c :: t.
Proof.
  intros Ha Hc. induction a as [|d a IH]; simpl in *; [by rewrite Hc|].
  apply andb_true_iff in Ha as [-> Ha]. auto.
Qed.

Lemma forallb_rev (p : N -> bool) s : forallb p (rev s) = forallb p s.
Proof.
  induction s as [|c s IH]; simpl; [done|].
  rewrite forallb_app, IH. simpl. rewrite andb_true_r. apply andb_comm.
Qed.

(** [line.strip() == ""] holds exactly for whitespace-only lines. *)
Lemma strip_nil s : strip s = [] <-> forallb is_space s = true.
Proof.
  unfold strip, rstrip, lstrip. split.
  - intros H. apply (f_equal (@rev N)) in H. rewrite rev_involutive in H.
    simpl in H. apply drop_while_nil in H. rewrite forallb_rev in H.
    destruct (drop_while is_space s) as [|c t] eqn:E.
    + by apply drop_while_nil.
    + apply drop_while_head in E. simpl in H. by rewrite E in H.
  - intros H. apply drop_while_nil in H. by rewrite H.
Qed.

Lemma blank_line_spec s : blank_line s = forallb is_space s.
Proof.
  unfold blank_line. destruct (forallb is_space s) eqn:E.
  - apply bool_decide_eq_true, strip_nil, E.
  - apply bool_decide_eq_false. rewrite strip_nil. congruence.
Qed.

(** ** Lines *)

Lemma split_nl_app s : fst (split_nl s) ++ snd (split_nl s) = s.
Proof.
  induction s as [|c s IH]; [done|]. cbn [split_nl].
  destruct (_ || _); simpl; [done|]. by f_equal.
Qed.

Lemma split_nl_cases s :
  snd (split_nl s) = [] \/ snd (split_nl s) = [LF] \/ snd (split_nl s) = [CR; LF].
Proof.
  induction s as [|c s IH]; [by left|]. cbn [split_nl].
  destruct (bool_decide (c :: s = [LF])) eqn:E1; simpl.
  { apply bool_decide_eq_true in E1. auto. }
  destruct (bool_decide (c :: s = [CR; LF])) eqn:E2; simpl.
  { apply bool_decide_eq_true in E2. auto. }
  done.
Qed.

Lemma single_line_tail c s : single_line (c :: s) = true -> single_line s = true.
Proof.
  simpl. destruct (c =? LF)%N; [|done]. by intros ->%bool_decide_eq_true.
Qed.

(** In a line, what precedes the terminator holds no newline, and a lone
    newline terminator is not preceded by a carriage return. *)

(** ** The matcher *)

Section Engine.
Implicit Types (k : mstate -> option mstate) (p : char -> bool).

(** A greedy run takes the whole run when what follows then matches. *)
Lemma star_greedy_max k p a b pos g r :
  forallb p a = true ->
  k (MState (length a + pos) b g) = Some r ->
  match b with c :: _ => p c = false | [] => True end ->
  star_greedy k p pos g (a ++ b) = Some r.
Proof.
  revert pos. induction a as [|c a IH]; intros pos Ha Hk Hb; simpl in *.
  - destruct b as [|c b]; simpl; [done|]. by rewrite Hb.
  - apply andb_true_iff in Ha as [-> Ha].
    rewrite (IH (S pos)); [done|done| |done].
    by rewrite Nat.add_succ_r.
Qed.

(** A greedy run followed by something no shorter run can precede: only
    the whole run is to be considered. *)
Lemma star_greedy_only k p a b pos g :
  forallb p a = true ->
  (forall i, i < length a -> k (MState (i + pos) (drop i a ++ b) g) = None) ->
  match b with c :: _ => p c = false | [] => True end ->
  star_greedy k p pos g (a ++ b) = k (MState (length a + pos) b g).
Proof.
  revert pos. induction a as [|c a IH]; intros pos Ha Hk Hb; simpl in *.
  - destruct b as [|c b]; simpl; [done|]. by rewrite Hb.
  - apply andb_true_iff in Ha as [-> Ha].
    rewrite (IH (S pos)), Nat.add_succ_r; [|done| |done].
    + destruct (k _) eqn:E; [done|]. apply (Hk 0). lia.
    + intros i Hi. rewrite Nat.add_succ_r. apply (Hk (S i)). lia.
Qed.

(** A lazy run stops at the first place where what follows matches. *)
Lemma star_lazy_first k p a b pos g r :
  forallb p a = true ->
  (forall i, i < length a -> k (MState (i + pos) (drop i a ++ b) g) = None) ->
  k (MState (length a + pos) b g) = Some r ->
  star_lazy k p pos g (a ++ b) = Some r.
Proof.
  revert pos. induction a as [|c a IH]; intros pos Ha Hk Hr.
  - simpl in *. destruct b; simpl; by rewrite Hr.
  - simpl in Ha. apply andb_true_iff in Ha as [Hc Ha].
    change ((c :: a) ++ b) with (c :: (a ++ b)). cbn [star_lazy].
    assert (H0 := Hk 0 ltac:(simpl; lia)). simpl in H0. rewrite H0, Hc.
    apply IH; [done| |].
    + intros i Hi. rewrite Nat.add_succ_r. apply (Hk (S i)). simpl. lia.
    + by rewrite Nat.add_succ_r.
Qed.

Lemma startswith_app v s : startswith v (v ++ s) = true.
Proof. induction v as [|a v IH]; simpl; [done|]. by rewrite N.eqb_refl. Qed.

Lemma startswith_true v s : startswith v s = true -> s = v ++ drop (length v) s.
Proof.
  revert s. induction v as [|a v IH]; intros [|c s] H; simpl in *; try done.
  apply andb_true_iff in H as [->%N.eqb_eq H]. f_equal. auto.
Qed.

Lemma exec_str_app k v t pos g :
  exec (Str v) k (MState pos (v ++ t) g) = k (MState (length v + pos) t g).
Proof.
  cbn [exec m_rest advance m_pos m_groups].
  by rewrite startswith_app, drop_app_length.
Qed.

End Engine.

(** ** The comment patterns on a line *)

(** The end of both patterns: the lazy group 2 stops at the terminator. *)
Lemma lazy_tail k cap s pos g r :
  single_line s = true ->
  k (MState (length s + pos) []
       (opt3 (snd (split_nl s))
        ++ ("2"%string, cap (length (fst (split_nl s)) + pos)) :: g)) = Some r ->
  star_lazy
    (fun st' =>
       exec (Opt (Grp "3" (Opt (Chr (is_char CR)) +> Chr (is_char LF))) +> Eol)%re
            k (set_group "2" (cap (m_pos st')) st'))
    is_dot pos g s = Some r.
Proof.
  revert pos. induction s as [|c s IH]; intros pos Hs Hk.
  - simpl in *. by rewrite Hk.
  - cbn [split_nl] in Hk.
    destruct (bool_decide (c :: s = [LF])) eqn:E1.
    { apply bool_decide_eq_true in E1. injection E1 as -> ->.
      simpl in *. replace (S pos - pos) with 1 by lia. simpl. by rewrite Hk. }
    destruct (bool_decide (c :: s = [CR; LF])) eqn:E2.
    { apply bool_decide_eq_true in E2. injection E2 as -> ->.
      simpl in *. replace (S (S pos) - pos) with 2 by lia. simpl. by rewrite Hk. }
    apply bool_decide_eq_false in E1, E2. simpl in Hk.
    assert (Hc : c <> LF).
    { intros ->. simpl in Hs. apply bool_decide_eq_true in Hs as ->. done. }
    assert (Hd : is_dot c = true) by by apply is_dot_true.
    assert (Hc' : (c =? LF)%N = false) by by apply N.eqb_neq.
    assert (Hs' : single_line s = true) by by eapply single_line_tail.
    cbn [star_lazy]. rewrite Hd.
    replace (exec _ k _) with (@None mstate).
    { apply IH; [done|]. by rewrite <- !Nat.add_succ_r in Hk. }
    symmetry. simpl. unfold is_char.
    destruct (c =? CR)%N eqn:Ec.
    + apply N.eqb_eq in Ec as ->.
      destruct s as [|d s]; [done|].
      destruct (d =? LF)%N eqn:Ed.
      * apply N.eqb_eq in Ed as ->. simpl in Hs'.
        apply bool_decide_eq_true in Hs' as ->. done.
      * done.
    + rewrite Hc'. by destruct s.
Qed.

Lemma star_greedy_max' k p s a b pos g r :
  s = a ++ b ->
  forallb p a = true ->
  match b with c :: _ => p c = false | [] => True end ->
  k (MState (length a + pos) b g) = Some r ->
  star_greedy k p pos g s = Some r.
Proof. intros -> ? ? ?. by apply star_greedy_max. Qed.

Lemma star_greedy_only' k p s a b pos g :
  s = a ++ b ->
  forallb p a = true ->
  match b with c :: _ => p c = false | [] => True end ->
  (forall i, i < length a -> k (MState (i + pos) (drop i a ++ b) g) = None) ->
  star_greedy k p pos g s = k (MState (length a + pos) b g).
Proof. intros -> ? ? ?. by apply star_greedy_only. Qed.

(** The characters of a run all satisfy the class. *)
Lemma drop_run_head (p : N -> bool) (a : list N) i :
  forallb p a = true -> i < length a ->
  exists d a', drop i a = d :: a' /\ p d = true.
Proof.
  intros Ha Hi. destruct (drop i a) as [|d a'] eqn:Ed.
  { apply (f_equal length) in Ed. rewrite length_drop in Ed. simpl in Ed. lia. }
  exists d, a'. split; [done|].
  rewrite <- (take_drop i a), forallb_app, Ed in Ha. simpl in Ha.
  by apply andb_true_iff in Ha as [_ [? _]%andb_true_iff].
Qed.

Lemma drop_while_hd p s :
  match drop_while p s with c :: _ => p c = false | [] => True end.
Proof.
  destruct (drop_while p s) eqn:E; [done|]. by eapply drop_while_head.
Qed.

Lemma take_split_nl_fst n s : take (length (fst (split_nl s)) + n - n) s = fst (split_nl s).
Proof.
  replace (length (split_nl s).1 + n - n) with (length (split_nl s).1) by lia.
  rewrite <- (split_nl_app s) at 2. by rewrite take_app_length.
Qed.

Lemma single_line_drop_while p s :
  single_line s = true -> single_line (drop_while p s) = true.
Proof.
  induction s as [|c s IH]; [done|]. intros Hs. cbn [drop_while].
  destruct (p c); [|done]. apply IH. by eapply single_line_tail.
Qed.


(** *** Unfolding the matcher one construct at a time *)

Lemma exec_seq a b k st : exec (a +> b) k st = exec a (exec b k) st.
Proof. reflexivity. Qed.

Lemma exec_bol k s g : exec Bol k (MState 0 s g) = k (MState 0 s g).
Proof. reflexivity. Qed.

Lemma exec_chr p k pos c s g :
  exec (Chr p) k (MState pos (c :: s) g)
  = if p c then k (MState (S pos) s g) else None.
Proof. reflexivity. Qed.

Lemma exec_chr_nil p k pos g : exec (Chr p) k (MState pos [] g) = None.
Proof. reflexivity. Qed.

Lemma exec_opt a k st :
  exec (Opt a) k st = match exec a k st with Some r => Some r | None => k st end.
Proof. reflexivity. Qed.

Lemma exec_alt a b k st :
  exec (Alt a b) k st
  = match exec a k st with Some r => Some r | None => exec b k st end.
Proof. reflexivity. Qed.

Lemma exec_grp name a k st :
  exec (Grp name a) k st
  = exec a (fun st' =>
              k (set_group name (take (m_pos st' - m_pos st) (m_rest st)) st')) st.
Proof. reflexivity. Qed.

Lemma exec_eol_nil k pos g : exec Eol k (MState pos [] g) = k (MState pos [] g).
Proof. reflexivity. Qed.

(** *** Greedy runs, by the longest run of the class *)

Lemma take_take_while (p : N -> bool) s n :
  take (length (take_while p s) + n - n) s = take_while p s.
Proof.
  replace (length (take_while p s) + n - n) with (length (take_while p s)) by lia.
  rewrite <- (take_drop_while p s) at 2. by rewrite take_app_length.
Qed.

Lemma exec_star_max p k pos g s r :
  k (MState (length (take_while p s) + pos) (drop_while p s) g) = Some r ->
  exec (Star p) k (MState pos s g) = Some r.
Proof.
  intros Hk. cbn [exec m_pos m_rest m_groups].
  eapply star_greedy_max';
    [symmetry; apply take_drop_while | apply take_while_all | apply drop_while_hd | done].
Qed.

Lemma exec_star_only p k pos g s :
  fails_after p k ->
  exec (Star p) k (MState pos s g)
  = k (MState (length (take_while p s) + pos) (drop_while p s) g).
Proof.
  intros Hk. cbn [exec m_pos m_rest m_groups].
  rewrite (star_greedy_only' _ _ s (take_while p s) (drop_while p s));
    [done | symmetry; apply take_drop_while | apply take_while_all
     | apply drop_while_hd |].
  intros i Hi.
  destruct (drop_run_head _ _ _ (take_while_all p s) Hi) as (d & a' & -> & Hd).
  by apply Hk.
Qed.

Lemma exec_grp_star_max name p k pos g s r :
  k (MState (length (take_while p s) + pos) (drop_while p s)
       ((name, take_while p s) :: g)) = Some r ->
  exec (Grp name (Star p)) k (MState pos s g) = Some r.
Proof.
  intros Hk. rewrite exec_grp. apply exec_star_max.
  cbn [set_group m_pos m_rest m_groups]. by rewrite take_take_while.
Qed.

Lemma exec_grp_star_only name p k pos g s :
  fails_after p k ->
  exec (Grp name (Star p)) k (MState pos s g)
  = k (MState (length (take_while p s) + pos) (drop_while p s)
         ((name, take_while p s) :: g)).
Proof.
  intros Hk. rewrite exec_grp, exec_star_only.
  - cbn [set_group m_pos m_rest m_groups]. by rewrite take_take_while.
  - intros pos' c t g' Hc. by apply Hk.
Qed.

Lemma fails_after_chr (p q : char -> bool) a k :
  (forall c, p c = true -> q c = false) -> fails_after p (exec (Chr q +> a) k).
Proof. intros H pos c t g Hc. rewrite exec_seq, exec_chr. by rewrite (H c Hc). Qed.

Lemma length_take_drop_while (p : N -> bool) s n :
  length (drop_while p s) + (length (take_while p s) + n) = length s + n.
Proof. rewrite <- (take_drop_while p s) at 3. rewrite length_app. lia. Qed.

(** ** The comment patterns on a line *)

(** The end of both patterns on what is left of a line. *)
Lemma exec_line_end k s pos g r :
  single_line s = true ->
  k (MState (length s + pos) []
       (opt3 (snd (split_nl s)) ++ ("2"%string, fst (split_nl s)) :: g)) = Some r ->
  exec (Grp "2" (Lazy is_dot)
        +> Opt (Grp "3" (Opt (Chr (is_char CR)) +> Chr (is_char LF))) +> Eol)%re
       k (MState pos s g) = Some r.
Proof.
  intros Hs Hk. rewrite exec_seq, exec_grp.
  cbn [exec m_pos m_rest m_groups].
  apply (lazy_tail _ (fun q => take (q - pos) s)); [done|].
  by rewrite take_split_nl_fst.
Qed.

(** What [comment_line]'s pattern captures on a line. *)
Lemma comment_re_match s :
  single_line s = true ->
  re_match COMMENT_RE s =
    Some (MState (length s) []
            (opt3 (snd (split_nl (drop_while is_blank s)))
             ++ [("2"%string, fst (split_nl (drop_while is_blank s)));
                 ("1"%string, take_while is_blank s)])).
Proof.
  intros Hs. unfold re_match, COMMENT_RE.
  rewrite exec_seq, exec_bol, exec_seq.
  apply exec_grp_star_max, exec_line_end.
  { by apply single_line_drop_while. }
  by rewrite length_take_drop_while, Nat.add_0_r.
Qed.

Lemma single_line_skip1 p s :
  single_line s = true -> single_line (skip1 p s) = true.
Proof.
  destruct s as [|c s]; [done|]. intros Hs. simpl.
  destruct (p c); [|done]. by eapply single_line_tail.
Qed.

(** What [uncomment_line]'s pattern captures on a line. *)
Lemma uncomment_re_match s :
  single_line s = true ->
  re_match UNCOMMENT_RE s =
    match drop_while is_blank s with
    | c :: t =>
        if (c =? HASH)%N then
          Some (MState (length s) []
                  (opt3 (snd (split_nl (skip1 is_space t)))
                   ++ [("2"%string, fst (split_nl (skip1 is_space t)));
                       ("1"%string, take_while is_blank s)]))
        else None
    | [] => None
    end.
Proof.
  intros Hs. unfold re_match, UNCOMMENT_RE.
  rewrite exec_seq, exec_bol, exec_seq.
  rewrite exec_grp_star_only.
  2:{ apply fails_after_chr. intros c Hc%is_blank_not_hash. by apply is_char_false. }
  assert (Hbs := single_line_drop_while is_blank s Hs).
  assert (Hlen := length_take_drop_while is_blank s 0).
  destruct (drop_while is_blank s) as [|c t]; [done|].
  rewrite exec_seq, exec_chr. unfold is_char at 1.
  destruct (c =? HASH)%N; [|done].
  assert (Ht : single_line t = true) by by eapply single_line_tail.
  rewrite exec_seq, exec_opt.
  destruct t as [|d t].
  - rewrite exec_chr_nil. apply exec_line_end; [done|].
    simpl in *. do 2 f_equal. lia.
  - rewrite exec_chr. simpl skip1. destruct (is_space d).
    + erewrite exec_line_end; [done|by eapply single_line_tail|].
      simpl in *. do 2 f_equal. lia.
    + apply exec_line_end; [done|]. simpl in *. do 2 f_equal. lia.
Qed.

Lemma group_opt3_1 nl r i :
  group_or_empty (MState 0 [] (opt3 nl ++ [("2"%string, r); ("1"%string, i)])) "1" = i.
Proof. by destruct nl. Qed.

Lemma group_opt3_2 nl r i :
  group_or_empty (MState 0 [] (opt3 nl ++ [("2"%string, r); ("1"%string, i)])) "2" = r.
Proof. by destruct nl. Qed.

Lemma group_opt3_3 nl r i :
  group_or_empty (MState 0 [] (opt3 nl ++ [("2"%string, r); ("1"%string, i)])) "3" = nl.
Proof. by destruct nl. Qed.

Lemma group_or_empty_pos m name pos s :
  group_or_empty (MState pos s (m_groups m)) name = group_or_empty m name.
Proof. reflexivity. Qed.

(** [comment_line] on a line, without the matcher. *)
Lemma comment_line_spec s :
  single_line s = true -> comment_line s = comment_spec s.
Proof.
  intros Hs. unfold comment_line, comment_spec, blank_line.
  destruct (bool_decide (strip s = [])); [done|].
  rewrite comment_re_match by done.
  rewrite <- (group_or_empty_pos _ "1" 0 []), <- (group_or_empty_pos _ "2" 0 []),
    <- (group_or_empty_pos _ "3" 0 []).
  cbn [m_groups]. by rewrite group_opt3_1, group_opt3_2, group_opt3_3.
Qed.

(** [uncomment_line] on a line, without the matcher. *)
Lemma uncomment_line_spec s :
  single_line s = true -> uncomment_line s = uncomment_spec s.
Proof.
  intros Hs. unfold uncomment_line, uncomment_spec, blank_line.
  destruct (bool_decide (strip s = [])); [done|].
  rewrite uncomment_re_match by done.
  destruct (drop_while is_blank s) as [|c t]; [done|].
  destruct (c =? HASH)%N; [|done].
  rewrite <- (group_or_empty_pos _ "1" 0 []), <- (group_or_empty_pos _ "2" 0 []),
    <- (group_or_empty_pos _ "3" 0 []).
  cbn [m_groups]. by rewrite group_opt3_1, group_opt3_2, group_opt3_3.
Qed.


(** ** Round trip and idempotence of the comment toggle *)

Lemma single_line_app a s :
  forallb is_dot a = true -> single_line (a ++ s) = single_line s.
Proof.
  intros Ha. induction a as [|c a IH]; [done|]. simpl in *.
  apply andb_true_iff in Ha as [Hc Ha]. apply is_dot_true, N.eqb_neq in Hc.
  rewrite Hc. auto.
Qed.

Lemma blank_is_dot a : forallb is_blank a = true -> forallb is_dot a = true.
Proof.
  rewrite !forallb_forall. intros H c Hc. apply is_dot_true, is_blank_not_LF. auto.
Qed.

Lemma take_while_dot s : forallb is_dot (take_while is_blank s) = true.
Proof. apply blank_is_dot, take_while_all. Qed.

Lemma blank_line_app_hash a s : blank_line (a ++ HASH :: s) = false.
Proof.
  rewrite blank_line_spec, forallb_app. simpl. apply andb_false_r.
Qed.

Lemma split_nl_cons c s :
  c <> LF -> c <> CR ->
  split_nl (c :: s) = (c :: fst (split_nl s), snd (split_nl s)).
Proof.
  intros H1 H2. cbn [split_nl].
  rewrite !bool_decide_eq_false_2; [done|congruence|congruence].
Qed.

(** The shape of a commented line. *)
Lemma comment_spec_cases s :
  comment_spec s = s
  \/ (blank_line s = false
      /\ comment_spec s = take_while is_blank s ++ HASH :: SP :: drop_while is_blank s).
Proof.
  unfold comment_spec. destruct (blank_line s); [by left|].
  destruct (startswith _ _); [by left|]. right. split; [done|].
  simpl. by rewrite split_nl_app.
Qed.

Lemma single_line_commented s :
  single_line s = true ->
  single_line (take_while is_blank s ++ HASH :: SP :: drop_while is_blank s) = true.
Proof.
  intros Hs. rewrite single_line_app by apply take_while_dot.
  simpl. by apply single_line_drop_while.
Qed.

Lemma uncomment_spec_commented s :
  uncomment_spec (take_while is_blank s ++ HASH :: SP :: drop_while is_blank s) = s.
Proof.
  unfold uncomment_spec. rewrite blank_line_app_hash.
  rewrite drop_while_app, take_while_app by (done || apply take_while_all).
  simpl. rewrite split_nl_app. apply take_drop_while.
Qed.

Lemma comment_spec_commented s :
  comment_spec (take_while is_blank s ++ HASH :: SP :: drop_while is_blank s)
  = take_while is_blank s ++ HASH :: SP :: drop_while is_blank s.
Proof.
  unfold comment_spec. rewrite blank_line_app_hash.
  rewrite drop_while_app by (done || apply take_while_all).
  by rewrite split_nl_cons.
Qed.

(** C4: for every non-blank line [L] (a string with no newline but possibly
    a last one) whose content after the leading spaces and tabs does not
    begin with the marker, [uncomment_line (comment_line L) = L].  A line
    whose text after all leading whitespace does not begin with the marker
    satisfies the hypothesis in particular. *)
Theorem uncomment_comment_line (L : str) :
  single_line L = true ->
  blank_line L = false ->
  startswith [HASH] (drop_while is_blank L) = false ->
  uncomment_line (comment_line L) = L.
Proof.
  intros Hs Hb Hm. rewrite comment_line_spec by done.
  destruct (comment_spec_cases L) as [-> | [_ ->]].
  - rewrite uncomment_line_spec by done. unfold uncomment_spec. rewrite Hb.
    destruct (drop_while is_blank L) as [|c t]; [done|].
    simpl in Hm. rewrite andb_true_r in Hm. by rewrite Hm.
  - rewrite uncomment_line_spec by by apply single_line_commented.
    apply uncomment_spec_commented.
Qed.

Lemma uncomment_comment_line_witness :
  uncomment_line (comment_line (lit "    spawn=UnitreeUsdFileCfg(" ++ [CR; LF]))
  = lit "    spawn=UnitreeUsdFileCfg(" ++ [CR; LF].
Proof. by apply uncomment_comment_line. Defined.

(** [comment_line] keeps a line a line, and so does [uncomment_line]. *)
Lemma single_line_comment_line s :
  single_line s = true -> single_line (comment_line s) = true.
Proof.
  intros Hs. rewrite comment_line_spec by done.
  destruct (comment_spec_cases s) as [-> | [_ ->]]; [done|].
  by apply single_line_commented.
Qed.

Lemma uncomment_spec_cases s :
  uncomment_spec s = s
  \/ exists t, drop_while is_blank s = HASH :: t
               /\ uncomment_spec s = take_while is_blank s ++ skip1 is_space t.
Proof.
  unfold uncomment_spec. destruct (blank_line s); [by left|].
  destruct (drop_while is_blank s) as [|c t] eqn:E; [by left|].
  destruct (c =? HASH)%N eqn:Ec; [|by left].
  apply N.eqb_eq in Ec as ->. right. exists t. by rewrite split_nl_app.
Qed.

Lemma single_line_uncomment_line s :
  single_line s = true -> single_line (uncomment_line s) = true.
Proof.
  intros Hs. rewrite uncomment_line_spec by done.
  destruct (uncomment_spec_cases s) as [-> | (t & Et & ->)]; [done|].
  rewrite single_line_app by apply take_while_dot.
  apply single_line_skip1. apply (single_line_drop_while is_blank) in Hs.
  rewrite Et in Hs. by eapply single_line_tail.
Qed.

Lemma length_skip1 p s : length (skip1 p s) <= length s.
Proof. destruct s as [|c s]; simpl; [lia|]. destruct (p c); simpl; lia. Qed.

(** [uncomment_line] leaves a line as it is exactly when the line is blank or
    does not begin, after its spaces and tabs, with the marker. *)
Lemma uncomment_fixed s :
  single_line s = true ->
  uncomment_line s = s
  <-> blank_line s = true \/ startswith [HASH] (drop_while is_blank s) = false.
Proof.
  intros Hs. rewrite uncomment_line_spec by done. unfold uncomment_spec. split.
  - destruct (blank_line s); [by left|]. intros H. right.
    destruct (drop_while is_blank s) as [|c t] eqn:E; [done|].
    simpl. rewrite andb_true_r. destruct (c =? HASH)%N; [|done].
    rewrite split_nl_app in H. apply (f_equal length) in H.
    rewrite <- (take_drop_while is_blank s) in H at 2. rewrite E, !length_app in H.
    pose proof (length_skip1 is_space t). simpl in H. lia.
  - intros [-> | H]; [done|]. destruct (blank_line s); [done|].
    destruct (drop_while is_blank s) as [|c t]; [done|].
    simpl in H. rewrite andb_true_r in H. by rewrite H.
Qed.

Lemma comment_line_idem s :
  single_line s = true -> comment_line (comment_line s) = comment_line s.
Proof.
  intros Hs. rewrite (comment_line_spec s) by done.
  destruct (comment_spec_cases s) as [E | [_ E]]; rewrite E.
  - by rewrite comment_line_spec.
  - rewrite comment_line_spec by by apply single_line_commented.
    apply comment_spec_commented.
Qed.

(** C5, as amended: [comment_line] is idempotent on every line;
    [uncomment_line] strips one marker per application, so applying it twice
    gives what applying it once gives exactly when the line uncommented once
    is blank or no longer begins, after its spaces and tabs, with the
    marker. *)
Theorem comment_idempotent_uncomment_once (L : str) :
  single_line L = true ->
  comment_line (comment_line L) = comment_line L
  /\ (uncomment_line (uncomment_line L) = uncomment_line L
      <-> blank_line (uncomment_line L) = true
          \/ startswith [HASH] (drop_while is_blank (uncomment_line L)) = false).
Proof.
  intros Hs. split.
  - by apply comment_line_idem.
  - apply uncomment_fixed. by apply single_line_uncomment_line.
Qed.

Lemma comment_idempotent_uncomment_once_witness :
  comment_line (comment_line (lit "  # x" ++ [LF])) = comment_line (lit "  # x" ++ [LF])
  /\ (uncomment_line (uncomment_line (lit "  # x" ++ [LF]))
      = uncomment_line (lit "  # x" ++ [LF])
      <-> blank_line (uncomment_line (lit "  # x" ++ [LF])) = true
          \/ startswith [HASH]
               (drop_while is_blank (uncomment_line (lit "  # x" ++ [LF]))) = false).
Proof. by apply comment_idempotent_uncomment_once. Defined.

(** C5 as stated fails for [uncomment_line]: a line with two markers loses
    one at each application. *)
Lemma uncomment_not_idempotent :
  ~ (forall L : str,
       comment_line (comment_line L) = comment_line L
       /\ uncomment_line (uncomment_line L) = uncomment_line L).
Proof.
  intros H. destruct (H (lit "# # x=1," ++ [LF])) as [_ H2].
  vm_compute in H2. discriminate H2.
Qed.


(** ** Region locator *)

Lemma cfg_scan_some ls : forall st i r,
  cfg_scan st i ls = Some r ->
  exists n, r = i + n /\ n < length ls
    /\ closed (fold_left count_parens (take (S n) ls) st) = true
    /\ forall m, m < n -> closed (fold_left count_parens (take (S m) ls) st) = false.
Proof.
  induction ls as [|ln ls IH]; intros st i r H; [done|].
  cbn [cfg_scan] in H.
  destruct (snd (count_parens st ln) && (fst (count_parens st ln) <=? 0)%Z) eqn:E.
  - injection H as <-. exists 0. repeat split; [lia|simpl; lia|done|lia].
  - apply IH in H as (n & -> & Hn & Hc & Hm). exists (S n).
    repeat split; [lia|simpl; lia|done|].
    intros [|m] Hlt; [done|]. apply Hm. lia.
Qed.

Lemma cfg_scan_none ls : forall st i,
  cfg_scan st i ls = None ->
  forall m, m < length ls -> closed (fold_left count_parens (take (S m) ls) st) = false.
Proof.
  induction ls as [|ln ls IH]; intros st i H m Hm; [simpl in Hm; lia|].
  cbn [cfg_scan] in H.
  destruct (snd (count_parens st ln) && (fst (count_parens st ln) <=? 0)%Z) eqn:E;
    [done|].
  destruct m as [|m]; [done|]. apply (IH _ _ H). simpl in Hm. lia.
Qed.

Lemma scan_state_offset lines start n :
  scan_state lines start (start + n)
  = fold_left count_parens (take (S n) (drop start lines)) (0%Z, false).
Proof. unfold scan_state. by replace (S (start + n) - start) with (S n) by lia. Qed.

(** The locator on a region that closes, and on one that does not. *)
Lemma find_cfg_block_end_closed lines start r :
  cfg_scan (0%Z, false) start (drop start lines) = Some r ->
  find_cfg_block_end lines start = Z.of_nat r
  /\ start <= r < length lines
  /\ balanced_at lines start r = true
  /\ forall i, start <= i < r -> balanced_at lines start i = false.
Proof.
  intros H. unfold find_cfg_block_end. rewrite H.
  apply cfg_scan_some in H as (n & -> & Hn & Hc & Hm).
  rewrite length_drop in Hn. repeat split; [lia|lia| |].
  - unfold balanced_at. by rewrite scan_state_offset.
  - intros i Hi. replace i with (start + (i - start)) by lia.
    unfold balanced_at. rewrite scan_state_offset. apply Hm. lia.
Qed.

Lemma find_cfg_block_end_open lines start :
  cfg_scan (0%Z, false) start (drop start lines) = None ->
  find_cfg_block_end lines start = (Z.of_nat (length lines) - 1)%Z
  /\ forall i, start <= i < length lines -> balanced_at lines start i = false.
Proof.
  intros H. unfold find_cfg_block_end. rewrite H. split; [done|].
  intros i Hi. replace i with (start + (i - start)) by lia.
  unfold balanced_at. rewrite scan_state_offset.
  apply (cfg_scan_none _ _ _ H). rewrite length_drop. lia.
Qed.

(** C7: when the delimiters balance before the end of the file, the region
    locator returns the first line index [r] at or after [start] at which
    the depth counter, run over every character of the lines [start .. r],
    has started and is not positive; no index before [r] has that
    property. *)
Theorem find_cfg_block_end_first_balanced (lines : list str) (start : nat) :
  (exists j, start <= j < length lines /\ balanced_at lines start j = true) ->
  exists r,
    find_cfg_block_end lines start = Z.of_nat r
    /\ start <= r < length lines
    /\ balanced_at lines start r = true
    /\ forall i, start <= i < r -> balanced_at lines start i = false.
Proof.
  intros (j & Hj & Hb).
  destruct (cfg_scan (0%Z, false) start (drop start lines)) as [r|] eqn:E.
  - exists r. by apply find_cfg_block_end_closed.
  - apply find_cfg_block_end_open in E as [_ E]. by rewrite E in Hb.
Qed.

Lemma find_cfg_block_end_first_balanced_witness :
  exists r,
    find_cfg_block_end
      [lit "G1_CFG = UnitreeArticulationCfg("; lit "  f(x),"; lit ")"; lit "y = 1"] 0
    = Z.of_nat r
    /\ 0 <= r < 4
    /\ balanced_at
         [lit "G1_CFG = UnitreeArticulationCfg("; lit "  f(x),"; lit ")"; lit "y = 1"]
         0 r = true
    /\ forall i, 0 <= i < r ->
         balanced_at
           [lit "G1_CFG = UnitreeArticulationCfg("; lit "  f(x),"; lit ")"; lit "y = 1"]
           0 i = false.
Proof.
  apply find_cfg_block_end_first_balanced.
  exists 2. split; [simpl; lia | reflexivity].
Defined.

(** The locator never returns an index before its start, nor one past the
    last line. *)
Lemma find_cfg_block_end_ge lines start :
  start < length lines ->
  (Z.of_nat start <= find_cfg_block_end lines start < Z.of_nat (length lines))%Z.
Proof.
  intros Hs.
  destruct (cfg_scan (0%Z, false) start (drop start lines)) as [r|] eqn:E.
  - apply find_cfg_block_end_closed in E as (-> & ? & _). lia.
  - apply find_cfg_block_end_open in E as [-> _]. lia.
Qed.

(** The locator only reads the lines from its start on. *)
Lemma find_cfg_block_end_ext lines lines' start :
  length lines = length lines' ->
  drop start lines = drop start lines' ->
  find_cfg_block_end lines start = find_cfg_block_end lines' start.
Proof. intros Hl Hd. unfold find_cfg_block_end. by rewrite Hd, Hl. Qed.


(** ** Switching a span *)

Lemma switch_from_spec f n : forall lines k,
  k + n <= length lines ->
  exists lines',
    switch_from f lines k n = Ret lines'
    /\ length lines' = length lines
    /\ (forall i, k <= i < k + n -> lines' !! i = f <$> lines !! i)
    /\ (forall i, ~ (k <= i < k + n) -> lines' !! i = lines !! i).
Proof.
  induction n as [|n IH]; intros lines k Hk.
  - exists lines. split; [done|]. split; [done|]. split; [|done]. intros i Hi. lia.
  - cbn [switch_from]. unfold getitem.
    destruct (lines !! k) as [ln|] eqn:E.
    2:{ apply lookup_ge_None in E. lia. }
    cbn [bind].
    destruct (IH (<[k := f ln]> lines) (S k)) as (lines' & -> & Hlen & Hin & Hout).
    { rewrite length_insert. lia. }
    exists lines'. rewrite length_insert in Hlen. split; [done|]. split; [done|]. split.
    + intros i Hi. destruct (decide (i = k)) as [->|Hne].
      * rewrite Hout by lia. rewrite list_lookup_insert_eq, E; [done|].
        apply lookup_lt_Some in E. done.
      * rewrite Hin by lia. by rewrite list_lookup_insert_ne.
    + intros i Hi. rewrite Hout by lia. rewrite list_lookup_insert_ne; [done|lia].
Qed.

Lemma switch_spawn_block_spec lines sp enable :
  fst sp <= snd sp -> snd sp < length lines ->
  exists lines',
    switch_spawn_block lines sp enable = Ret lines'
    /\ length lines' = length lines
    /\ (forall i, in_span sp i ->
          lines' !! i = (if enable then uncomment_line else comment_line) <$> lines !! i)
    /\ (forall i, ~ in_span sp i -> lines' !! i = lines !! i).
Proof.
  destruct sp as [s e]. unfold in_span. simpl. intros Hse He.
  destruct (switch_from_spec (if enable then uncomment_line else comment_line)
              (S e - s) lines s) as (lines' & H & Hlen & Hin & Hout); [lia|].
  exists lines'. split; [done|]. split; [done|]. split.
  - intros i Hi. apply Hin. lia.
  - intros i Hi. apply Hout. lia.
Qed.

(** ** Finding a footer *)

Lemma find_from_some p ls : forall j r,
  find_from p j ls = Some r ->
  exists n, r = j + n
    /\ (exists ln, ls !! n = Some ln /\ p ln = true)
    /\ forall m ln, m < n -> ls !! m = Some ln -> p ln = false.
Proof.
  induction ls as [|l ls IH]; intros j r H; [done|]. cbn [find_from] in H.
  destruct (p l) eqn:E.
  - injection H as <-. exists 0. split; [lia|]. split; [by exists l|]. lia.
  - apply IH in H as (n & -> & Hf & Hm). exists (S n). split; [lia|].
    split; [done|]. intros [|m] ln Hlt Hl; [by injection Hl as <-|].
    apply (Hm m); [lia|done].
Qed.

Lemma find_from_none p ls : forall j,
  find_from p j ls = None -> forall m ln, ls !! m = Some ln -> p ln = false.
Proof.
  induction ls as [|l ls IH]; intros j H m ln Hl; [done|]. cbn [find_from] in H.
  destruct (p l) eqn:E; [done|].
  destruct m as [|m]; [by injection Hl as <-|]. by apply (IH _ H m).
Qed.

(** [find_matching_footer] returns the first footer strictly after its
    start. *)
Lemma find_matching_footer_some lines i j :
  find_matching_footer lines i = Some j ->
  i < j < length lines
  /\ (exists ln, lines !! j = Some ln /\ is_footer ln = true)
  /\ forall m ln, i < m < j -> lines !! m = Some ln -> is_footer ln = false.
Proof.
  unfold find_matching_footer. intros H.
  apply find_from_some in H as (n & -> & (ln & Hl & Hp) & Hm).
  rewrite lookup_drop in Hl. split.
  { apply lookup_lt_Some in Hl. lia. }
  split; [by exists ln|].
  intros m l Hlt Hml. apply (Hm (m - S i)); [lia|].
  rewrite lookup_drop. by replace (S i + (m - S i)) with m by lia.
Qed.

Lemma find_matching_footer_none lines i :
  find_matching_footer lines i = None ->
  forall m ln, i < m -> lines !! m = Some ln -> is_footer ln = false.
Proof.
  unfold find_matching_footer. intros H m ln Hlt Hl.
  apply (find_from_none _ _ _ H (m - S i)).
  rewrite lookup_drop. by replace (S i + (m - S i)) with m by lia.
Qed.

Lemma find_matching_footer_ext lines lines' i :
  drop (S i) lines = drop (S i) lines' ->
  find_matching_footer lines i = find_matching_footer lines' i.
Proof. unfold find_matching_footer. by intros ->. Qed.

(** ** Sub-block finder *)

(** One turn of the loop of [locate_spawn_blocks_within]. *)
Lemma locate_loop_step fuel lines be u d i :
  locate_loop (S fuel) lines be u d i =
    if (Z.of_nat i <=? be)%Z then
      match lines !! i with
      | None => IndexError
      | Some ln =>
          match header_kind ln, find_matching_footer lines i with
          | Some kind, Some j =>
              if (Z.of_nat j >? be)%Z then locate_loop fuel lines be u d (S i)
              else locate_loop fuel lines be (fst (record_span kind i j u d))
                               (snd (record_span kind i j u d)) (S j)
          | _, _ => locate_loop fuel lines be u d (S i)
          end
      end
    else Ret (u, d).
Proof.
  cbn [locate_loop]. destruct (Z.of_nat i <=? be)%Z; [|done].
  unfold getitem, header_kind, record_span. destruct (lines !! i) as [ln|]; [|done].
  cbn [bind]. destruct (re_match _ _) as [m|]; [|done].
  destruct (find_matching_footer lines i) as [j|]; [|done].
  destruct (Z.of_nat j >? be)%Z; [done|].
  destruct (endswith (lit "UrdfFileCfg") _ && _); [done|].
  by destruct (endswith (lit "UsdFileCfg") _ && _).
Qed.

(** The loop does not depend on its fuel, once there is enough. *)
Lemma locate_loop_fuel lines be fuel1 : forall fuel2 u d i,
  (be < Z.of_nat (length lines))%Z ->
  Z.to_nat (be + 1 - Z.of_nat i) < fuel1 ->
  Z.to_nat (be + 1 - Z.of_nat i) < fuel2 ->
  locate_loop fuel1 lines be u d i = locate_loop fuel2 lines be u d i.
Proof.
  induction fuel1 as [|fuel1 IH]; intros fuel2 u d i Hbe H1 H2; [lia|].
  destruct fuel2 as [|fuel2]; [lia|]. rewrite !locate_loop_step.
  destruct (Z.of_nat i <=? be)%Z eqn:Ei; [|done]. apply Z.leb_le in Ei.
  destruct (lines !! i) as [ln|]; [|done].
  destruct (header_kind ln) as [kind|]; [|apply IH; lia].
  destruct (find_matching_footer lines i) as [j|] eqn:Ej; [|apply IH; lia].
  apply find_matching_footer_some in Ej as [Hj _].
  destruct (Z.of_nat j >? be)%Z; apply IH; lia.
Qed.

Lemma locate_from_fuel lines be fuel u d i :
  (be < Z.of_nat (length lines))%Z ->
  Z.to_nat (be + 1 - Z.of_nat i) < fuel ->
  locate_loop fuel lines be u d i = locate_from lines be u d i.
Proof. intros. apply locate_loop_fuel; [done|done|lia]. Qed.

(** The scan, turn by turn. *)
Lemma locate_from_done lines be u d i :
  (be < Z.of_nat i)%Z -> locate_from lines be u d i = Ret (u, d).
Proof.
  intros Hi. unfold locate_from. rewrite locate_loop_step.
  by rewrite (proj2 (Z.leb_gt _ _)).
Qed.

Lemma locate_from_plain lines be u d i ln :
  (Z.of_nat i <= be < Z.of_nat (length lines))%Z ->
  lines !! i = Some ln -> header_kind ln = None ->
  locate_from lines be u d i = locate_from lines be u d (S i).
Proof.
  intros Hi Hl Hh. unfold locate_from at 1. rewrite locate_loop_step.
  rewrite (proj2 (Z.leb_le _ _)), Hl, Hh by lia. apply locate_from_fuel; lia.
Qed.

Lemma locate_from_no_footer lines be u d i ln kind :
  (Z.of_nat i <= be < Z.of_nat (length lines))%Z ->
  lines !! i = Some ln -> header_kind ln = Some kind ->
  (forall j, find_matching_footer lines i = Some j -> (be < Z.of_nat j)%Z) ->
  locate_from lines be u d i = locate_from lines be u d (S i).
Proof.
  intros Hi Hl Hh Hf. unfold locate_from at 1. rewrite locate_loop_step.
  rewrite (proj2 (Z.leb_le _ _)), Hl, Hh by lia.
  destruct (find_matching_footer lines i) as [j|]; [|apply locate_from_fuel; lia].
  specialize (Hf j eq_refl). rewrite (proj2 (Z.gtb_gt _ _)) by lia.
  apply locate_from_fuel; lia.
Qed.

Lemma locate_from_footer lines be u d i ln kind j :
  (Z.of_nat i <= be < Z.of_nat (length lines))%Z ->
  lines !! i = Some ln -> header_kind ln = Some kind ->
  find_matching_footer lines i = Some j -> (Z.of_nat j <= be)%Z ->
  locate_from lines be u d i
  = locate_from lines be (fst (record_span kind i j u d))
                (snd (record_span kind i j u d)) (S j).
Proof.
  intros Hi Hl Hh Hf Hj. unfold locate_from at 1. rewrite locate_loop_step.
  rewrite (proj2 (Z.leb_le _ _)), Hl, Hh, Hf by lia.
  destruct (Z.of_nat j >? be)%Z eqn:E; [apply Z.gtb_gt in E; lia|].
  apply find_matching_footer_some in Hf as [? _].
  apply locate_from_fuel; lia.
Qed.

Lemma span_ok_record lines bs be i j ln kind u d :
  bs <= i -> (Z.of_nat j <= be)%Z ->
  lines !! i = Some ln -> header_kind ln = Some kind ->
  find_matching_footer lines i = Some j ->
  span_ok lines bs be (lit "UrdfFileCfg") u ->
  span_ok lines bs be (lit "UsdFileCfg") d ->
  ends_before i u -> ends_before i d -> spans_apart u d ->
  span_ok lines bs be (lit "UrdfFileCfg") (fst (record_span kind i j u d))
  /\ span_ok lines bs be (lit "UsdFileCfg") (snd (record_span kind i j u d))
  /\ ends_before (S j) (fst (record_span kind i j u d))
  /\ ends_before (S j) (snd (record_span kind i j u d))
  /\ spans_apart (fst (record_span kind i j u d)) (snd (record_span kind i j u d)).
Proof.
  intros Hbs Hj Hl Hh Hf Hu Hd Eu Ed Hud.
  apply find_matching_footer_some in Hf as (Hij & Hfoot & Hfirst).
  assert (Hnew : forall sfx, endswith sfx kind = true ->
                             span_ok lines bs be sfx (Some (i, j))).
  { intros sfx Hs. simpl. split_and!; [done|lia|done| |done|done].
    by exists ln, kind. }
  assert (Hweak : forall sp, ends_before i sp -> ends_before (S j) sp).
  { intros [[h f]|]; simpl; [lia|done]. }
  unfold record_span.
  destruct (endswith (lit "UrdfFileCfg") kind) eqn:E1; cbn [andb].
  - destruct (bool_decide (u = None)) eqn:Eu'; cbn [fst snd].
    + split_and!; [by apply Hnew|done|simpl; lia|by apply Hweak|].
      destruct d as [[h f]|]; simpl in *; [lia|done].
    + destruct (endswith (lit "UsdFileCfg") kind && bool_decide (d = None)) eqn:E2;
        cbn [fst snd].
      * apply andb_true_iff in E2 as [E2 _].
        split_and!; [done|by apply Hnew|by apply Hweak|simpl; lia|].
        destruct u as [[h f]|]; simpl in *; [lia|done].
      * split_and!; [done|done|by apply Hweak|by apply Hweak|done].
  - destruct (endswith (lit "UsdFileCfg") kind && bool_decide (d = None)) eqn:E2;
      cbn [fst snd].
    + apply andb_true_iff in E2 as [E2 _].
      split_and!; [done|by apply Hnew|by apply Hweak|simpl; lia|].
      destruct u as [[h f]|]; simpl in *; [lia|done].
    + split_and!; [done|done|by apply Hweak|by apply Hweak|done].
Qed.

(** The scan returns, and what it returns are spans of the region that do
    not overlap. *)
Lemma locate_loop_spans lines bs be fuel : forall u d i,
  (be < Z.of_nat (length lines))%Z ->
  Z.to_nat (be + 1 - Z.of_nat i) < fuel ->
  bs <= i ->
  span_ok lines bs be (lit "UrdfFileCfg") u ->
  span_ok lines bs be (lit "UsdFileCfg") d ->
  ends_before i u -> ends_before i d -> spans_apart u d ->
  exists u' d',
    locate_loop fuel lines be u d i = Ret (u', d')
    /\ span_ok lines bs be (lit "UrdfFileCfg") u'
    /\ span_ok lines bs be (lit "UsdFileCfg") d'
    /\ spans_apart u' d'.
Proof.
  induction fuel as [|fuel IH]; intros u d i Hbe Hfuel Hbs Hu Hd Eu Ed Hud; [lia|].
  assert (Hweak : forall sp, ends_before i sp -> ends_before (S i) sp).
  { intros [[h f]|]; simpl; [lia|done]. }
  rewrite locate_loop_step.
  destruct (Z.of_nat i <=? be)%Z eqn:Ei; [|by exists u, d].
  apply Z.leb_le in Ei.
  destruct (lines !! i) as [ln|] eqn:El.
  2:{ apply lookup_ge_None in El. lia. }
  destruct (header_kind ln) as [kind|] eqn:Eh.
  2:{ apply IH; auto; lia. }
  destruct (find_matching_footer lines i) as [j|] eqn:Ej.
  2:{ apply IH; auto; lia. }
  destruct (Z.of_nat j >? be)%Z eqn:Ejb.
  { apply IH; auto; lia. }
  assert (Hj : (Z.of_nat j <= be)%Z).
  { destruct (Z.gtb_spec (Z.of_nat j) be); [done|lia]. }
  destruct (span_ok_record lines bs be i j ln kind u d) as (? & ? & ? & ? & ?); auto.
  apply find_matching_footer_some in Ej as [? _].
  apply IH; auto; lia.
Qed.

Lemma locate_spawn_blocks_within_spans lines bs be :
  (be < Z.of_nat (length lines))%Z ->
  exists u d,
    locate_spawn_blocks_within lines bs be = Ret (u, d)
    /\ span_ok lines bs be (lit "UrdfFileCfg") u
    /\ span_ok lines bs be (lit "UsdFileCfg") d
    /\ spans_apart u d.
Proof.
  intros Hbe. unfold locate_spawn_blocks_within.
  apply (locate_loop_spans lines bs be); simpl; auto; lia.
Qed.

Lemma record_span_keeps kind i j u d :
  (forall sp, u = Some sp -> fst (record_span kind i j u d) = Some sp)
  /\ (forall sp, d = Some sp -> snd (record_span kind i j u d) = Some sp).
Proof.
  unfold record_span. split; intros sp ->.
  - rewrite bool_decide_eq_false_2 by done. rewrite andb_false_r.
    by destruct (_ && _).
  - rewrite (bool_decide_eq_false_2 (Some sp = None)) by done. rewrite andb_false_r.
    by destruct (_ && _).
Qed.



(** ** Orchestrator *)

Lemma drop_ext (l1 l2 : list str) i :
  length l1 = length l2 ->
  (forall k, i <= k -> l1 !! k = l2 !! k) -> drop i l1 = drop i l2.
Proof.
  intros Hl H. apply list_eq. intros k. rewrite !lookup_drop. apply H. lia.
Qed.

Lemma drop_lookup (l1 l2 : list str) i k :
  drop i l1 = drop i l2 -> i <= k -> l1 !! k = l2 !! k.
Proof.
  intros H Hk. replace k with (i + (k - i)) by lia.
  by rewrite <- !lookup_drop, H.
Qed.

Lemma drop_drop_eq (l1 l2 : list str) i j :
  drop i l1 = drop i l2 -> i <= j -> drop j l1 = drop j l2.
Proof.
  intros H Hj. replace j with (i + (j - i)) by lia.
  by rewrite <- !drop_drop, H.
Qed.

(** The sub-block finder only reads the lines from its start on. *)
Lemma locate_loop_ext fuel : forall lines lines' be u d i,
  drop i lines = drop i lines' ->
  locate_loop fuel lines be u d i = locate_loop fuel lines' be u d i.
Proof.
  induction fuel as [|fuel IH]; intros lines lines' be u d i Hd; [done|].
  rewrite !locate_loop_step.
  destruct (Z.of_nat i <=? be)%Z; [|done].
  rewrite <- (drop_lookup lines lines' i i Hd) by lia.
  destruct (lines !! i) as [ln|]; [|done].
  rewrite <- (find_matching_footer_ext lines lines' i)
    by (eapply drop_drop_eq; [done|lia]).
  assert (Hn : locate_loop fuel lines be u d (S i)
               = locate_loop fuel lines' be u d (S i)).
  { apply IH. eapply drop_drop_eq; [done|lia]. }
  destruct (header_kind ln) as [kind|]; [|done].
  destruct (find_matching_footer lines i) as [j|] eqn:Ej; [|done].
  apply find_matching_footer_some in Ej as [Hj _].
  destruct (Z.of_nat j >? be)%Z; [done|].
  apply IH. eapply drop_drop_eq; [done|lia].
Qed.

Lemma locate_spawn_blocks_within_ext lines lines' bs be :
  drop bs lines = drop bs lines' ->
  locate_spawn_blocks_within lines bs be = locate_spawn_blocks_within lines' bs be.
Proof. apply locate_loop_ext. Qed.

Lemma switch_region_eq mode lines u d :
  switch_region mode lines u d
  = do lines1 <- switch_opt lines (enabled_span mode u d) true;
    switch_opt lines1 (disabled_span mode u d) false.
Proof.
  unfold switch_region, enabled_span, disabled_span.
  by destruct (bool_decide (mode = lit "urdf")).
Qed.

Lemma switch_opt_spec lines sp enable bs be sfx :
  span_ok lines bs be sfx sp -> (be < Z.of_nat (length lines))%Z ->
  exists lines',
    switch_opt lines sp enable = Ret lines'
    /\ length lines' = length lines
    /\ (forall i, in_opt_span sp i ->
          lines' !! i = (if enable then uncomment_line else comment_line) <$> lines !! i)
    /\ (forall i, ~ in_opt_span sp i -> lines' !! i = lines !! i).
Proof.
  destruct sp as [[h f]|]; simpl.
  - intros (? & ? & ? & _) Hbe.
    apply (switch_spawn_block_spec lines (h, f) enable); simpl; lia.
  - intros _ _. exists lines. by split_and!.
Qed.

Lemma span_ok_range lines bs be sfx sp i :
  span_ok lines bs be sfx sp -> in_opt_span sp i -> bs <= i /\ (Z.of_nat i <= be)%Z.
Proof.
  destruct sp as [[h f]|]; [|done]. unfold in_span. simpl.
  intros (? & ? & ? & _) [? ?]. simpl in *. lia.
Qed.

Lemma spans_apart_not_both u d i :
  spans_apart u d -> in_opt_span u i -> in_opt_span d i -> False.
Proof.
  destruct u as [[h1 f1]|], d as [[h2 f2]|]; try done.
  unfold in_span. simpl. intros ? [? ?] [? ?]. simpl in *. lia.
Qed.

(** The two switches of a region: the enabled span is uncommented, the
    disabled span commented, and nothing else touched. *)
Lemma switch_region_spec mode lines bs be u d :
  (be < Z.of_nat (length lines))%Z ->
  span_ok lines bs be (lit "UrdfFileCfg") u ->
  span_ok lines bs be (lit "UsdFileCfg") d ->
  spans_apart u d ->
  exists lines',
    switch_region mode lines u d = Ret lines'
    /\ length lines' = length lines
    /\ (forall i, in_opt_span (enabled_span mode u d) i ->
          lines' !! i = uncomment_line <$> lines !! i)
    /\ (forall i, in_opt_span (disabled_span mode u d) i ->
          lines' !! i = comment_line <$> lines !! i)
    /\ (forall i, ~ (bs <= i /\ (Z.of_nat i <= be)%Z) -> lines' !! i = lines !! i)
    /\ (forall i, ~ in_opt_span (enabled_span mode u d) i ->
                  ~ in_opt_span (disabled_span mode u d) i -> lines' !! i = lines !! i).
Proof.
  intros Hbe Hu Hd Hud. rewrite switch_region_eq.
  assert (exists s1 s2,
            span_ok lines bs be s1 (enabled_span mode u d)
            /\ span_ok lines bs be s2 (disabled_span mode u d)
            /\ spans_apart (enabled_span mode u d) (disabled_span mode u d))
    as (s1 & s2 & He & Hdis & Hap).
  { unfold enabled_span, disabled_span.
    destruct (bool_decide (mode = lit "urdf")); do 2 eexists; split_and!; eauto.
    destruct u as [[? ?]|], d as [[? ?]|]; simpl in *; try done. lia. }
  destruct (switch_opt_spec lines _ true bs be s1 He Hbe)
    as (l1 & -> & Hl1 & Hin1 & Hout1). cbn [bind].
  assert (exists l2,
             switch_opt l1 (disabled_span mode u d) false = Ret l2
             /\ length l2 = length l1
             /\ (forall i, in_opt_span (disabled_span mode u d) i ->
                   l2 !! i = comment_line <$> l1 !! i)
             /\ (forall i, ~ in_opt_span (disabled_span mode u d) i ->
                   l2 !! i = l1 !! i)) as (l2 & -> & Hl2 & Hin2 & Hout2).
  { destruct (disabled_span mode u d) as [[h f]|] eqn:E.
    - simpl in Hdis. apply (switch_spawn_block_spec l1 (h, f) false); simpl; lia.
    - exists l1. by split_and!. }
  exists l2. split_and!; [done|lia| | | |].
  - intros i Hi. rewrite Hout2, Hin1; [done|done|].
    intros Hi'. eapply spans_apart_not_both; eauto.
  - intros i Hi. rewrite Hin2, Hout1; [done| |done].
    intros Hi'. eapply spans_apart_not_both; eauto.
  - intros i Hi. rewrite Hout2, Hout1; [done| |].
    + intros Hi'. apply Hi. apply (span_ok_range lines bs be s1 _ i He Hi').
    + intros Hi'. apply Hi. apply (span_ok_range lines bs be s2 _ i Hdis Hi').
  - intros i H1 H2. by rewrite Hout2, Hout1.
Qed.

Lemma patch_loop_step fuel mode lines i c us ds :
  patch_loop (S fuel) mode lines i c us ds =
    match lines !! i with
    | None => Ret (lines, c, us, ds)
    | Some ln =>
        if is_cfg_start ln then
          do (u, d) <- locate_spawn_blocks_within lines i (find_cfg_block_end lines i);
          do lines' <- switch_region mode lines u d;
          patch_loop fuel mode lines' (Z.to_nat (find_cfg_block_end lines i + 1))
                     (c + 1)%Z (us + seen u)%Z (ds + seen d)%Z
        else patch_loop fuel mode lines (S i) c us ds
    end.
Proof. reflexivity. Qed.

(** The orchestrator returns; it leaves the lines before its position as they
    are, keeps the number of lines, and in every region it visits from its
    position on it uncomments the enabled span and comments the disabled
    one.  [orig] is the document as loaded, [cur] the lines as switched so
    far: they agree from line [i] on. *)
Lemma patch_loop_spec mode orig fuel : forall cur i c us ds,
  length cur = length orig ->
  drop i cur = drop i orig ->
  length orig - i < fuel ->
  exists out c' us' ds',
    patch_loop fuel mode cur i c us ds = Ret (out, c', us', ds')
    /\ length out = length orig
    /\ (forall k, k < i -> out !! k = cur !! k)
    /\ (forall bs be u d,
          (bs, be) ∈ regions_from fuel orig i ->
          locate_spawn_blocks_within orig bs be = Ret (u, d) ->
          (forall k, in_opt_span (enabled_span mode u d) k ->
                     out !! k = uncomment_line <$> orig !! k)
          /\ (forall k, in_opt_span (disabled_span mode u d) k ->
                        out !! k = comment_line <$> orig !! k)).
Proof.
  induction fuel as [|fuel IH]; intros cur i c us ds Hlen Hdrop Hfuel; [lia|].
  rewrite patch_loop_step. cbn [regions_from].
  rewrite (drop_lookup cur orig i i Hdrop) by lia.
  destruct (orig !! i) as [ln|] eqn:El.
  2:{ exists cur, c, us, ds. split_and!; [done|done|done|].
      intros bs be u d Hin. by apply elem_of_nil in Hin. }
  assert (Hi : i < length orig) by by eapply lookup_lt_Some.
  destruct (is_cfg_start ln).
  - rewrite (find_cfg_block_end_ext cur orig i) by done.
    rewrite (locate_spawn_blocks_within_ext cur orig i) by done.
    pose proof (find_cfg_block_end_ge orig i Hi) as Hbe.
    set (be := find_cfg_block_end orig i) in *.
    destruct (locate_spawn_blocks_within_spans cur i be) as (u & d & Hloc & Hu & Hd & Hud);
      [lia|].
    rewrite (locate_spawn_blocks_within_ext cur orig i) in Hloc by done.
    rewrite Hloc. cbn [bind].
    destruct (switch_region_spec mode cur i be u d) as (cur' & -> & Hl' & Hen & Hdis & Hout & _);
      [lia|done|done|done|]. cbn [bind].
    destruct (IH cur' (Z.to_nat (be + 1)) (c + 1)%Z (us + seen u)%Z (ds + seen d)%Z)
      as (out & c' & us' & ds' & -> & Hlo & Hbefore & Hreg).
    { lia. }
    { apply drop_ext; [lia|]. intros k Hk. rewrite Hout by lia.
      apply (drop_lookup cur orig i k Hdrop). lia. }
    { lia. }
    exists out, c', us', ds'. split_and!; [done|done| |].
    + intros k Hk. rewrite Hbefore by lia. apply Hout. lia.
    + intros bs be' u' d' Hin Hloc'. apply elem_of_cons in Hin as [[= -> ->]|Hin].
      * rewrite Hloc in Hloc'. injection Hloc' as <- <-. split.
        -- intros k Hk.
           assert (i <= k /\ (Z.of_nat k <= be)%Z) as [? ?].
           { unfold enabled_span in Hk. destruct (bool_decide _);
               [apply (span_ok_range cur i be _ _ k Hu Hk)
               |apply (span_ok_range cur i be _ _ k Hd Hk)]. }
           rewrite Hbefore, Hen by (done || lia).
           by rewrite (drop_lookup cur orig i k Hdrop).
        -- intros k Hk.
           assert (i <= k /\ (Z.of_nat k <= be)%Z) as [? ?].
           { unfold disabled_span in Hk. destruct (bool_decide _);
               [apply (span_ok_range cur i be _ _ k Hd Hk)
               |apply (span_ok_range cur i be _ _ k Hu Hk)]. }
           rewrite Hbefore, Hdis by (done || lia).
           by rewrite (drop_lookup cur orig i k Hdrop).
      * apply (Hreg bs be' u' d' Hin Hloc').
  - destruct (IH cur (S i) c us ds) as (out & c' & us' & ds' & -> & Hlo & Hbefore & Hreg).
    { done. } { apply (drop_drop_eq cur orig i (S i) Hdrop). lia. } { lia. }
    exists out, c', us', ds'. split_and!; [done|done| |done].
    intros k Hk. apply Hbefore. lia.
Qed.

(** [patch_spawn_modes] always returns: no index is out of range and the fuel
    of its loop is never used up. *)
Lemma patch_spawn_modes_total src mode :
  exists out c us ds,
    patch_loop (S (length (splitlines src))) mode (splitlines src) 0 0%Z 0%Z 0%Z
    = Ret (out, c, us, ds)
    /\ patch_spawn_modes src mode = Ret (join out, c, us, ds).
Proof.
  destruct (patch_loop_spec mode (splitlines src) (S (length (splitlines src)))
              (splitlines src) 0 0%Z 0%Z 0%Z) as (out & c & us & ds & H & _);
    [done|done|lia|].
  exists out, c, us, ds. split; [done|]. unfold patch_spawn_modes. by rewrite H.
Qed.



(** ** The run as a whole *)

(** [main] on an existing file always exits with status 0: it raises no
    error, and rewrites the file exactly when the patched text differs from
    the text it read. *)
Lemma main_total content bak mode write_dirs no_backup values :
  exists out c us ds,
    patch_spawn_modes (read_text content) mode = Ret (out, c, us, ds)
    /\ main (Files (Some content) bak) mode write_dirs no_backup values
       = Ret (0%Z,
              let patched :=
                if write_dirs && negb (bool_decide (values = ∅))
                then replace_dir_assignments out values else out in
              if bool_decide (patched <> read_text content)
              then Files (Some patched)
                         (if no_backup then bak else Some (read_text content))
              else Files (Some content) bak).
Proof.
  unfold main. cbn [unitree_py unitree_py_bak].
  destruct (patch_spawn_modes_total (read_text content) mode)
    as (out & c & us & ds & _ & H).
  exists (join out), c, us, ds. split; [done|]. rewrite H. cbn [bind].
  by destruct (bool_decide (_ <> read_text content)).
Qed.

(** ** Line terminators *)

Lemma terminator_app2 x c d : terminator (x ++ [c; d]) = terminator [c; d].
Proof.
  unfold terminator. rewrite rev_app_distr. simpl.
  destruct (d =? LF)%N; [done|]. by destruct (is_linebreak d).
Qed.

Lemma terminator_app1 x c : c <> LF -> terminator (x ++ [c]) = terminator [c].
Proof.
  intros Hc. unfold terminator. rewrite rev_app_distr. simpl.
  apply N.eqb_neq in Hc. by rewrite Hc.
Qed.

Lemma terminator_app x y b :
  b <> [] -> b <> [LF] -> terminator (x ++ b) = terminator (y ++ b).
Proof.
  intros Hb1 Hb2. destruct (exists_last Hb1) as (b' & d & ->).
  destruct b' as [|c0 b0].
  - simpl. rewrite !terminator_app1; [done| |]; by intros ->.
  - assert (Hne : c0 :: b0 <> []) by done.
    destruct (exists_last Hne) as (b'' & c & ->).
    rewrite <- !app_assoc. simpl.
    by rewrite 2!app_assoc, !terminator_app2.
Qed.

(** [comment_line] keeps the terminator of every line. *)
Lemma comment_line_terminator s :
  single_line s = true -> terminator (comment_line s) = terminator s.
Proof.
  intros Hs. rewrite comment_line_spec by done.
  destruct (comment_spec_cases s) as [-> | [Hb ->]]; [done|].
  rewrite <- (take_drop_while is_blank s) at 3.
  change (take_while is_blank s ++ HASH :: SP :: drop_while is_blank s)
    with (take_while is_blank s ++ [HASH; SP] ++ drop_while is_blank s).
  rewrite app_assoc. apply terminator_app.
  - intros E. rewrite blank_line_spec in Hb.
    rewrite <- (take_drop_while is_blank s), E, app_nil_r in Hb.
    rewrite <- not_true_iff_false in Hb. apply Hb.
    apply forallb_forall. intros c Hc. apply is_blank_space.
    pose proof (take_while_all is_blank s) as Ha.
    rewrite forallb_forall in Ha. by apply Ha.
  - intros E. rewrite blank_line_spec in Hb.
    rewrite <- (take_drop_while is_blank s), E, forallb_app in Hb.
    rewrite <- not_true_iff_false in Hb. apply Hb.
    apply andb_true_iff. split; [|done].
    apply forallb_forall. intros c Hc. apply is_blank_space.
    pose proof (take_while_all is_blank s) as Ha.
    rewrite forallb_forall in Ha. by apply Ha.
Qed.

(** C6 fails for [uncomment_line]: the one whitespace character that may
    follow the marker can be the line's own terminator.  A line that holds
    the marker alone loses its newline, a marker before a carriage return and
    a newline loses the carriage return, and in a patched document the line
    is joined with the next one. *)
Theorem uncomment_line_eats_terminator :
  terminator (lit "    #" ++ [LF]) = [LF]
  /\ uncomment_line (lit "    #" ++ [LF]) = lit "    "
  /\ terminator (uncomment_line (lit "    #" ++ [LF])) = []
  /\ uncomment_line (lit "#" ++ [CR; LF]) = [LF]
  /\ patch_spawn_modes
       (lit "A_CFG = UnitreeArticulationCfg(" ++ [LF]
        ++ lit "    # spawn=UnitreeUrdfFileCfg(" ++ [LF]
        ++ lit "    #" ++ [LF]
        ++ lit "    #     a=1," ++ [LF]
        ++ lit "    # )," ++ [LF]
        ++ lit ")" ++ [LF])
       (lit "urdf")
     = Ret (lit "A_CFG = UnitreeArticulationCfg(" ++ [LF]
            ++ lit "    spawn=UnitreeUrdfFileCfg(" ++ [LF]
            ++ lit "            a=1," ++ [LF]
            ++ lit "    )," ++ [LF]
            ++ lit ")" ++ [LF], 1%Z, 1%Z, 0%Z).
Proof. split_and!; by vm_compute. Qed.


(** ** Every match the matcher returns is a match *)

(** A match takes [w] off the front and moves the position by its length. *)
Lemma matches_consumes r st w st' :
  matches r st w st' ->
  m_rest st = w ++ m_rest st' /\ m_pos st' = length w + m_pos st.
Proof.
  induction 1; simpl; try done.
  - split; [by apply startswith_true|done].
  - destruct IHmatches1 as [E1 E2], IHmatches2 as [E3 E4].
    rewrite E1, E3, E4, E2, <- app_assoc, length_app. split; [done|lia].
  - split; [by apply startswith_true|done].
Qed.

Lemma star_greedy_sound k p s : forall pos g res,
  star_greedy k p pos g s = Some res ->
  exists a b, s = a ++ b /\ forallb p a = true
              /\ k (MState (length a + pos) b g) = Some res.
Proof.
  induction s as [|c s IH]; intros pos g res H; simpl in H.
  - by exists [], [].
  - destruct (p c) eqn:Ec; [|by exists [], (c :: s)].
    destruct (star_greedy k p (S pos) g s) as [r|] eqn:E.
    + injection H as ->. apply IH in E as (a & b & -> & Ha & Hk).
      exists (c :: a), b. simpl. rewrite Ec, Ha. rewrite <- Nat.add_succ_r. done.
    + by exists [], (c :: s).
Qed.

Lemma star_lazy_sound k p s : forall pos g res,
  star_lazy k p pos g s = Some res ->
  exists a b, s = a ++ b /\ forallb p a = true
              /\ k (MState (length a + pos) b g) = Some res.
Proof.
  induction s as [|c s IH]; intros pos g res H; simpl in H.
  - destruct (k _) eqn:E; [|done]. injection H as ->. by exists [], [].
  - destruct (k _) eqn:E.
    { injection H as ->. by exists [], (c :: s). }
    destruct (p c) eqn:Ec; [|done].
    apply IH in H as (a & b & -> & Ha & Hk).
    exists (c :: a), b. simpl. rewrite Ec, Ha. rewrite <- Nat.add_succ_r. done.
Qed.

Theorem exec_sound r : forall k st res,
  exec r k st = Some res ->
  exists w st', matches r st w st' /\ k st' = Some res.
Proof.
  induction r as [ | | |p|v|a IHa b IHb|a IHa b IHb|a IHa|p|p|name a IHa|name];
    intros k st res H; cbn [exec] in H.
  - exists [], st. split; [constructor|done].
  - destruct (Nat.eqb_spec (m_pos st) 0); [|done].
    exists [], st. split; [by constructor|done].
  - destruct st as [pos rest g]. simpl in H.
    destruct rest as [|c [|]]; [| |done].
    + eexists [], _. split; [constructor; by left|done].
    + destruct (N.eqb_spec c LF) as [->|]; [|done].
      eexists [], _. split; [constructor; by right|done].
  - destruct st as [pos [|c s] g]; simpl in H; [done|].
    destruct (p c) eqn:Ec; [|done].
    eexists [c], _. split; [by constructor|done].
  - destruct (startswith v (m_rest st)) eqn:Es; [|done].
    exists v, (advance (length v) st). split; [by constructor|done].
  - apply IHa in H as (w1 & st1 & H1 & H). apply IHb in H as (w2 & st2 & H2 & H).
    exists (w1 ++ w2), st2. split; [by econstructor|done].
  - destruct (exec a k st) eqn:E.
    + injection H as ->. apply IHa in E as (w & st' & H1 & H).
      exists w, st'. split; [by apply M_AltL|done].
    + apply IHb in H as (w & st' & H1 & H).
      exists w, st'. split; [by apply M_AltR|done].
  - destruct (exec a k st) eqn:E.
    + injection H as ->. apply IHa in E as (w & st' & H1 & H).
      exists w, st'. split; [by apply M_OptSome|done].
    + exists [], st. split; [apply M_OptNone|done].
  - destruct st as [pos s g]. simpl in H.
    apply star_greedy_sound in H as (a & b & -> & Ha & Hk).
    eexists a, _. split; [by constructor|done].
  - destruct st as [pos s g]. simpl in H.
    apply star_lazy_sound in H as (a & b & -> & Ha & Hk).
    eexists a, _. split; [by constructor|done].
  - apply IHa in H as (w & st' & H1 & H).
    destruct (matches_consumes _ _ _ _ H1) as [Hr Hp].
    rewrite Hr, Hp in H.
    replace (length w + m_pos st - m_pos st) with (length w) in H by lia.
    rewrite take_app_length in H.
    exists w, (set_group name w st'). split; [by constructor|done].
  - destruct (assoc name (m_groups st)) as [v|] eqn:E; [|done].
    destruct (startswith v (m_rest st)) eqn:Es; [|done].
    exists v, (advance (length v) st). split; [by constructor|done].
Qed.

Lemma re_match_sound r s m :
  re_match r s = Some m -> exists w, matches r (MState 0 s []) w m.
Proof.
  intros H. apply exec_sound in H as (w & st' & H & [= ->]). by exists w.
Qed.

Ltac app_norm := repeat (progress (simpl; rewrite <- ?app_assoc)).

Ltac inv_one H :=
  inversion H; subst; clear H;
  cbn [m_rest m_pos m_groups set_group advance] in *; subst.

Ltac inv_matches :=
  repeat match goal with
    | H : matches (Seq _ _) _ _ _ |- _ => inv_one H
    | H : matches (Grp _ _) _ _ _ |- _ => inv_one H
    | H : matches (Alt _ _) _ _ _ |- _ => inv_one H
    | H : matches (Opt _) _ _ _ |- _ => inv_one H
    | H : matches (Chr _) _ _ _ |- _ => inv_one H
    | H : matches (Str _) _ _ _ |- _ => inv_one H
    | H : matches (Star _) _ _ _ |- _ => inv_one H
    | H : matches (Lazy _) _ _ _ |- _ => inv_one H
    | H : matches Bol _ _ _ |- _ => inv_one H
    | H : matches Eol _ _ _ |- _ => inv_one H
    | H : matches (Ref _) _ _ _ |- _ => inv_one H
    end.

Opaque lit.

Lemma startswith_split v s : startswith v s = true -> exists t, s = v ++ t.
Proof. intros H. exists (drop (length v) s). by apply startswith_true. Qed.

Lemma name_ros : lit "UNITREE_" ++ lit "ROS" ++ lit "_DIR" = lit "UNITREE_ROS_DIR".
Proof. by vm_compute. Qed.

Lemma name_model : lit "UNITREE_" ++ lit "MODEL" ++ lit "_DIR" = lit "UNITREE_MODEL_DIR".
Proof. by vm_compute. Qed.

Lemma is_quote_cases c :
  is_char SQUOTE c || is_char DQUOTE c = true -> c = SQUOTE \/ c = DQUOTE.
Proof. rewrite orb_true_iff, !is_char_true. tauto. Qed.

(** What a match of the directive pattern says about the line. *)
Lemma dir_assign_inv s m :
  re_match DIR_ASSIGN_RE s = Some m ->
  exists indent name mid q tail fin,
    s = indent ++ name ++ mid ++ [q] ++ tail ++ fin
    /\ forallb is_blank indent = true
    /\ (name = lit "UNITREE_ROS_DIR" \/ name = lit "UNITREE_MODEL_DIR")
    /\ (q = SQUOTE \/ q = DQUOTE)
    /\ tail_ok tail
    /\ (fin = [] \/ fin = [LF])
    /\ group_or_empty m "indent" = indent
    /\ group_or_empty m "name" = name
    /\ group_or_empty m "tail" = tail.
Proof.
  intros H. apply re_match_sound in H as (w & H).
  unfold DIR_ASSIGN_RE in H.
  inv_matches.
  all: repeat match goal with
         | H : startswith _ _ = true |- _ => apply startswith_split in H as [? ?]; subst
         | H : context [drop (length ?v) (?v ++ _)] |- _ =>
             rewrite (drop_app_length v) in H; subst
         | H : assoc _ _ = Some _ |- _ => vm_compute in H; injection H as <-
         end.
  all: rewrite ?app_nil_r.
  all: match goal with H : is_char SQUOTE _ || _ = true |- _ =>
         apply is_quote_cases in H end.
  - eexists w0, _, (w3 ++ c1 :: w5 ++ c0 :: w7), c0, (w10 ++ c :: w15), s3.
    split_and!; [|done|left; apply name_ros|done| |done|done|done|done].
    + by app_norm.
    + exists w10, (c :: w15). split_and!; [done|done|].
      right. exists w15. split; [|done]. by apply is_char_true in H0 as ->.
  - eexists w0, _, (w3 ++ c0 :: w5 ++ c :: w7), c, w10, s3.
    split_and!; [|done|left; apply name_ros|done| |done|done|done|done].
    + by app_norm.
    + exists w10, []. rewrite app_nil_r. split_and!; [done|done|by left].
  - eexists w0, _, (w3 ++ c1 :: w5 ++ c0 :: w7), c0, (w10 ++ c :: w15), s3.
    split_and!; [|done|right; apply name_model|done| |done|done|done|done].
    + by app_norm.
    + exists w10, (c :: w15). split_and!; [done|done|].
      right. exists w15. split; [|done]. by apply is_char_true in H0 as ->.
  - eexists w0, _, (w3 ++ c0 :: w5 ++ c :: w7), c, w10, s3.
    split_and!; [|done|right; apply name_model|done| |done|done|done|done].
    + by app_norm.
    + exists w10, []. rewrite app_nil_r. split_and!; [done|done|by left].
Qed.

Transparent lit.

(** ** The directive pattern on a directive line *)

Lemma take_while_app_nil (p : N -> bool) a :
  forallb p a = true -> take_while p a = a /\ drop_while p a = [].
Proof.
  intros Ha. induction a as [|c a IH]; [done|]. simpl in *.
  apply andb_true_iff in Ha as [-> Ha]. destruct (IH Ha) as [-> ->]. done.
Qed.

Lemma take_drop_while_run (p : N -> bool) a b :
  forallb p a = true ->
  match b with c :: _ => p c = false | [] => True end ->
  take_while p (a ++ b) = a /\ drop_while p (a ++ b) = b.
Proof.
  intros Ha Hb. destruct b as [|c b].
  - rewrite app_nil_r. by apply take_while_app_nil.
  - by rewrite take_while_app, drop_while_app.
Qed.

Lemma exec_star_app p k pos g a b r :
  forallb p a = true ->
  match b with c :: _ => p c = false | [] => True end ->
  k (MState (length a + pos) b g) = Some r ->
  exec (Star p) k (MState pos (a ++ b) g) = Some r.
Proof.
  intros Ha Hb Hk. apply exec_star_max.
  by destruct (take_drop_while_run p a b Ha Hb) as [-> ->].
Qed.

Lemma exec_grp_star_app name p k pos g a b r :
  forallb p a = true ->
  match b with c :: _ => p c = false | [] => True end ->
  k (MState (length a + pos) b ((name, a) :: g)) = Some r ->
  exec (Grp name (Star p)) k (MState pos (a ++ b) g) = Some r.
Proof.
  intros Ha Hb Hk. apply exec_grp_star_max.
  by destruct (take_drop_while_run p a b Ha Hb) as [-> ->].
Qed.

Lemma exec_grp_lazy_first name p k pos g a b r :
  forallb p a = true ->
  (forall i, i < length a ->
     k (MState (i + pos) (drop i a ++ b) ((name, take i a) :: g)) = None) ->
  k (MState (length a + pos) b ((name, a) :: g)) = Some r ->
  exec (Grp name (Lazy p)) k (MState pos (a ++ b) g) = Some r.
Proof.
  intros Ha Hfail Hk. rewrite exec_grp. cbn [exec m_pos m_rest m_groups].
  apply star_lazy_first; [done| |].
  - intros i Hi. cbn [set_group m_pos m_rest m_groups].
    replace (i + pos - pos) with i by lia.
    rewrite take_app_le by lia. by apply Hfail.
  - cbn [set_group m_pos m_rest m_groups].
    replace (length a + pos - pos) with (length a) by lia.
    by rewrite take_app_length.
Qed.

Lemma exec_grp_chr name p k pos g c s r :
  p c = true ->
  k (MState (S pos) s ((name, [c]) :: g)) = Some r ->
  exec (Grp name (Chr p)) k (MState pos (c :: s) g) = Some r.
Proof.
  intros Hc Hk. rewrite exec_grp, exec_chr, Hc.
  cbn [set_group m_pos m_rest m_groups].
  by replace (S pos - pos) with 1 by lia.
Qed.

Lemma exec_chr_ok p k pos g c s r :
  p c = true -> k (MState (S pos) s g) = Some r ->
  exec (Chr p) k (MState pos (c :: s) g) = Some r.
Proof. intros Hc Hk. by rewrite exec_chr, Hc. Qed.

Lemma take_app3 (a b c r : list N) :
  take (length (a ++ b ++ c)) (a ++ b ++ c ++ r) = a ++ b ++ c.
Proof.
  replace (a ++ b ++ c ++ r) with ((a ++ b ++ c) ++ r) by by rewrite <- !app_assoc.
  apply take_app_length.
Qed.

(** The name group on either name. *)
Lemma exec_name k name rest pos g r :
  name = lit "UNITREE_ROS_DIR" \/ name = lit "UNITREE_MODEL_DIR" ->
  k (MState (length name + pos) rest (("name"%string, name) :: g)) = Some r ->
  exec (Grp "name" (Str (lit "UNITREE_")
                    +> Alt (Str (lit "ROS")) (Str (lit "MODEL"))
                    +> Str (lit "_DIR")))%re
       k (MState pos (name ++ rest) g) = Some r.
Proof.
  intros Hn Hk. destruct Hn as [-> | ->].
  - rewrite <- name_ros in Hk |- *.
    rewrite exec_grp, !exec_seq. cbn [m_pos m_rest].
    rewrite <- !app_assoc, exec_str_app, exec_seq, exec_alt.
    rewrite !exec_str_app. cbn [set_group m_pos m_rest m_groups].
    rewrite !length_app in Hk.
    replace (length (lit "_DIR") + (length (lit "ROS") + (length (lit "UNITREE_") + pos)) - pos)
      with (length (lit "UNITREE_" ++ lit "ROS" ++ lit "_DIR"))
      by (rewrite !length_app; lia).
    rewrite take_app3.
    replace (length (lit "_DIR") + (length (lit "ROS") + (length (lit "UNITREE_") + pos)))
      with (length (lit "UNITREE_") + (length (lit "ROS") + length (lit "_DIR")) + pos) by lia.
    by rewrite Hk.
  - rewrite <- name_model in Hk |- *.
    rewrite exec_grp, !exec_seq. cbn [m_pos m_rest].
    rewrite <- !app_assoc, exec_str_app, exec_seq, exec_alt.
    replace (exec (Str (lit "ROS")) _ _) with (@None mstate) by by vm_compute.
    rewrite !exec_str_app. cbn [set_group m_pos m_rest m_groups].
    rewrite !length_app in Hk.
    replace (length (lit "_DIR") + (length (lit "MODEL") + (length (lit "UNITREE_") + pos)) - pos)
      with (length (lit "UNITREE_" ++ lit "MODEL" ++ lit "_DIR"))
      by (rewrite !length_app; lia).
    rewrite take_app3.
    replace (length (lit "_DIR") + (length (lit "MODEL") + (length (lit "UNITREE_") + pos)))
      with (length (lit "UNITREE_") + (length (lit "MODEL") + length (lit "_DIR")) + pos) by lia.
    by rewrite Hk.
Qed.

Lemma take_all_add (a : list N) n m : m = length a + n -> take (m - n) a = a.
Proof. intros ->. apply firstn_all2. lia. Qed.

(** The tail group and the end of the pattern. *)
Lemma exec_tail k sp cmt pos g r :
  forallb is_blank sp = true ->
  (cmt = [] \/ exists t, cmt = HASH :: t /\ forallb is_dot t = true) ->
  k (MState (length (sp ++ cmt) + pos) []
       (("tail"%string, sp ++ cmt) :: opt6 cmt ++ g)) = Some r ->
  exec (Grp "tail" (Star is_blank
                    +> Opt (Grp "6" (Chr (is_char HASH) +> Star is_dot)))
        +> Eol)%re
       k (MState pos (sp ++ cmt) g) = Some r.
Proof.
  intros Hsp Hc Hk. rewrite exec_seq, exec_grp, exec_seq.
  cbn [m_pos m_rest m_groups].
  apply exec_star_app; [done| |].
  { destruct Hc as [-> | (t & -> & _)]; done. }
  rewrite exec_opt. destruct Hc as [-> | (t & -> & Ht)].
  - rewrite exec_grp, exec_seq, exec_chr_nil.
    cbn [set_group m_pos m_rest m_groups]. rewrite exec_eol_nil.
    rewrite app_nil_r in *. simpl in Hk.
    by rewrite take_all_add.
  - rewrite exec_grp, exec_seq, exec_chr. cbn [m_pos m_rest m_groups].
    unfold is_char at 1. rewrite N.eqb_refl.
    rewrite <- (app_nil_r t) at 1.
    erewrite exec_star_app; [done|done|done|].
    cbn [set_group m_pos m_rest m_groups]. rewrite exec_eol_nil.
    rewrite length_app in Hk. simpl in Hk.
    rewrite (take_all_add (HASH :: t)) by (simpl; lia).
    rewrite (take_all_add (sp ++ HASH :: t)) by (rewrite length_app; simpl; lia).
    by replace (length t + S (length sp + pos)) with (length sp + S (length t) + pos) by lia.
Qed.

Lemma forallb_head_false (p : N -> bool) s c t :
  forallb (fun x => negb (p x)) s = true -> p c = true ->
  forall i, i < length s -> startswith [c] (drop i s ++ t) = false.
Proof.
  intros Hs Hc i Hi.
  destruct (drop_run_head _ _ _ Hs Hi) as (d & s' & -> & Hd).
  simpl. rewrite andb_true_r. apply N.eqb_neq. intros ->. by rewrite Hc in Hd.
Qed.

Lemma exec_ref name k pos s g v :
  assoc name g = Some v ->
  exec (Ref name) k (MState pos s g)
  = if startswith v s
    then k (MState (length v + pos) (drop (length v) s) g) else None.
Proof. intros H. cbn [exec m_groups m_rest advance m_pos]. by rewrite H. Qed.

(** What the directive pattern captures on a directive line. *)
Lemma dir_assign_match indent name ws1 ws2 q old sp cmt :
  forallb is_blank indent = true ->
  name = lit "UNITREE_ROS_DIR" \/ name = lit "UNITREE_MODEL_DIR" ->
  forallb is_space ws1 = true -> forallb is_space ws2 = true ->
  q = SQUOTE \/ q = DQUOTE ->
  forallb is_dot old = true ->
  forallb (fun c => negb (is_char q c)) old = true ->
  forallb is_blank sp = true ->
  (cmt = [] \/ exists t, cmt = HASH :: t /\ forallb is_dot t = true) ->
  exists m,
    re_match DIR_ASSIGN_RE
      (indent ++ name ++ ws1 ++ [EQUALS] ++ ws2 ++ [q] ++ old ++ [q] ++ sp ++ cmt)
    = Some m
    /\ group_or_empty m "indent" = indent
    /\ group_or_empty m "name" = name
    /\ group_or_empty m "tail" = sp ++ cmt.
Proof.
  intros Hi Hn H1 H2 Hq Ho Hoq Hsp Hc.
  eexists. split.
  - unfold re_match, DIR_ASSIGN_RE. rewrite exec_seq, exec_bol, exec_seq.
    apply exec_grp_star_app; [done| |].
    { destruct Hn as [-> | ->]; by vm_compute. }
    rewrite exec_seq. apply exec_name; [done|].
    rewrite exec_seq. apply exec_star_app; [done|done|].
    rewrite exec_seq. apply exec_chr_ok; [done|].
    rewrite exec_seq. apply exec_star_app; [done| |].
    { destruct Hq as [-> | ->]; done. }
    rewrite exec_seq. apply exec_grp_chr.
    { destruct Hq as [-> | ->]; done. }
    rewrite exec_seq. apply exec_grp_lazy_first; [done| |].
    + intros i Hlt. rewrite exec_seq.
      rewrite (exec_ref "q" _ _ _ _ [q]) by reflexivity.
      erewrite forallb_head_false; [done|exact Hoq| |done].
      apply N.eqb_refl.
    + rewrite exec_seq.
      rewrite (exec_ref "q" _ _ _ _ [q]) by reflexivity.
      change ([q] ++ sp ++ cmt) with (q :: sp ++ cmt).
      cbn [startswith]. rewrite N.eqb_refl. cbn [andb length drop].
      apply exec_tail; [done|done|reflexivity].
  - destruct Hc as [-> | (t & -> & _)]; cbn; split_and!; reflexivity.
Qed.


(** ** Directive assignments *)

Lemma rstrip_nl_snoc s : rstrip_nl (s ++ [LF]) = rstrip_nl s.
Proof. unfold rstrip_nl. by rewrite rev_app_distr. Qed.

Lemma rstrip_nl_keep s c : c <> LF -> rstrip_nl (s ++ [c]) = s ++ [c].
Proof.
  intros Hc. unfold rstrip_nl. rewrite rev_app_distr. simpl.
  apply is_char_false in Hc. rewrite Hc. simpl. by rewrite rev_involutive.
Qed.

(** A line is what [rstrip("\n")] leaves of it, followed by newlines. *)
Lemma rstrip_nl_split s :
  exists t, s = rstrip_nl s ++ t /\ forallb (is_char LF) t = true.
Proof.
  exists (rev (take_while (is_char LF) (rev s))). split.
  - unfold rstrip_nl. rewrite <- rev_app_distr, take_drop_while.
    by rewrite rev_involutive.
  - rewrite forallb_rev. apply take_while_all.
Qed.

Lemma rstrip_nl_dot s nl :
  s <> [] -> forallb is_dot s = true -> nl = [] \/ nl = [LF] ->
  rstrip_nl (s ++ nl) = s.
Proof.
  intros Hs Hd Hnl. destruct (exists_last Hs) as (s' & c & ->).
  rewrite forallb_app in Hd. apply andb_true_iff in Hd as [_ Hc].
  simpl in Hc. rewrite andb_true_r in Hc. apply is_dot_true in Hc.
  destruct Hnl as [-> | ->].
  - rewrite app_nil_r. by apply rstrip_nl_keep.
  - rewrite rstrip_nl_snoc. by apply rstrip_nl_keep.
Qed.

Lemma rstrip_nl_app s1 s2 nl :
  s2 <> [] -> forallb is_dot s2 = true -> nl = [] \/ nl = [LF] ->
  rstrip_nl (s1 ++ s2 ++ nl) = s1 ++ s2.
Proof.
  intros Hs Hd Hnl. destruct (exists_last Hs) as (s' & c & ->).
  rewrite forallb_app in Hd. apply andb_true_iff in Hd as [_ Hc].
  simpl in Hc. rewrite andb_true_r in Hc. apply is_dot_true in Hc.
  rewrite !app_assoc. destruct Hnl as [-> | ->].
  - rewrite app_nil_r. by apply rstrip_nl_keep.
  - rewrite rstrip_nl_snoc. by apply rstrip_nl_keep.
Qed.

Lemma tail_ok_dot tail : tail_ok tail -> forallb is_dot tail = true.
Proof.
  intros (sp & cmt & -> & Hsp & Hc). rewrite forallb_app.
  apply andb_true_iff. split; [by apply blank_is_dot|].
  destruct Hc as [-> | (t & -> & Ht)]; [done|]. simpl. by rewrite Ht.
Qed.

Lemma replace_dir_line_unmatched values ln :
  dir_line_matches values ln = false -> replace_dir_line values ln = ln.
Proof.
  unfold dir_line_matches, replace_dir_line.
  destruct (re_match DIR_ASSIGN_RE (rstrip_nl ln)) as [m|]; [|done].
  intros H. apply bool_decide_eq_false in H.
  destruct (values !! group_or_empty m "name") as [v|] eqn:E; [|done].
  destruct H. by exists v.
Qed.

(** What a rewritten line looks like. *)
Lemma replace_dir_line_matched values ln :
  dir_line_matches values ln = true ->
  exists indent name mid q tail fin v,
    rstrip_nl ln = indent ++ name ++ mid ++ [q] ++ tail ++ fin
    /\ forallb is_blank indent = true
    /\ (q = SQUOTE \/ q = DQUOTE)
    /\ tail_ok tail
    /\ (fin = [] \/ fin = [LF])
    /\ values !! name = Some v
    /\ replace_dir_line values ln
       = indent ++ name ++ lit " = " ++ [DQUOTE] ++ v ++ [DQUOTE] ++ tail ++ [LF].
Proof.
  unfold dir_line_matches, replace_dir_line.
  destruct (re_match DIR_ASSIGN_RE (rstrip_nl ln)) as [m|] eqn:Em; [|done].
  intros H. apply bool_decide_eq_true in H as [v Hv].
  apply dir_assign_inv in Em
    as (indent & name & mid & q & tail & fin & Hs & Hi & Hn & Hq & Ht & Hf & <- & <- & <-).
  rewrite Hv. exists (group_or_empty m "indent"), (group_or_empty m "name"), mid, q,
    (group_or_empty m "tail"), fin, v. by split_and!.
Qed.

(** C9: a directive line (indentation, one of the two names, an equals
    sign between optional whitespace, a quoted value that does not hold its
    own quote character, then optional spaces and tabs and an optional
    inline comment, with or without a final newline) whose name has a new
    value is rewritten to the indentation, the name, [ = ], the new value in
    double quotes, and the original spaces, tabs and inline comment; a line
    in which no patched name follows the leading spaces and tabs is left
    untouched; the document is rewritten line by line. *)
Theorem replace_dir_line_directive (values : gmap str str) :
  (forall indent name ws1 ws2 q old sp cmt nl new,
      forallb is_blank indent = true ->
      name = lit "UNITREE_ROS_DIR" \/ name = lit "UNITREE_MODEL_DIR" ->
      forallb is_space ws1 = true -> forallb is_space ws2 = true ->
      q = SQUOTE \/ q = DQUOTE ->
      forallb is_dot old = true ->
      forallb (fun c => negb (is_char q c)) old = true ->
      forallb is_blank sp = true ->
      (cmt = [] \/ exists t, cmt = HASH :: t /\ forallb is_dot t = true) ->
      nl = [] \/ nl = [LF] ->
      values !! name = Some new ->
      replace_dir_line values
        (indent ++ name ++ ws1 ++ [EQUALS] ++ ws2 ++ [q] ++ old ++ [q] ++ sp ++ cmt ++ nl)
      = indent ++ name ++ lit " = " ++ [DQUOTE] ++ new ++ [DQUOTE] ++ sp ++ cmt ++ [LF])
  /\ (forall ln,
        (forall indent name rest,
            ln = indent ++ name ++ rest -> forallb is_blank indent = true ->
            values !! name = None) ->
        replace_dir_line values ln = ln)
  /\ (forall src,
        replace_dir_assignments src values
        = join (map (replace_dir_line values) (splitlines src))).
Proof.
  split_and!.
  - intros indent name ws1 ws2 q old sp cmt nl new Hi Hn H1 H2 Hq Ho Hoq Hsp Hc Hnl Hv.
    destruct (dir_assign_match indent name ws1 ws2 q old sp cmt)
      as (m & Hm & Gi & Gn & Gt); try done.
    unfold replace_dir_line.
    replace (rstrip_nl _)
      with (indent ++ name ++ ws1 ++ [EQUALS] ++ ws2 ++ [q] ++ old ++ [q] ++ sp ++ cmt).
    { by rewrite Hm, Gn, Hv, Gi, Gt, <- app_assoc. }
    symmetry.
    replace (indent ++ name ++ ws1 ++ [EQUALS] ++ ws2 ++ [q] ++ old ++ [q] ++ sp ++ cmt ++ nl)
      with ((indent ++ name ++ ws1 ++ [EQUALS] ++ ws2 ++ [q] ++ old)
              ++ ([q] ++ sp ++ cmt) ++ nl) by by rewrite <- !app_assoc.
    rewrite rstrip_nl_app; [by rewrite <- !app_assoc|done| |done].
    rewrite !forallb_app. apply andb_true_iff. split.
    { destruct Hq as [-> | ->]; done. }
    apply andb_true_iff. split; [by apply blank_is_dot|].
    destruct Hc as [-> | (t & -> & Ht)]; [done|]. simpl. by rewrite Ht.
  - intros ln Hno. destruct (dir_line_matches values ln) eqn:E.
    + apply replace_dir_line_matched in E
        as (indent & name & mid & q & tail & fin & v & Hs & Hi & _ & _ & _ & Hv & _).
      destruct (rstrip_nl_split ln) as (t & Hln & _).
      rewrite Hs in Hln.
      rewrite (Hno indent name ((mid ++ [q] ++ tail ++ fin) ++ t)) in Hv; [done| |done].
      rewrite Hln. by rewrite <- !app_assoc.
    + by apply replace_dir_line_unmatched.
  - reflexivity.
Qed.

Lemma replace_dir_line_directive_witness :
  replace_dir_line {[ lit "UNITREE_ROS_DIR" := lit "/opt/unitree_ros" ]}
    ([SP; SP] ++ lit "UNITREE_ROS_DIR" ++ [SP] ++ [EQUALS] ++ [SP] ++ [DQUOTE]
     ++ lit "old" ++ [DQUOTE] ++ [SP; SP] ++ lit "# where the robots live" ++ [LF])
  = [SP; SP] ++ lit "UNITREE_ROS_DIR" ++ lit " = " ++ [DQUOTE]
    ++ lit "/opt/unitree_ros" ++ [DQUOTE] ++ [SP; SP]
    ++ lit "# where the robots live" ++ [LF].
Proof.
  apply (proj1 (replace_dir_line_directive
                  {[ lit "UNITREE_ROS_DIR" := lit "/opt/unitree_ros" ]})
               [SP; SP] (lit "UNITREE_ROS_DIR") [SP] [SP] DQUOTE (lit "old") [SP; SP]
               (lit "# where the robots live") [LF] (lit "/opt/unitree_ros"));
    try reflexivity.
  - by left.
  - by right.
  - right. by exists (lit " where the robots live").
  - by right.
Defined.

(** A rewritten line ends with a double quote or with its tail, then the
    newline. *)
Lemma ends_with_one_newline (x tail : str) :
  forallb is_dot tail = true ->
  exists body c, x ++ [DQUOTE] ++ tail ++ [LF] = body ++ [c; LF] /\ c <> LF.
Proof.
  intros Ht. assert (Hne : [DQUOTE] ++ tail <> []) by done.
  destruct (exists_last Hne) as (y & c & Hy).
  exists (x ++ y), c. split.
  - rewrite (app_assoc [DQUOTE]), Hy, <- !app_assoc. done.
  - assert (Hd : forallb is_dot ([DQUOTE] ++ tail) = true) by (simpl; by rewrite Ht).
    rewrite Hy, forallb_app in Hd. apply andb_true_iff in Hd as [_ Hd].
    simpl in Hd. rewrite andb_true_r in Hd. by apply is_dot_true.
Qed.

(** C10, as amended: a line that the directive pattern matches under a
    patched name is emitted ending with exactly one newline, whatever its
    own terminator was (a last line with no newline gains one); any other
    line is left as it is.  A directive line terminated by a carriage
    return and a newline that holds no marker never matches and is left
    unchanged; with a trailing inline comment it does match, the comment
    taking the carriage return, and is rewritten with both characters
    kept. *)
Theorem replace_dir_line_newline (values : gmap str str) (ln : str) :
  (dir_line_matches values ln = true ->
   exists body c, replace_dir_line values ln = body ++ [c; LF] /\ c <> LF)
  /\ (dir_line_matches values ln = false -> replace_dir_line values ln = ln)
  /\ (forall body,
        ln = body ++ [CR; LF] -> HASH ∉ body ->
        dir_line_matches values ln = false /\ replace_dir_line values ln = ln)
  /\ (forall indent name ws1 ws2 q old sp t new,
        ln = indent ++ name ++ ws1 ++ [EQUALS] ++ ws2 ++ [q] ++ old ++ [q] ++ sp
             ++ (HASH :: t ++ [CR]) ++ [LF] ->
        forallb is_blank indent = true ->
        name = lit "UNITREE_ROS_DIR" \/ name = lit "UNITREE_MODEL_DIR" ->
        forallb is_space ws1 = true -> forallb is_space ws2 = true ->
        q = SQUOTE \/ q = DQUOTE ->
        forallb is_dot old = true ->
        forallb (fun c => negb (is_char q c)) old = true ->
        forallb is_blank sp = true -> forallb is_dot t = true ->
        values !! name = Some new ->
        replace_dir_line values ln
        = indent ++ name ++ lit " = " ++ [DQUOTE] ++ new ++ [DQUOTE] ++ sp
          ++ (HASH :: t ++ [CR]) ++ [LF]).
Proof.
  split_and!.
  - intros H. apply replace_dir_line_matched in H
      as (indent & name & mid & q & tail & fin & v & _ & _ & _ & Ht & _ & _ & ->).
    apply tail_ok_dot in Ht.
    destruct (ends_with_one_newline (indent ++ name ++ lit " = " ++ [DQUOTE] ++ v) tail Ht)
      as (body & c & Hb & Hc).
    exists body, c. split; [|done]. rewrite <- Hb. by rewrite <- !app_assoc.
  - apply replace_dir_line_unmatched.
  - intros body -> Hbody.
    assert (Hm : dir_line_matches values (body ++ [CR; LF]) = false).
    { destruct (dir_line_matches values (body ++ [CR; LF])) eqn:E; [|done].
      exfalso. apply replace_dir_line_matched in E
        as (indent & name & mid & q & tail & fin & v & Hs & _ & Hq & Ht & Hf & _ & _).
      change (body ++ [CR; LF]) with (body ++ [CR] ++ [LF]) in Hs.
      rewrite app_assoc, rstrip_nl_snoc, rstrip_nl_keep in Hs by done.
      destruct Hf as [-> | ->].
      2:{ rewrite !app_assoc in Hs. by apply app_inj_tail in Hs as [_ ?]. }
      rewrite app_nil_r in Hs.
      destruct Ht as (sp & cmt & -> & Hsp & [-> | (t & -> & _)]).
      - rewrite app_nil_r in Hs. destruct sp as [|c0 sp0] using rev_ind.
        + rewrite app_nil_r, !app_assoc in Hs. apply app_inj_tail in Hs as [_ <-].
          by destruct Hq.
        + rewrite forallb_app in Hsp. apply andb_true_iff in Hsp as [_ Hc].
          rewrite !app_assoc in Hs. apply app_inj_tail in Hs as [_ <-]. done.
      - apply Hbody.
        assert (Hin : HASH ∈ body ++ [CR]).
        { rewrite Hs. rewrite !elem_of_app. do 4 right. right. left. }
        apply elem_of_app in Hin as [?|Hin]; [done|].
        by apply list_elem_of_singleton in Hin. }
    split; [done|]. by apply replace_dir_line_unmatched.
  - intros indent name ws1 ws2 q old sp t new -> Hi Hn H1 H2 Hq Ho Hoq Hsp Ht Hv.
    apply (proj1 (replace_dir_line_directive values)); try done.
    + right. exists (t ++ [CR]). split; [done|]. rewrite forallb_app, Ht. done.
    + by right.
Qed.

Lemma replace_dir_line_newline_witness :
  exists body c,
    replace_dir_line {[ lit "UNITREE_ROS_DIR" := lit "/opt/unitree_ros" ]}
      (lit "UNITREE_ROS_DIR = 'old'") = body ++ [c; LF] /\ c <> LF.
Proof.
  apply (proj1 (replace_dir_line_newline
                  {[ lit "UNITREE_ROS_DIR" := lit "/opt/unitree_ros" ]}
                  (lit "UNITREE_ROS_DIR = 'old'"))).
  by vm_compute.
Defined.

(** C10 as stated fails: a directive line that ends with a carriage return
    and a newline does match when it carries an inline comment, and is
    rewritten. *)
Lemma crlf_directive_with_comment_matches :
  dir_line_matches {[ lit "UNITREE_ROS_DIR" := lit "/opt/unitree_ros" ]}
    (lit "UNITREE_ROS_DIR = 'old' # c" ++ [CR; LF]) = true
  /\ replace_dir_line {[ lit "UNITREE_ROS_DIR" := lit "/opt/unitree_ros" ]}
       (lit "UNITREE_ROS_DIR = 'old' # c" ++ [CR; LF])
     = lit "UNITREE_ROS_DIR = " ++ [DQUOTE] ++ lit "/opt/unitree_ros" ++ [DQUOTE]
       ++ lit " # c" ++ [CR; LF]
  /\ replace_dir_line {[ lit "UNITREE_ROS_DIR" := lit "/opt/unitree_ros" ]}
       (lit "UNITREE_ROS_DIR = 'old' # c" ++ [CR; LF])
     <> lit "UNITREE_ROS_DIR = 'old' # c" ++ [CR; LF].
Proof. split_and!; by vm_compute. Qed.


(** ** Lines of a text *)

Lemma splitlines_from_nil cur :
  splitlines_from cur [] = match cur with [] => [] | _ => [cur] end.
Proof. reflexivity. Qed.

Lemma splitlines_from_cons cur c s :
  splitlines_from cur (c :: s) =
    if (c =? CR)%N then
      match s with
      | c2 :: s'' =>
          if (c2 =? LF)%N then (cur ++ [CR; LF]) :: splitlines_from [] s''
          else (cur ++ [CR]) :: splitlines_from [] s
      | [] => [cur ++ [CR]]
      end
    else if is_linebreak c then (cur ++ [c]) :: splitlines_from [] s
    else splitlines_from (cur ++ [c]) s.
Proof. by destruct s. Qed.

(** The lines of a text, joined, are the text. *)
Lemma join_splitlines_from n : forall s cur,
  length s <= n -> join (splitlines_from cur s) = cur ++ s.
Proof.
  unfold join. induction n as [|n IH]; intros s cur Hn.
  - destruct s; [|simpl in Hn; lia]. rewrite splitlines_from_nil.
    destruct cur; simpl; [done|]. by rewrite !app_nil_r.
  - destruct s as [|c s].
    { rewrite splitlines_from_nil. destruct cur; simpl; [done|]. by rewrite !app_nil_r. }
    simpl in Hn. rewrite splitlines_from_cons. destruct (c =? CR)%N eqn:Ec.
    + apply N.eqb_eq in Ec as ->. destruct s as [|c2 s].
      { simpl. by rewrite app_nil_r. }
      destruct (c2 =? LF)%N eqn:E2.
      * apply N.eqb_eq in E2 as ->. cbn [concat].
        rewrite (IH s []) by (simpl in Hn; lia). by rewrite <- app_assoc.
      * cbn [concat]. rewrite (IH (c2 :: s) []) by lia. by rewrite <- app_assoc.
    + destruct (is_linebreak c).
      * cbn [concat]. rewrite (IH s []) by lia. by rewrite <- app_assoc.
      * rewrite (IH s (cur ++ [c])) by lia. by rewrite <- app_assoc.
Qed.

Lemma join_splitlines s : join (splitlines s) = s.
Proof. unfold splitlines. by rewrite (join_splitlines_from (length s)). Qed.

(** Every element of [splitlines] is a line. *)
Lemma single_line_snoc cur c :
  forallb is_dot cur = true -> single_line (cur ++ [c]) = true.
Proof. intros H. rewrite single_line_app by done. simpl. by destruct (c =? LF)%N. Qed.

Lemma single_line_dot cur : forallb is_dot cur = true -> single_line cur = true.
Proof.
  intros H. rewrite <- (app_nil_r cur). by rewrite single_line_app.
Qed.

Lemma splitlines_from_single n : forall s cur,
  length s <= n -> forallb is_dot cur = true ->
  Forall (fun ln => single_line ln = true) (splitlines_from cur s).
Proof.
  induction n as [|n IH]; intros s cur Hn Hcur.
  - destruct s; [|simpl in Hn; lia]. rewrite splitlines_from_nil. destruct cur; [done|].
    constructor; [|done]. by apply single_line_dot.
  - destruct s as [|c s].
    { rewrite splitlines_from_nil. destruct cur; [done|].
      constructor; [|done]. by apply single_line_dot. }
    simpl in Hn. rewrite splitlines_from_cons. destruct (c =? CR)%N eqn:Ec.
    + destruct s as [|c2 s].
      { constructor; [|done]. by apply single_line_snoc. }
      destruct (c2 =? LF)%N eqn:E2.
      * constructor; [|apply IH; [simpl in Hn; lia|done]].
        rewrite single_line_app by done. done.
      * constructor; [|apply IH; [lia|done]]. by apply single_line_snoc.
    + destruct (is_linebreak c) eqn:El.
      * constructor; [|apply IH; [lia|done]]. by apply single_line_snoc.
      * apply IH; [lia|]. rewrite forallb_app, Hcur. simpl. rewrite andb_true_r.
        apply is_dot_true. intros ->. done.
Qed.

Lemma splitlines_single s :
  Forall (fun ln => single_line ln = true) (splitlines s).
Proof. by apply (splitlines_from_single (length s)). Qed.

(** ** A run that changes nothing *)

Lemma switch_from_id (f : str -> str) n : forall (lines : list str) k,
  k + n <= length lines ->
  (forall i ln, k <= i < k + n -> lines !! i = Some ln -> f ln = ln) ->
  switch_from f lines k n = Ret lines.
Proof.
  induction n as [|n IH]; intros lines k Hk Hf; [done|].
  cbn [switch_from]. unfold getitem.
  destruct (lines !! k) as [ln|] eqn:E.
  2:{ apply lookup_ge_None in E. lia. }
  cbn [bind]. rewrite (Hf k ln) by (done || lia).
  rewrite list_insert_id by done. apply IH; [lia|].
  intros i l Hi. apply Hf. lia.
Qed.

Lemma switch_opt_id lines sp (enable : bool) bs be sfx :
  span_ok lines bs be sfx sp -> (be < Z.of_nat (length lines))%Z ->
  (forall i ln, in_opt_span sp i -> lines !! i = Some ln ->
                (if enable then uncomment_line else comment_line) ln = ln) ->
  switch_opt lines sp enable = Ret lines.
Proof.
  destruct sp as [[h f]|]; [|done]. cbn [switch_opt switch_spawn_block span_ok].
  intros (? & ? & ? & _) Hbe Hfix. apply switch_from_id; [lia|].
  intros i ln Hi. apply Hfix. unfold in_opt_span, in_span. simpl. lia.
Qed.

Lemma span_ok_enabled_disabled mode lines bs be u d :
  span_ok lines bs be (lit "UrdfFileCfg") u ->
  span_ok lines bs be (lit "UsdFileCfg") d ->
  exists s1 s2,
    span_ok lines bs be s1 (enabled_span mode u d)
    /\ span_ok lines bs be s2 (disabled_span mode u d).
Proof.
  intros Hu Hd. unfold enabled_span, disabled_span.
  destruct (bool_decide (mode = lit "urdf")); eauto.
Qed.

(** The orchestrator leaves the lines as they are when, in every region it
    visits, the lines of the span to enable are fixed points of
    [uncomment_line] and those of the span to disable are fixed points of
    [comment_line]. *)
Lemma patch_loop_id mode lines fuel : forall i c us ds,
  length lines - i < fuel ->
  (forall bs be u d,
      (bs, be) ∈ regions_from fuel lines i ->
      locate_spawn_blocks_within lines bs be = Ret (u, d) ->
      (forall k ln, in_opt_span (enabled_span mode u d) k ->
                    lines !! k = Some ln -> uncomment_line ln = ln)
      /\ (forall k ln, in_opt_span (disabled_span mode u d) k ->
                       lines !! k = Some ln -> comment_line ln = ln)) ->
  exists c' us' ds', patch_loop fuel mode lines i c us ds = Ret (lines, c', us', ds').
Proof.
  induction fuel as [|fuel IH]; intros i c us ds Hfuel Hfix; [lia|].
  rewrite patch_loop_step. cbn [regions_from] in Hfix.
  destruct (lines !! i) as [ln|] eqn:El; [|by exists c, us, ds].
  assert (Hi : i < length lines) by by eapply lookup_lt_Some.
  destruct (is_cfg_start ln).
  - pose proof (find_cfg_block_end_ge lines i Hi) as Hbe.
    set (be := find_cfg_block_end lines i) in *.
    destruct (locate_spawn_blocks_within_spans lines i be) as (u & d & Hloc & Hu & Hd & Hud);
      [lia|].
    rewrite Hloc. cbn [bind].
    destruct (Hfix i be u d) as [Hen Hdis]; [by left|done|].
    destruct (span_ok_enabled_disabled mode lines i be u d Hu Hd) as (s1 & s2 & H1 & H2).
    rewrite switch_region_eq.
    rewrite (switch_opt_id lines _ true i be s1) by (done || lia). cbn [bind].
    rewrite (switch_opt_id lines _ false i be s2) by (done || lia). cbn [bind].
    apply IH; [lia|]. intros bs be' u' d' Hin. apply Hfix. by right.
  - apply IH; [lia|]. done.
Qed.

Lemma patch_spawn_modes_id src mode :
  (forall bs be u d,
      (bs, be) ∈ regions (splitlines src) ->
      locate_spawn_blocks_within (splitlines src) bs be = Ret (u, d) ->
      (forall k ln, in_opt_span (enabled_span mode u d) k ->
                    splitlines src !! k = Some ln -> uncomment_line ln = ln)
      /\ (forall k ln, in_opt_span (disabled_span mode u d) k ->
                       splitlines src !! k = Some ln -> comment_line ln = ln)) ->
  exists c us ds, patch_spawn_modes src mode = Ret (src, c, us, ds).
Proof.
  intros Hfix.
  destruct (patch_loop_id mode (splitlines src) (S (length (splitlines src)))
              0 0%Z 0%Z 0%Z) as (c & us & ds & H); [lia|done|].
  exists c, us, ds. unfold patch_spawn_modes. rewrite H. cbn [bind].
  by rewrite join_splitlines.
Qed.

(** C3 as stated fails: the second run uncomments the enabled span once
    more, and a comment inside it loses its marker. *)
Lemma patch_twice_differs :
  patch_spawn_modes
    (lit "A_CFG = UnitreeArticulationCfg(" ++ [LF]
     ++ lit "    # spawn=UnitreeUrdfFileCfg(" ++ [LF]
     ++ lit "    #     # fix_base=False," ++ [LF]
     ++ lit "    # )," ++ [LF]
     ++ lit ")" ++ [LF])
    (lit "urdf")
  = Ret (lit "A_CFG = UnitreeArticulationCfg(" ++ [LF]
         ++ lit "    spawn=UnitreeUrdfFileCfg(" ++ [LF]
         ++ lit "        # fix_base=False," ++ [LF]
         ++ lit "    )," ++ [LF]
         ++ lit ")" ++ [LF], 1%Z, 1%Z, 0%Z)
  /\ patch_spawn_modes
       (lit "A_CFG = UnitreeArticulationCfg(" ++ [LF]
        ++ lit "    spawn=UnitreeUrdfFileCfg(" ++ [LF]
        ++ lit "        # fix_base=False," ++ [LF]
        ++ lit "    )," ++ [LF]
        ++ lit ")" ++ [LF])
       (lit "urdf")
     = Ret (lit "A_CFG = UnitreeArticulationCfg(" ++ [LF]
            ++ lit "    spawn=UnitreeUrdfFileCfg(" ++ [LF]
            ++ lit "        fix_base=False," ++ [LF]
            ++ lit "    )," ++ [LF]
            ++ lit ")" ++ [LF], 1%Z, 1%Z, 0%Z).
Proof. split; by vm_compute. Qed.


(** ** The header and footer patterns as list functions *)

(** Trailing whitespace up to the end of the subject. *)
Lemma exec_space_eol pos s g :
  exec (Star is_space +> Eol)%re Some (MState pos s g)
  = if forallb is_space s then Some (MState (length s + pos) [] g) else None.
Proof.
  rewrite exec_seq. destruct (forallb is_space s) eqn:E.
  - apply exec_star_max. destruct (take_while_app_nil is_space s E) as [-> ->].
    by rewrite exec_eol_nil.
  - destruct (exec (Star is_space) (exec Eol Some) (MState pos s g)) as [r|] eqn:Ex;
      [|done].
    exfalso. rewrite <- exec_seq in Ex. apply exec_sound in Ex as (w & st' & H & _).
    inv_matches.
    match goal with H : forallb is_space ?w = true |- _ => rename H into Hw end.
    rewrite forallb_app, Hw in E.
    match goal with H : _ = [] \/ _ = [LF] |- _ => destruct H as [-> | ->] end; done.
Qed.

Lemma fails_after_space_chr q a k :
  (forall c, is_space c = true -> q c = false) ->
  fails_after is_space (exec (Chr q +> a) k).
Proof. apply fails_after_chr. Qed.

Lemma space_not c a : a <> HASH -> is_space a = false -> is_space c = true -> is_char a c = false.
Proof. intros _ Ha Hc. apply is_char_false. intros ->. by rewrite Ha in Hc. Qed.

Lemma matched_is_Some o : bool_decide (is_Some o) = matched o.
Proof.
  by destruct o.
Qed.

Lemma matched_or o1 o2 :
  matched (match o1 with Some r => Some r | None => o2 end) = matched o1 || matched o2.
Proof. by destruct o1. Qed.

(** The footer pattern from the closing parenthesis on. *)
Lemma footer_rest_exec pos b g :
  matched (exec (Chr (is_char RPAREN) +> Star is_space +> Chr (is_char COMMA)
                 +> Star is_space +> Eol)%re Some (MState pos b g))
  = footer_rest b.
Proof.
  destruct b as [|c t]; [done|]. rewrite exec_seq, exec_chr. cbn [footer_rest].
  unfold is_char at 1. destruct (c =? RPAREN)%N; [|done]. cbn [andb].
  rewrite exec_seq, exec_star_only.
  2:{ apply fails_after_chr. intros a Ha. apply is_char_false. by intros ->. }
  destruct (drop_while is_space t) as [|c2 t2]; [done|].
  rewrite exec_seq, exec_chr. unfold is_char at 1.
  destruct (c2 =? COMMA)%N; [|done]. cbn [andb].
  rewrite exec_space_eol. by destruct (forallb is_space t2).
Qed.

(** The head common to the header and footer patterns: indentation, then
    an optional marker with its whitespace, then a pattern [rest] that can
    start neither with whitespace nor with the marker. *)
Lemma commentable_exec rest s :
  (forall k, fails_after is_space (exec rest k)) ->
  (forall k pos t g, exec rest k (MState pos (HASH :: t) g) = None) ->
  exists pos g,
    re_match (Bol +> Grp "indent" (Star is_blank)
              +> Opt (Grp "prefix" (Chr (is_char HASH) +> Star is_space))
              +> rest)%re s
    = exec rest Some (MState pos (core s) g).
Proof.
  intros Hsp Hhash. unfold re_match.
  rewrite exec_seq, exec_bol, exec_seq, exec_grp_star_only.
  2:{ intros pos c t g Hc. rewrite exec_seq, exec_opt, exec_grp, exec_seq, exec_chr.
      apply is_blank_not_hash in Hc as Hh. apply is_char_false in Hh. rewrite Hh.
      apply Hsp. by apply is_blank_space. }
  unfold core. destruct (drop_while is_blank s) as [|c t].
  - rewrite exec_seq, exec_opt, exec_grp, exec_seq, exec_chr_nil.
    do 2 eexists. reflexivity.
  - rewrite exec_seq, exec_opt, exec_grp, exec_seq, exec_chr. unfold is_char at 1.
    destruct (c =? HASH)%N eqn:Ec.
    2:{ do 2 eexists. reflexivity. }
    apply N.eqb_eq in Ec. subst c.
    rewrite exec_star_only.
    2:{ intros pos a t' g Ha. cbn beta. apply Hsp. done. }
    rewrite Hhash. cbn [set_group m_pos m_rest m_groups].
    match goal with
    | |- context [exec rest Some (MState ?p ?r ?g)] =>
        exists p, g; by destruct (exec rest Some (MState p r g))
    end.
Qed.

(** [is_footer] is the footer pattern on the core of the line. *)
Lemma is_footer_spec ln : is_footer ln = footer_rest (core (rstrip_nl ln)).
Proof.
  unfold is_footer. rewrite matched_is_Some. unfold SPAWN_FOOTER_ANY_RE.
  destruct (commentable_exec
              (Chr (is_char RPAREN) +> Star is_space +> Chr (is_char COMMA)
               +> Star is_space +> Eol)%re (rstrip_nl ln)) as (pos & g & ->).
  - intros k pos c t g Hc. rewrite exec_seq, exec_chr.
    replace (is_char RPAREN c) with false; [done|].
    symmetry. apply is_char_false. by intros ->.
  - intros k pos t g. by rewrite exec_seq, exec_chr.
  - apply footer_rest_exec.
Qed.

Lemma exec_str v k pos s g :
  exec (Str v) k (MState pos s g)
  = match strip_prefix v s with
    | Some t => k (MState (length v + pos) t g)
    | None => None
    end.
Proof. unfold strip_prefix. cbn [exec m_rest advance m_pos m_groups]. by destruct (startswith v s). Qed.

Lemma strip_prefix_some v s t : strip_prefix v s = Some t -> s = v ++ t.
Proof.
  unfold strip_prefix. destruct (startswith v s) eqn:E; [|done].
  intros [= <-]. by apply startswith_true.
Qed.

Lemma strip_prefix_app v t : strip_prefix v (v ++ t) = Some t.
Proof. unfold strip_prefix. by rewrite startswith_app, drop_app_length. Qed.

Lemma strip_urdf_not_usd s t :
  strip_prefix (lit "Urdf") s = Some t -> strip_prefix (lit "Usd") s = None.
Proof. intros ->%strip_prefix_some. by vm_compute. Qed.

(** The end of the header pattern. *)
Lemma header_end_exec pos t g :
  matched (exec (Star is_space +> Chr (is_char LPAREN) +> Star is_space +> Eol)%re
                Some (MState pos t g))
  = header_end t.
Proof.
  rewrite exec_seq, exec_star_only.
  2:{ apply fails_after_chr. intros a Ha. apply is_char_false. by intros ->. }
  unfold header_end. destruct (drop_while is_space t) as [|c t']; [done|].
  rewrite exec_seq, exec_chr. unfold is_char at 1.
  destruct (c =? LPAREN)%N; [|done]. cbn [andb].
  rewrite exec_space_eol. by destruct (forallb is_space t').
Qed.

(** The header pattern matches from [spawn] on exactly when [header_rest]
    finds a kind. *)
Lemma header_rest_matched pos b g :
  matched (exec HEADER_REST Some (MState pos b g))
  = match header_rest b with Some _ => true | None => false end.
Proof.
  unfold HEADER_REST, header_rest. rewrite exec_seq, exec_str.
  destruct (strip_prefix (lit "spawn") b) as [t1|]; [|done].
  rewrite exec_seq, exec_star_only.
  2:{ apply fails_after_chr. intros a Ha. apply is_char_false. by intros ->. }
  destruct (drop_while is_space t1) as [|c t2]; [done|].
  rewrite exec_seq, exec_chr. unfold is_char at 1.
  destruct (c =? EQUALS)%N; [|done].
  rewrite exec_seq, exec_star_only.
  2:{ intros p a t' g' Ha. rewrite exec_seq, exec_grp, exec_seq, exec_str.
      replace (strip_prefix _ _) with (@None (list N)); [done|].
      unfold strip_prefix. cbn [m_rest].
      replace (startswith (lit "Unitree") (a :: t')) with false; [done|].
      symmetry. change (lit "Unitree") with (85%N :: lit "nitree"). cbn [startswith].
      apply andb_false_iff. left. apply N.eqb_neq. by intros ->. }
  rewrite exec_seq, exec_grp, exec_seq, exec_str. cbn [m_rest m_pos m_groups].
  destruct (strip_prefix (lit "Unitree") (drop_while is_space t2)) as [t3|]; [|done].
  rewrite exec_seq, exec_alt, matched_or, !exec_str.
  destruct (strip_prefix (lit "Urdf") t3) as [t4|] eqn:E4.
  - rewrite (strip_urdf_not_usd _ _ E4). cbn [matched]. rewrite orb_false_r.
    rewrite exec_str.
    destruct (strip_prefix (lit "FileCfg") t4) as [t5|]; [|done].
    cbn [set_group m_pos m_rest m_groups]. rewrite header_end_exec.
    by destruct (header_end t5).
  - cbn [matched orb].
    destruct (strip_prefix (lit "Usd") t3) as [t4|]; [|done].
    rewrite exec_str.
    destruct (strip_prefix (lit "FileCfg") t4) as [t5|]; [|done].
    cbn [set_group m_pos m_rest m_groups]. rewrite header_end_exec.
    by destruct (header_end t5).
Qed.

Lemma drop_while_space_unitree ws t :
  forallb is_space ws = true ->
  drop_while is_space (ws ++ lit "Unitree" ++ t) = lit "Unitree" ++ t.
Proof. intros H. by apply (drop_while_app is_space ws 85%N). Qed.

Opaque lit.

Lemma drop_while_space_app ws c t :
  forallb is_space ws = true -> is_space c = false ->
  drop_while is_space (ws ++ c :: t) = c :: t.
Proof. apply drop_while_app. Qed.

Lemma kind_urdf : lit "Unitree" ++ lit "Urdf" ++ lit "FileCfg" = lit "UnitreeUrdfFileCfg".
Proof. by vm_compute. Qed.

Lemma kind_usd : lit "Unitree" ++ lit "Usd" ++ lit "FileCfg" = lit "UnitreeUsdFileCfg".
Proof. by vm_compute. Qed.

Lemma strip_urdf_usd t : strip_prefix (lit "Urdf") (lit "Usd" ++ t) = None.
Proof. by vm_compute. Qed.

(** The kind captured by a match is the one [header_rest] names. *)
Lemma header_rest_kind pos b g m :
  exec HEADER_REST Some (MState pos b g) = Some m ->
  header_rest b = Some (group_or_empty m "kind").
Proof.
  intros H. apply exec_sound in H as (w & st' & H & [= ->]).
  unfold HEADER_REST in H. inv_matches.
  all: repeat match goal with
         | H : startswith _ _ = true |- _ => apply startswith_split in H as [? ?]; subst
         | H : context [drop (length ?v) (?v ++ _)] |- _ =>
             rewrite (drop_app_length v) in H; subst
         | H : is_char _ _ = true |- _ => apply is_char_true in H; subst
         end.
  all: unfold header_rest, header_end.
  all: rewrite ?strip_prefix_app, ?strip_urdf_usd.
  all: rewrite drop_while_space_app by (assumption || reflexivity).
  all: rewrite N.eqb_refl.
  all: rewrite drop_while_space_unitree by assumption.
  all: rewrite ?strip_prefix_app, ?strip_urdf_usd.
  all: rewrite ?strip_prefix_app.
  all: rewrite drop_while_space_app by (assumption || reflexivity).
  all: rewrite N.eqb_refl; cbn [andb].
  all: match goal with
       | Hw : forallb is_space ?w = true, Hf : ?s = [] \/ ?s = [LF]
         |- context [forallb is_space (?w ++ ?s)] =>
           replace (forallb is_space (w ++ s)) with true
             by (rewrite forallb_app, Hw; by destruct Hf as [-> | ->])
       end.
  - cbn. by rewrite kind_urdf.
  - cbn. by rewrite kind_usd.
Qed.

Transparent lit.

(** [header_kind] is the header pattern on the core of the line. *)
Lemma header_kind_spec ln : header_kind ln = header_rest (core (rstrip_nl ln)).
Proof.
  unfold header_kind.
  change SPAWN_HEADER_ANY_RE
    with (Bol +> Grp "indent" (Star is_blank)
          +> Opt (Grp "prefix" (Chr (is_char HASH) +> Star is_space))
          +> HEADER_REST)%re.
  destruct (commentable_exec HEADER_REST (rstrip_nl ln)) as (pos & g & ->).
  - intros k pos c t g Hc. unfold HEADER_REST. rewrite exec_seq, exec_str.
    replace (strip_prefix _ _) with (@None (list N)); [done|].
    unfold strip_prefix.
    replace (startswith (lit "spawn") (c :: t)) with false; [done|].
    symmetry. change (lit "spawn") with (115%N :: lit "pawn"). cbn [startswith].
    apply andb_false_iff. left. apply N.eqb_neq. by intros ->.
  - intros k pos t g. unfold HEADER_REST. by rewrite exec_seq, exec_str.
  - pose proof (header_rest_matched pos (core (rstrip_nl ln)) g) as Hm.
    destruct (exec HEADER_REST Some _) as [m|] eqn:E.
    + by rewrite (header_rest_kind _ _ _ _ E).
    + simpl in Hm. by destruct (header_rest _).
Qed.


(** ** A region start is no header *)

Opaque lit.

Lemma cfg_start_inv s m :
  re_match CFG_START_RE s = Some m ->
  exists indent c t,
    s = indent ++ c :: t /\ forallb is_blank indent = true
    /\ is_upper_digit_us c = true.
Proof.
  intros H. apply re_match_sound in H as (w & H).
  unfold CFG_START_RE, Plus in H. inv_matches.
  eexists _, _, _. split; [reflexivity|]. done.
Qed.

Transparent lit.

Lemma is_cfg_start_not_header ln : is_cfg_start ln = true -> header_kind ln = None.
Proof.
  unfold is_cfg_start. intros H. apply bool_decide_eq_true in H as [m Hm].
  apply cfg_start_inv in Hm as (indent & c & t & Hs & Hi & Hc).
  rewrite header_kind_spec, Hs. unfold core.
  assert (Hb : is_blank c = false).
  { destruct (is_blank c) eqn:E; [|done].
    unfold is_blank in E. apply orb_true_iff in E. rewrite !N.eqb_eq in E.
    by destruct E as [-> | ->]. }
  rewrite drop_while_app by done.
  destruct (c =? HASH)%N eqn:Eh.
  { apply N.eqb_eq in Eh as ->. done. }
  unfold header_rest, strip_prefix.
  replace (startswith (lit "spawn") (c :: t)) with false; [done|].
  symmetry. change (lit "spawn") with (115%N :: lit "pawn"). cbn [startswith].
  apply andb_false_iff. left. apply N.eqb_neq. by intros ->.
Qed.

(** ** Counting parentheses *)

Lemma count_parens_app st a b :
  count_parens st (a ++ b) = count_parens (count_parens st a) b.
Proof. unfold count_parens. apply fold_left_app. Qed.

Lemma count_parens_skip st c s :
  c <> LPAREN -> c <> RPAREN -> count_parens st (c :: s) = count_parens st s.
Proof.
  intros H1 H2. unfold count_parens. simpl. destruct st as [depth started].
  apply N.eqb_neq in H1, H2. by rewrite H1, H2.
Qed.

Lemma count_parens_skip1 st s :
  count_parens st (skip1 is_space s) = count_parens st s.
Proof.
  destruct s as [|c s]; [done|]. simpl. destruct (is_space c) eqn:E; [|done].
  symmetry. apply count_parens_skip; by intros ->.
Qed.

Lemma count_parens_comment st ln :
  single_line ln = true -> count_parens st (comment_line ln) = count_parens st ln.
Proof.
  intros Hs. rewrite comment_line_spec by done.
  destruct (comment_spec_cases ln) as [-> | [_ ->]]; [done|].
  pose proof (take_drop_while is_blank ln) as E.
  set (a := take_while is_blank ln) in *. set (b := drop_while is_blank ln) in *.
  rewrite <- E, !count_parens_app. by rewrite !count_parens_skip.
Qed.

Lemma count_parens_uncomment st ln :
  single_line ln = true -> count_parens st (uncomment_line ln) = count_parens st ln.
Proof.
  intros Hs. rewrite uncomment_line_spec by done.
  destruct (uncomment_spec_cases ln) as [-> | (t & Et & ->)]; [done|].
  pose proof (take_drop_while is_blank ln) as E. rewrite Et in E.
  set (a := take_while is_blank ln) in *.
  rewrite <- E, !count_parens_app, count_parens_skip1. by rewrite count_parens_skip.
Qed.

Lemma count_parens_switched st ln ln' :
  single_line ln = true -> switched ln ln' ->
  count_parens st ln' = count_parens st ln.
Proof.
  intros Hs [-> | [-> | [-> _]]];
    [done | by apply count_parens_comment | by apply count_parens_uncomment].
Qed.

(** ** Lines of a plain text under the comment toggle *)

Lemma single_line_split s :
  single_line s = true ->
  exists body nl, s = body ++ nl /\ forallb is_dot body = true /\ (nl = [] \/ nl = [LF]).
Proof.
  induction s as [|c s IH]; intros Hs.
  - exists [], []. by split_and!; [|  |left].
  - simpl in Hs. destruct (c =? LF)%N eqn:Ec.
    + apply N.eqb_eq in Ec as ->. apply bool_decide_eq_true in Hs as ->.
      exists [], [LF]. split_and!; [done|done|by right].
    + destruct (IH Hs) as (body & nl & -> & Hb & Hnl).
      exists (c :: body), nl. split_and!; [done| |done].
      simpl. rewrite Hb, andb_true_r. unfold is_dot. by rewrite Ec.
Qed.

Lemma take_while_dot_app a x :
  forallb is_dot a = true -> take_while is_dot (a ++ x) = a ++ take_while is_dot x.
Proof.
  intros Ha. induction a as [|c a IH]; [done|]. simpl in *.
  apply andb_true_iff in Ha as [-> Ha]. by rewrite IH.
Qed.

(** On a line, [rstrip("\n")] leaves what precedes the newline. *)
Lemma rstrip_nl_single s : single_line s = true -> rstrip_nl s = take_while is_dot s.
Proof.
  intros (body & nl & -> & Hb & Hnl)%single_line_split.
  rewrite take_while_dot_app by done.
  replace (take_while is_dot nl) with (@nil N) by by destruct Hnl as [-> | ->].
  rewrite app_nil_r. destruct body as [|c body].
  - by destruct Hnl as [-> | ->].
  - by apply rstrip_nl_dot.
Qed.

Lemma drop_while_blank_app a x :
  forallb is_blank a = true -> drop_while is_blank (a ++ x) = drop_while is_blank x.
Proof.
  intros Ha. induction a as [|c a IH]; [done|]. simpl in *.
  apply andb_true_iff in Ha as [-> Ha]. auto.
Qed.

Lemma plain_text_app a b : plain_text (a ++ b) = plain_text a && plain_text b.
Proof. apply forallb_app. Qed.

Lemma plain_space c s :
  plain_text (c :: s) = true -> is_space c = true -> is_blank c = true \/ c = LF.
Proof.
  simpl. intros [H _]%andb_true_iff Hc. rewrite Hc in H. simpl in H.
  apply orb_true_iff in H as [?|?%N.eqb_eq]; auto.
Qed.

Lemma plain_text_tail c s : plain_text (c :: s) = true -> plain_text s = true.
Proof. simpl. by intros [_ ?]%andb_true_iff. Qed.

Lemma plain_take_while p s : plain_text s = true -> plain_text (take_while p s) = true.
Proof.
  induction s as [|c s IH]; [done|]. simpl. intros [Hc Hs]%andb_true_iff.
  destruct (p c); [|done]. simpl. by rewrite Hc, IH.
Qed.

Lemma plain_drop_while p s : plain_text s = true -> plain_text (drop_while p s) = true.
Proof.
  induction s as [|c s IH]; [done|]. intros H. simpl.
  destruct (p c); [|done]. apply IH. by eapply plain_text_tail.
Qed.

(** Before the newline of a plain line, whitespace is spaces and tabs. *)
Lemma drop_while_space_dot s :
  plain_text s = true ->
  drop_while is_space (take_while is_dot s) = drop_while is_blank (take_while is_dot s).
Proof.
  induction s as [|c s IH]; [done|]. intros H. simpl.
  destruct (is_dot c) eqn:Ed; [|done]. simpl.
  destruct (is_space c) eqn:Es.
  - destruct (plain_space _ _ H Es) as [Hb | ->]; [|done].
    rewrite Hb. apply IH. by eapply plain_text_tail.
  - destruct (is_blank c) eqn:Eb; [|done].
    apply is_blank_space in Eb. by rewrite Eb in Es.
Qed.

Lemma take_while_dot_drop_blank s :
  take_while is_dot (drop_while is_blank s) = drop_while is_blank (take_while is_dot s).
Proof.
  induction s as [|c s IH]; [done|]. simpl.
  destruct (is_blank c) eqn:Eb.
  - assert (is_dot c = true) as -> by by apply is_dot_true, is_blank_not_LF.
    simpl. by rewrite Eb.
  - simpl. destruct (is_dot c); simpl; by rewrite ?Eb.
Qed.

Lemma core_dot_blank s :
  core (take_while is_dot s)
  = match drop_while is_blank (take_while is_dot s) with
    | c :: t => if (c =? HASH)%N then drop_while is_space t else c :: t
    | [] => []
    end.
Proof. reflexivity. Qed.

Lemma take_while_blank_space s : forallb is_space (take_while is_blank s) = true.
Proof.
  apply forallb_forall. intros x Hx. apply is_blank_space.
  pose proof (take_while_all is_blank s) as Ha.
  rewrite forallb_forall in Ha. by apply Ha.
Qed.

(** The shape of a commented line of a plain text, with what made it one. *)
Lemma comment_plain_cases s :
  single_line s = true -> plain_text s = true ->
  comment_line s = s
  \/ exists c b,
       drop_while is_blank s = c :: b /\ c <> HASH /\ is_space c = false
       /\ comment_line s = take_while is_blank s ++ HASH :: SP :: c :: b.
Proof.
  intros Hs Hp. rewrite comment_line_spec by done. unfold comment_spec.
  destruct (blank_line s) eqn:Eb; [by left|].
  destruct (startswith _ _) eqn:Es; [by left|]. right.
  rewrite blank_line_spec in Eb.
  pose proof (take_drop_while is_blank s) as Hsplit.
  pose proof (drop_while_hd is_blank s) as Hhd.
  pose proof (single_line_drop_while is_blank s Hs) as Hsb.
  pose proof (plain_drop_while is_blank s Hp) as Hpb.
  destruct (drop_while is_blank s) as [|c b].
  { rewrite app_nil_r in Hsplit. rewrite <- Hsplit, take_while_blank_space in Eb. done. }
  assert (Hsp : is_space c = false).
  { destruct (is_space c) eqn:E; [|done].
    destruct (plain_space _ _ Hpb E) as [Hb | ->]; [by rewrite Hb in Hhd|].
    simpl in Hsb. apply bool_decide_eq_true in Hsb as ->.
    rewrite <- Hsplit, forallb_app, take_while_blank_space in Eb. done. }
  exists c, b. split_and!; [done| |done|].
  - intros ->. rewrite split_nl_cons in Es by done. done.
  - by rewrite split_nl_app.
Qed.

Lemma core_app_blank a x :
  forallb is_blank a = true -> core (a ++ x) = core x.
Proof. intros Ha. unfold core. by rewrite drop_while_blank_app. Qed.

(** Commenting a line of a plain text keeps its core. *)
Lemma core_comment ln :
  single_line ln = true -> plain_text ln = true ->
  core (rstrip_nl (comment_line ln)) = core (rstrip_nl ln).
Proof.
  intros Hs Hp.
  rewrite !rstrip_nl_single by (done || by apply single_line_comment_line).
  destruct (comment_plain_cases ln Hs Hp) as [-> | (c & b & Eb & Hh & Hsp & ->)]; [done|].
  pose proof (take_drop_while is_blank ln) as Hsplit. rewrite Eb in Hsplit.
  rewrite <- Hsplit at 2.
  assert (Hd : is_dot c = true).
  { apply is_dot_true. intros ->. done. }
  rewrite !take_while_dot_app by apply take_while_dot.
  rewrite !core_app_blank by apply take_while_all.
  cbn [take_while]. rewrite Hd.
  change (is_dot HASH) with true. change (is_dot SP) with true. cbn iota.
  unfold core. cbn [drop_while].
  change (is_blank HASH) with false. cbn iota.
  change (HASH =? HASH)%N with true. cbn iota.
  cbn [drop_while]. change (is_space SP) with true. cbn iota. rewrite Hsp.
  destruct (is_blank c) eqn:Ebl.
  { apply is_blank_space in Ebl. by rewrite Ebl in Hsp. }
  apply N.eqb_neq in Hh. by rewrite Hh.
Qed.

Lemma drop_while_space_skip1 t :
  single_line t = true ->
  drop_while is_space (take_while is_dot (skip1 is_space t))
  = drop_while is_space (take_while is_dot t).
Proof.
  intros Hs. destruct t as [|c r]; [done|]. simpl.
  destruct (is_space c) eqn:Ec; [|done].
  destruct (is_dot c) eqn:Ed.
  - simpl. by rewrite Ec.
  - unfold is_dot in Ed. apply negb_false_iff, N.eqb_eq in Ed as ->.
    simpl in Hs. apply bool_decide_eq_true in Hs as ->. done.
Qed.

Lemma marker_once_spec ln c t :
  single_line ln = true ->
  drop_while is_blank ln = c :: t -> c = HASH -> marker_once ln = true ->
  exists c' r, drop_while is_blank (skip1 is_space t) = c' :: r /\ c' <> HASH
               /\ uncomment_line ln = take_while is_blank ln ++ skip1 is_space t.
Proof.
  intros Hs Eb -> Hm. unfold marker_once in Hm.
  rewrite uncomment_line_spec in * by done.
  destruct (uncomment_spec_cases ln) as [E | (t' & Et & E)].
  - rewrite E, Eb in Hm. done.
  - rewrite Eb in Et. injection Et as <-. rewrite E in *.
    rewrite drop_while_blank_app in Hm by apply take_while_all.
    destruct (drop_while is_blank (skip1 is_space t)) as [|c' r]; [done|].
    exists c', r. split_and!; [done| |done].
    intros ->. done.
Qed.

(** Uncommenting a line of a plain text keeps its core, when no marker
    follows the one that is stripped. *)
Lemma core_uncomment ln :
  single_line ln = true -> plain_text ln = true -> marker_once ln = true ->
  core (rstrip_nl (uncomment_line ln)) = core (rstrip_nl ln).
Proof.
  intros Hs Hp Hm.
  rewrite !rstrip_nl_single by (done || by apply single_line_uncomment_line).
  pose proof (take_drop_while is_blank ln) as Hsplit.
  pose proof (single_line_drop_while is_blank ln Hs) as Hsb.
  pose proof (plain_drop_while is_blank ln Hp) as Hpb.
  destruct (drop_while is_blank ln) as [|c t] eqn:Eb.
  { rewrite uncomment_line_spec by done. unfold uncomment_spec. rewrite Eb.
    by destruct (blank_line ln). }
  destruct (N.eqb_spec c HASH) as [Hc|Hc].
  2:{ rewrite uncomment_line_spec by done. unfold uncomment_spec. rewrite Eb.
      apply N.eqb_neq in Hc. rewrite Hc. by destruct (blank_line ln). }
  destruct (marker_once_spec ln c t Hs Eb Hc Hm) as (c' & r & Er & Hc' & ->).
  subst c. rewrite <- Hsplit at 2.
  rewrite !take_while_dot_app by apply take_while_dot.
  rewrite !core_app_blank by apply take_while_all.
  assert (Hst : single_line t = true) by by eapply single_line_tail.
  assert (Hpt : plain_text t = true) by by eapply plain_text_tail.
  cbn [take_while]. change (is_dot HASH) with true. cbn iota.
  unfold core at 2. cbn [drop_while]. change (is_blank HASH) with false. cbn iota.
  change (HASH =? HASH)%N with true. cbn iota.
  rewrite <- (drop_while_space_skip1 t Hst).
  assert (Hps : plain_text (skip1 is_space t) = true).
  { destruct t as [|x t']; [done|]. simpl. destruct (is_space x); [|done].
    by eapply plain_text_tail. }
  rewrite (drop_while_space_dot _ Hps).
  rewrite core_dot_blank, <- take_while_dot_drop_blank, Er.
  cbn [take_while]. destruct (is_dot c'); [|done].
  apply N.eqb_neq in Hc'. by rewrite Hc'.
Qed.

Lemma is_footer_switched ln ln' :
  single_line ln = true -> plain_text ln = true -> switched ln ln' ->
  is_footer ln' = is_footer ln.
Proof.
  intros Hs Hp Hsw. rewrite !is_footer_spec.
  destruct Hsw as [-> | [-> | [-> Hm]]];
    [done | by rewrite core_comment | by rewrite core_uncomment].
Qed.

Lemma header_kind_switched ln ln' :
  single_line ln = true -> plain_text ln = true -> switched ln ln' ->
  header_kind ln' = header_kind ln.
Proof.
  intros Hs Hp Hsw. rewrite !header_kind_spec.
  destruct Hsw as [-> | [-> | [-> Hm]]];
    [done | by rewrite core_comment | by rewrite core_uncomment].
Qed.

Lemma ends_lf_suffix a y : ends_lf (a ++ y) -> y <> [] -> ends_lf y.
Proof.
  intros [b Hb] Hy. destruct (exists_last Hy) as (y' & d & ->).
  rewrite app_assoc in Hb. apply app_inj_tail in Hb as [_ ->]. by exists y'.
Qed.

Lemma ends_lf_app a y : ends_lf y -> ends_lf (a ++ y).
Proof. intros [b ->]. exists (a ++ b). by rewrite app_assoc. Qed.

Lemma plain_skip1 t : plain_text t = true -> plain_text (skip1 is_space t) = true.
Proof.
  destruct t as [|x t']; [done|]. intros H. unfold skip1.
  destruct (is_space x); [|done]. by eapply plain_text_tail.
Qed.

(** The orchestrator leaves a line of a plain text a line of a plain text,
    ending with a newline if it did. *)
Lemma plain_line_switched ln ln' :
  plain_line ln -> switched ln ln' ->
  plain_line ln' /\ (ends_lf ln -> ends_lf ln').
Proof.
  intros (Hne & Hs & Hp) Hsw.
  pose proof (take_drop_while is_blank ln) as Hsplit.
  pose proof (plain_take_while is_blank ln Hp) as Hpa.
  pose proof (plain_drop_while is_blank ln Hp) as Hpb.
  destruct Hsw as [-> | [-> | [-> Hm]]]; [done| |].
  - destruct (comment_plain_cases ln Hs Hp) as [-> | (c & b & Eb & Hh & Hsp & E)]; [done|].
    split.
    + split_and!.
      * rewrite E. by destruct (take_while is_blank ln).
      * by apply single_line_comment_line.
      * rewrite E, plain_text_app, Hpa. rewrite Eb in Hpb. simpl in *. done.
    + intros Hlf. rewrite E. apply ends_lf_app.
      change (HASH :: SP :: c :: b) with ([HASH; SP] ++ c :: b). apply ends_lf_app.
      rewrite <- Hsplit, Eb in Hlf. by apply ends_lf_suffix in Hlf.
  - destruct (drop_while is_blank ln) as [|c t] eqn:Eb.
    { unfold marker_once in Hm. rewrite uncomment_line_spec in * by done.
      unfold uncomment_spec in *. rewrite Eb in *. by destruct (blank_line ln). }
    destruct (N.eqb_spec c HASH) as [Hc|Hc].
    2:{ rewrite uncomment_line_spec by done. unfold uncomment_spec. rewrite Eb.
        apply N.eqb_neq in Hc. rewrite Hc. by destruct (blank_line ln). }
    destruct (marker_once_spec ln c t Hs Eb Hc Hm) as (c' & r & Er & Hc' & E).
    assert (Ht' : skip1 is_space t <> []).
    { intros E0. by rewrite E0 in Er. }
    split.
    + split_and!.
      * rewrite E. intros [_ ?]%app_eq_nil. done.
      * by apply single_line_uncomment_line.
      * rewrite E, plain_text_app, Hpa. apply plain_skip1. by eapply plain_text_tail.
    + intros Hlf. rewrite E. apply ends_lf_app.
      rewrite <- Hsplit in Hlf. apply ends_lf_suffix in Hlf; [|done].
      destruct t as [|x t'].
      { destruct Hlf as [b Hb]. destruct b as [|? [|]]; simplify_eq. }
      change (c :: x :: t') with ([c] ++ x :: t') in Hlf.
      apply ends_lf_suffix in Hlf; [|done].
      simpl in *. destruct (is_space x); [|done].
      change (x :: t') with ([x] ++ t') in Hlf. by apply ends_lf_suffix in Hlf.
Qed.

(** ** The lines of a plain text *)

Lemma plain_not_cr c s : plain_text (c :: s) = true -> (c =? CR)%N = false.
Proof.
  intros H. apply N.eqb_neq. intros ->. simpl in H. done.
Qed.

Lemma plain_linebreak c s :
  plain_text (c :: s) = true -> is_linebreak c = (c =? LF)%N.
Proof.
  intros H. destruct (N.eqb_spec c LF) as [->|Hc]; [done|].
  destruct (is_linebreak c) eqn:E; [|done]. exfalso.
  assert (Hs : is_space c = true).
  { unfold is_linebreak in E. unfold is_space.
    repeat rewrite ?orb_true_iff, ?andb_true_iff, ?N.leb_le, ?N.eqb_eq in E.
    repeat rewrite ?orb_true_iff, ?andb_true_iff, ?N.leb_le, ?N.eqb_eq. lia. }
  destruct (plain_space _ _ H Hs) as [Hb | ->]; [|done].
  unfold is_blank in Hb. apply orb_true_iff in Hb as [->%N.eqb_eq | ->%N.eqb_eq]; done.
Qed.

(** On a plain text only the newline ends a line. *)
Lemma splitlines_from_plain cur c s :
  plain_text (c :: s) = true ->
  splitlines_from cur (c :: s)
  = if (c =? LF)%N then (cur ++ [LF]) :: splitlines_from [] s
    else splitlines_from (cur ++ [c]) s.
Proof.
  intros H. rewrite splitlines_from_cons, (plain_not_cr _ _ H), (plain_linebreak _ _ H).
  destruct (N.eqb_spec c LF) as [->|]; done.
Qed.


(** ** The lines of a plain text, split and joined *)

Lemma splitlines_from_body b : forall cur s,
  forallb is_dot b = true -> plain_text b = true ->
  splitlines_from cur (b ++ s) = splitlines_from (cur ++ b) s.
Proof.
  induction b as [|c b IH]; intros cur s Hd Hp.
  - by rewrite app_nil_r.
  - change ((c :: b) ++ s) with (c :: (b ++ s)).
    rewrite splitlines_from_cons, (plain_not_cr _ _ Hp), (plain_linebreak _ _ Hp).
    simpl in Hd. apply andb_true_iff in Hd as [Hc Hd].
    unfold is_dot in Hc. apply negb_true_iff in Hc. rewrite Hc.
    rewrite IH by (done || by eapply plain_text_tail).
    by rewrite <- app_assoc.
Qed.

Lemma splitlines_from_lf cur s :
  splitlines_from cur (LF :: s) = (cur ++ [LF]) :: splitlines_from [] s.
Proof. by rewrite splitlines_from_cons. Qed.

Lemma dots_not_lf b : forallb is_dot (b ++ [LF]) = false.
Proof. rewrite forallb_app. simpl. apply andb_false_r. Qed.

(** Joined and split again, the lines of a plain text are the same lines. *)
Lemma splitlines_join L : text_lines L -> splitlines (join L) = L.
Proof.
  unfold splitlines, join. induction L as [|ln L IH]; [done|].
  intros ((Hne & Hs & Hp) & Hlast & HL). cbn [concat].
  destruct (single_line_split ln Hs) as (body & nl & -> & Hb & Hnl).
  rewrite plain_text_app in Hp. apply andb_true_iff in Hp as [Hpb _].
  rewrite <- app_assoc, splitlines_from_body by done. cbn [app].
  destruct Hnl as [-> | ->].
  - destruct Hlast as [-> | Hlf].
    + cbn [concat app]. rewrite app_nil_r in *. rewrite splitlines_from_nil.
      by destruct body.
    + destruct Hlf as [b Hb']. rewrite app_nil_r in Hb'. subst body.
      by rewrite dots_not_lf in Hb.
  - cbn [app]. rewrite splitlines_from_lf. by rewrite IH.
Qed.

Lemma text_lines_splitlines_from s : forall cur,
  plain_text s = true -> plain_text cur = true -> forallb is_dot cur = true ->
  text_lines (splitlines_from cur s).
Proof.
  induction s as [|c s IH]; intros cur Hs Hc Hd.
  - rewrite splitlines_from_nil. destruct cur as [|x cur]; [exact I|].
    split; [|split; [by left|exact I]].
    split; [done|]. split; [|done]. by apply single_line_dot.
  - rewrite splitlines_from_plain by done.
    pose proof (plain_text_tail _ _ Hs) as Hs'.
    destruct (N.eqb_spec c LF) as [->|Hn].
    + split; [|split; [right; by exists cur | by apply IH]].
      split; [by destruct cur|]. split; [by apply single_line_snoc|].
      by rewrite plain_text_app, Hc.
    + apply IH; [done| |].
      * rewrite plain_text_app, Hc. simpl in *.
        apply andb_true_iff in Hs as [-> _]. done.
      * rewrite forallb_app, Hd. simpl. unfold is_dot.
        apply N.eqb_neq in Hn. by rewrite Hn.
Qed.

Lemma text_lines_splitlines src :
  plain_text src = true -> text_lines (splitlines src).
Proof. intros H. by apply text_lines_splitlines_from. Qed.

Lemma text_lines_plain L : text_lines L -> Forall plain_line L.
Proof.
  induction L as [|ln L IH]; [done|]. intros (H & _ & HL). constructor; auto.
Qed.

Lemma text_lines_switched L L2 :
  Forall2 switched L L2 -> text_lines L -> text_lines L2.
Proof.
  induction 1 as [|ln ln' L L2 Hsw HF IH]; [done|].
  intros (Hp & Hlast & HL).
  destruct (plain_line_switched ln ln' Hp Hsw) as [Hp' Hlf].
  split_and!; [done| |by apply IH].
  destruct Hlast as [-> | H]; [left; by inversion HF | right; by apply Hlf].
Qed.

(** ** Lines the scans cannot tell apart *)

Lemma switched_alike ln ln' : plain_line ln -> switched ln ln' -> alike ln ln'.
Proof.
  intros (_ & Hs & Hp) Hsw. split_and!.
  - by apply header_kind_switched.
  - by apply is_footer_switched.
  - intros st. by apply count_parens_switched.
Qed.

Lemma cfg_scan_alike ls ls' :
  Forall2 alike ls ls' -> forall st i, cfg_scan st i ls' = cfg_scan st i ls.
Proof.
  induction 1 as [|ln ln' ls ls' (_ & _ & Hc) _ IH]; intros st i; [done|].
  simpl. rewrite Hc. destruct (_ && _); [done|]. apply IH.
Qed.

Lemma find_cfg_block_end_alike lines lines' i :
  Forall2 alike (drop i lines) (drop i lines') -> length lines' = length lines ->
  find_cfg_block_end lines' i = find_cfg_block_end lines i.
Proof.
  intros H Hl. unfold find_cfg_block_end.
  by rewrite (cfg_scan_alike _ _ H), Hl.
Qed.

Lemma find_from_alike ls ls' :
  Forall2 alike ls ls' -> forall j, find_from is_footer j ls' = find_from is_footer j ls.
Proof.
  induction 1 as [|ln ln' ls ls' (_ & Hf & _) _ IH]; intros j; [done|].
  simpl. rewrite Hf. destruct (is_footer ln); [done|]. apply IH.
Qed.

Lemma find_matching_footer_alike lines lines' i :
  Forall2 alike lines lines' ->
  find_matching_footer lines' i = find_matching_footer lines i.
Proof.
  intros H. unfold find_matching_footer. apply find_from_alike. by apply Forall2_drop.
Qed.

Lemma locate_loop_alike lines lines' be fuel :
  Forall2 alike lines lines' -> forall u d i,
  locate_loop fuel lines' be u d i = locate_loop fuel lines be u d i.
Proof.
  intros H. induction fuel as [|fuel IH]; intros u d i; [done|].
  rewrite !locate_loop_step. destruct (Z.of_nat i <=? be)%Z; [|done].
  rewrite (find_matching_footer_alike lines lines' i H).
  destruct (lines !! i) as [ln|] eqn:E.
  - destruct (Forall2_lookup_l _ _ _ _ _ H E) as (ln' & -> & (Hk & _)).
    rewrite Hk. destruct (header_kind ln); [|by apply IH].
    destruct (find_matching_footer lines i) as [j|]; [|by apply IH].
    destruct (Z.of_nat j >? be)%Z; by apply IH.
  - assert (lines' !! i = None) as ->; [|done].
    apply lookup_ge_None. apply lookup_ge_None in E.
    by rewrite <- (Forall2_length _ _ _ H).
Qed.

Lemma locate_spawn_blocks_within_alike lines lines' bs be :
  Forall2 alike lines lines' ->
  locate_spawn_blocks_within lines' bs be = locate_spawn_blocks_within lines bs be.
Proof. intros H. by apply locate_loop_alike. Qed.

(** ** The orchestrator, line by line *)

Lemma in_opt_span_dec sp k : in_opt_span sp k \/ ~ in_opt_span sp k.
Proof.
  destruct sp as [[h f]|]; unfold in_opt_span, in_span; simpl; [lia | tauto].
Qed.

(** The start line of a region is in no span of it: a span begins with a
    header, and a start line is none. *)
Lemma cfg_start_outside lines bs be sfx sp ln :
  lines !! bs = Some ln -> is_cfg_start ln = true ->
  span_ok lines bs be sfx sp -> ~ in_opt_span sp bs.
Proof.
  destruct sp as [[h f]|]; [|by intros _ _ _ []].
  intros Hl Hc (Hh & _ & _ & (l & kind & Hlh & Hk & _) & _) [Hin _].
  simpl in Hin. assert (h = bs) as -> by lia. rewrite Hl in Hlh. injection Hlh as <-.
  by rewrite (is_cfg_start_not_header ln Hc) in Hk.
Qed.

Lemma alike_drop orig out i :
  Forall plain_line orig -> length out = length orig ->
  (forall k ln, i <= k -> orig !! k = Some ln ->
                exists ln', out !! k = Some ln' /\ switched ln ln') ->
  Forall2 alike (drop i orig) (drop i out).
Proof.
  intros Hp Hl Hsw. apply Forall2_same_length_lookup_2.
  { rewrite !length_drop. lia. }
  intros j x y Hx Hy. rewrite lookup_drop in Hx, Hy.
  destruct (Hsw (i + j) x) as (ln' & E & Hs); [lia|done|].
  rewrite Hy in E. injection E as <-.
  apply switched_alike; [|done].
  rewrite Forall_lookup in Hp. by apply (Hp (i + j)).
Qed.

(** The orchestrator on a plain text whose spans to enable carry one marker
    a line: every line comes out as it was, commented or uncommented to
    something that does not begin with the marker, and the regions of the
    result are those of the document. *)
Lemma patch_loop_switched mode orig :
  Forall plain_line orig -> forall fuel cur i c us ds,
  length cur = length orig ->
  drop i cur = drop i orig ->
  length orig - i < fuel ->
  (forall bs be u d k ln,
      (bs, be) ∈ regions_from fuel orig i ->
      locate_spawn_blocks_within orig bs be = Ret (u, d) ->
      in_opt_span (enabled_span mode u d) k -> orig !! k = Some ln ->
      marker_once ln = true) ->
  exists out c' us' ds',
    patch_loop fuel mode cur i c us ds = Ret (out, c', us', ds')
    /\ length out = length orig
    /\ (forall k, k < i -> out !! k = cur !! k)
    /\ (forall k ln, i <= k -> orig !! k = Some ln ->
          exists ln', out !! k = Some ln' /\ switched ln ln')
    /\ regions_from fuel out i = regions_from fuel orig i.
Proof.
  intros Hplain.
  induction fuel as [|fuel IH]; intros cur i c us ds Hlen Hdrop Hfuel Honce; [lia|].
  rewrite patch_loop_step. cbn [regions_from] in Honce.
  pose proof (drop_lookup cur orig i i Hdrop) as Hci. rewrite Hci by lia.
  destruct (orig !! i) as [ln|] eqn:El.
  2:{ exists cur, c, us, ds. split_and!; [done|done|done| |].
      - intros k l Hk Hl. apply lookup_lt_Some in Hl. apply lookup_ge_None in El. lia.
      - cbn [regions_from]. rewrite Hci, El by lia. done. }
  assert (Hi : i < length orig) by by eapply lookup_lt_Some.
  destruct (is_cfg_start ln) eqn:Ecfg.
  - rewrite (find_cfg_block_end_ext cur orig i) by done.
    rewrite (locate_spawn_blocks_within_ext cur orig i) by done.
    pose proof (find_cfg_block_end_ge orig i Hi) as Hbe.
    set (be := find_cfg_block_end orig i) in *.
    destruct (locate_spawn_blocks_within_spans cur i be) as (u & d & Hloc & Hu & Hd & Hud);
      [lia|].
    rewrite (locate_spawn_blocks_within_ext cur orig i) in Hloc by done.
    rewrite Hloc. cbn [bind].
    destruct (switch_region_spec mode cur i be u d)
      as (cur' & -> & Hl' & Hen & Hdis & Hout & Hout2); [lia|done|done|done|].
    cbn [bind].
    destruct (IH cur' (Z.to_nat (be + 1)) (c + 1)%Z (us + seen u)%Z (ds + seen d)%Z)
      as (out & c' & us' & ds' & -> & Hlo & Hbefore & Hsw & Hreg).
    { lia. }
    { apply drop_ext; [lia|]. intros k Hk. rewrite Hout by lia.
      apply (drop_lookup cur orig i k Hdrop). lia. }
    { lia. }
    { intros bs be' u' d' k l Hin. apply Honce. by right. }
    assert (Hall : forall k l, i <= k -> orig !! k = Some l ->
                     exists ln', out !! k = Some ln' /\ switched l ln').
    { intros k l Hk Hl. destruct (decide (Z.to_nat (be + 1) <= k)) as [Hge|Hlt].
      { by apply Hsw. }
      rewrite Hbefore by lia.
      pose proof (drop_lookup cur orig i k Hdrop Hk) as Hck. rewrite Hl in Hck.
      destruct (in_opt_span_dec (enabled_span mode u d) k) as [Hin|Hnin].
      { rewrite Hen, Hck by done. eexists. split; [done|]. right. right. split; [done|].
        apply (Honce i be u d k l); [by left|done|done|done]. }
      destruct (in_opt_span_dec (disabled_span mode u d) k) as [Hin|Hnin2].
      { rewrite Hdis, Hck by done. eexists. split; [done|]. right. by left. }
      rewrite Hout2, Hck by done. eexists. split; [done|]. by left. }
    exists out, c', us', ds'. split_and!; [done|done| |done|].
    + intros k Hk. rewrite Hbefore by lia. apply Hout. lia.
    + cbn [regions_from].
      destruct (span_ok_enabled_disabled mode cur i be u d Hu Hd) as (s1 & s2 & H1 & H2).
      assert (Hci' : cur !! i = Some ln) by by rewrite Hci by lia.
      pose proof (cfg_start_outside cur i be s1 _ ln Hci' Ecfg H1) as Hn1.
      pose proof (cfg_start_outside cur i be s2 _ ln Hci' Ecfg H2) as Hn2.
      rewrite Hbefore by lia. rewrite Hout2 by done. rewrite Hci', Ecfg.
      rewrite (find_cfg_block_end_alike orig out i) by (by apply alike_drop || done).
      fold be. by rewrite El, Ecfg, Hreg.
  - destruct (IH cur (S i) c us ds) as (out & c' & us' & ds' & -> & Hlo & Hbefore & Hsw & Hreg).
    { done. } { apply (drop_drop_eq cur orig i (S i) Hdrop). lia. } { lia. }
    { done. }
    exists out, c', us', ds'. split_and!; [done|done| | |].
    + intros k Hk. apply Hbefore. lia.
    + intros k l Hk Hl. destruct (decide (k = i)) as [Hki|Hne].
      * subst k. rewrite Hbefore, Hci by lia. rewrite El in Hl. injection Hl as <-.
        eexists. split; [done|]. by left.
      * apply Hsw; [lia|done].
    + cbn [regions_from]. rewrite Hbefore, Hci, El, Ecfg by lia. done.
Qed.

Lemma uncomment_once_fixed ln :
  single_line ln = true -> marker_once ln = true ->
  uncomment_line (uncomment_line ln) = uncomment_line ln.
Proof.
  intros Hs Hm. apply uncomment_fixed; [by apply single_line_uncomment_line|].
  right. unfold marker_once in Hm.
  destruct (drop_while is_blank (uncomment_line ln)) as [|c t]; [done|].
  simpl. apply negb_true_iff in Hm. by rewrite Hm.
Qed.

(** C3, as amended: on a text whose whitespace is spaces, tabs and newlines,
    and in which every line of a span of the requested kind, in a region the
    orchestrator visits, is left by [uncomment_line] with something after
    its indentation that does not begin with the marker, the patch
    returns, and applied to its own output it returns that output
    unchanged. *)
Theorem patch_spawn_modes_idempotent (src mode : str) :
  plain_text src = true ->
  (forall bs be urdf usd k ln,
      (bs, be) ∈ regions (splitlines src) ->
      locate_spawn_blocks_within (splitlines src) bs be = Ret (urdf, usd) ->
      in_opt_span (enabled_span mode urdf usd) k ->
      splitlines src !! k = Some ln ->
      marker_once ln = true) ->
  exists out c us ds c' us' ds',
    patch_spawn_modes src mode = Ret (out, c, us, ds)
    /\ patch_spawn_modes out mode = Ret (out, c', us', ds').
Proof.
  intros Hp Honce. set (orig := splitlines src) in *.
  pose proof (text_lines_splitlines src Hp) as Htl. fold orig in Htl.
  pose proof (text_lines_plain orig Htl) as Hplain.
  destruct (patch_loop_spec mode orig (S (length orig)) orig 0 0%Z 0%Z 0%Z)
    as (out & c & us & ds & Hrun & Hl & _ & Hspans); [done|done|lia|].
  destruct (patch_loop_switched mode orig Hplain (S (length orig)) orig 0 0%Z 0%Z 0%Z)
    as (out' & c1 & us1 & ds1 & Hrun' & _ & _ & Hsw & Hreg); [done|done|lia|done|].
  rewrite Hrun in Hrun'. injection Hrun' as <- <- <- <-.
  assert (HF : Forall2 switched orig out).
  { apply Forall2_same_length_lookup_2; [done|].
    intros k x y Hx Hy. destruct (Hsw k x) as (y' & E & H); [lia|done|].
    rewrite Hy in E. by injection E as <-. }
  pose proof (splitlines_join out (text_lines_switched orig out HF Htl)) as Hsplit.
  pose proof (alike_drop orig out 0 Hplain Hl Hsw) as Halike. rewrite !drop_0 in Halike.
  destruct (patch_spawn_modes_id (join out) mode) as (c' & us' & ds' & Hrun2).
  { rewrite Hsplit. unfold regions. rewrite Hl, Hreg.
    intros bs be u d Hin Hloc.
    rewrite (locate_spawn_blocks_within_alike orig out bs be Halike) in Hloc.
    destruct (Hspans bs be u d Hin Hloc) as [Hen Hdis]. split.
    - intros k ln Hk Hln. rewrite Hen in Hln by done.
      destruct (orig !! k) as [l0|] eqn:E0; [|done]. injection Hln as <-.
      apply uncomment_once_fixed.
      + rewrite Forall_lookup in Hplain. by destruct (Hplain k l0 E0) as (_ & ? & _).
      + by apply (Honce bs be u d k l0).
    - intros k ln Hk Hln. rewrite Hdis in Hln by done.
      destruct (orig !! k) as [l0|] eqn:E0; [|done]. injection Hln as <-.
      apply comment_line_idem.
      rewrite Forall_lookup in Hplain. by destruct (Hplain k l0 E0) as (_ & ? & _). }
  exists (join out), c, us, ds, c', us', ds'. split; [|done].
  unfold patch_spawn_modes. fold orig. by rewrite Hrun.
Qed.

Lemma patch_spawn_modes_idempotent_witness :
  exists out c us ds c' us' ds',
    patch_spawn_modes
      (lit "G1_CFG = UnitreeArticulationCfg(" ++ [LF]
       ++ lit "    # spawn=UnitreeUrdfFileCfg(" ++ [LF]
       ++ lit "    #     fix_base=False," ++ [LF]
       ++ lit "    # )," ++ [LF]
       ++ lit "    spawn=UnitreeUsdFileCfg(" ++ [LF]
       ++ lit "        usd_path=G1_USD," ++ [LF]
       ++ lit "    )," ++ [LF]
       ++ lit ")" ++ [LF])
      (lit "urdf")
    = Ret (out, c, us, ds)
    /\ patch_spawn_modes out (lit "urdf") = Ret (out, c', us', ds').
Proof.
  apply patch_spawn_modes_idempotent.
  - vm_compute. reflexivity.
  - intros bs be urdf usd k ln Hin Hloc Hk Hln.
    match type of Hin with
    | _ ∈ ?r => let v := eval vm_compute in r in
                replace r with v in Hin by (vm_compute; reflexivity)
    end.
    apply list_elem_of_singleton in Hin. injection Hin as -> ->.
    match type of Hloc with
    | ?l = _ => let v := eval vm_compute in l in
                replace l with v in Hloc by (vm_compute; reflexivity)
    end.
    injection Hloc as <- <-.
    replace (enabled_span _ _ _) with (Some (1, 3)) in Hk by (vm_compute; reflexivity).
    destruct Hk as [H1 H2]. simpl in H1, H2.
    match type of Hln with
    | ?l !! _ = _ => let v := eval vm_compute in l in
                     replace l with v in Hln by (vm_compute; reflexivity)
    end.
    destruct k as [|[|[|[|k]]]]; try lia; injection Hln as <-; vm_compute; reflexivity.
Defined.


(** * Further properties of the comment toggle *)

(** ** [is_commented] *)

(** [is_commented] holds when the marker is the first character that is not
    whitespace. *)
Lemma is_commented_spec line :
  is_commented line = startswith [HASH] (lstrip line).
Proof.
  unfold is_commented, COMMENTED_RE, re_match, lstrip.
  rewrite matched_is_Some, exec_seq, exec_bol, exec_seq, exec_star_only.
  2:{ intros pos c t g Hc. rewrite exec_chr.
      replace (is_char HASH c) with false; [done|].
      symmetry. apply is_char_false. by apply is_space_not_hash. }
  destruct (drop_while is_space line) as [|c t]; [done|].
  rewrite exec_chr. unfold is_char. simpl. rewrite andb_true_r.
  by destruct (c =? HASH)%N.
Qed.

Lemma drop_while_blank_space s :
  drop_while is_space (drop_while is_blank s) = drop_while is_space s.
Proof.
  induction s as [|c s IH]; [done|]. simpl.
  destruct (is_blank c) eqn:Eb; [by rewrite (is_blank_space c Eb)|done].
Qed.

Lemma drop_while_app_head (p : N -> bool) a x c t :
  drop_while p a = c :: t -> drop_while p (a ++ x) = c :: t ++ x.
Proof.
  induction a as [|d a IH]; [done|]. simpl. destruct (p d); [done|].
  by intros [= -> ->].
Qed.

Lemma split_nl_space s : forallb is_space (snd (split_nl s)) = true.
Proof. by destruct (split_nl_cases s) as [-> | [-> | ->]]. Qed.

(** The test of [comment_line] for a line that is commented already is
    that of [is_commented]. *)
Lemma commented_test s :
  blank_line s = false ->
  startswith [HASH] (lstrip (fst (split_nl (drop_while is_blank s))))
  = is_commented s.
Proof.
  intros Hb. rewrite is_commented_spec. unfold lstrip.
  rewrite <- (drop_while_blank_space s).
  set (b := drop_while is_blank s).
  assert (Hbb : forallb is_space b = false).
  { rewrite blank_line_spec in Hb. rewrite <- (take_drop_while is_blank s) in Hb.
    fold b in Hb. rewrite forallb_app in Hb.
    apply andb_false_iff in Hb as [Hb|Hb]; [|done].
    rewrite <- not_true_iff_false in Hb. exfalso. apply Hb.
    apply forallb_forall. intros c Hc. apply is_blank_space.
    pose proof (take_while_all is_blank s) as Ha. rewrite forallb_forall in Ha. auto. }
  rewrite <- (split_nl_app b) in Hbb |- * at 2.
  rewrite forallb_app, split_nl_space, andb_true_r in Hbb.
  destruct (drop_while is_space (fst (split_nl b))) as [|c t] eqn:E.
  { apply drop_while_nil in E. by rewrite E in Hbb. }
  by rewrite (drop_while_app_head _ _ _ _ _ E).
Qed.

Lemma comment_line_fixed l :
  single_line l = true ->
  comment_line l = l <-> blank_line l = true \/ is_commented l = true.
Proof.
  intros Hs. rewrite comment_line_spec by done. unfold comment_spec.
  destruct (blank_line l) eqn:Hb; [split; auto|].
  rewrite commented_test by done.
  destruct (is_commented l) eqn:Hc; [split; auto|].
  split; [|by intros [?|?]].
  intros E. rewrite split_nl_app in E. apply (f_equal length) in E.
  rewrite <- (take_drop_while is_blank l) in E at 3.
  rewrite !length_app in E. simpl in E. lia.
Qed.

Lemma comment_line_is_commented l :
  single_line l = true -> blank_line l = false ->
  is_commented (comment_line l) = true.
Proof.
  intros Hs Hb. rewrite comment_line_spec by done. unfold comment_spec.
  rewrite Hb, commented_test by done.
  destruct (is_commented l) eqn:Hc; [done|].
  rewrite is_commented_spec. unfold lstrip.
  change ([HASH; SP] ++ ?x) with (HASH :: SP :: x).
  rewrite drop_while_app; [done| |done].
  apply forallb_forall. intros c Hin. apply is_blank_space.
  pose proof (take_while_all is_blank l) as Ha. rewrite forallb_forall in Ha. auto.
Qed.

(** X1: on a line, [comment_line] changes nothing exactly when the line is
    blank or [is_commented] holds of it, and what it returns for a line that
    is not blank is commented. *)
Theorem comment_line_commented (l : str) :
  single_line l = true ->
  (comment_line l = l <-> blank_line l = true \/ is_commented l = true)
  /\ (blank_line l = false -> is_commented (comment_line l) = true).
Proof.
  intros Hs. split; [by apply comment_line_fixed|by apply comment_line_is_commented].
Qed.

Lemma comment_line_commented_witness :
  (comment_line (lit "    usd_path=G1," ++ [LF]) = lit "    usd_path=G1," ++ [LF]
   <-> blank_line (lit "    usd_path=G1," ++ [LF]) = true
       \/ is_commented (lit "    usd_path=G1," ++ [LF]) = true)
  /\ (blank_line (lit "    usd_path=G1," ++ [LF]) = false ->
      is_commented (comment_line (lit "    usd_path=G1," ++ [LF])) = true).
Proof. apply comment_line_commented. reflexivity. Defined.

(** ** The two directions of the toggle *)

Lemma not_space_not_blank c : is_space c = false -> is_blank c = false.
Proof.
  intros H. destruct (is_blank c) eqn:E; [|done].
  by rewrite (is_blank_space c E) in H.
Qed.

(** X2: a commented line in the style [comment_line] writes (indentation,
    the marker, one space, then text that begins with neither whitespace nor
    the marker) is uncommented to the indentation and the text, and
    commenting that gives the line back. *)
Theorem comment_uncomment_line (indent : str) (c : char) (rest : str) :
  forallb is_blank indent = true ->
  is_space c = false -> c <> HASH ->
  single_line (c :: rest) = true ->
  uncomment_line (indent ++ HASH :: SP :: c :: rest) = indent ++ c :: rest
  /\ comment_line (uncomment_line (indent ++ HASH :: SP :: c :: rest))
     = indent ++ HASH :: SP :: c :: rest.
Proof.
  intros Hi Hc Hh Hs.
  pose proof (not_space_not_blank c Hc) as Hcb.
  assert (Hu : uncomment_line (indent ++ HASH :: SP :: c :: rest) = indent ++ c :: rest).
  { rewrite uncomment_line_spec.
    2:{ rewrite single_line_app by by apply blank_is_dot. done. }
    unfold uncomment_spec. rewrite blank_line_app_hash.
    rewrite drop_while_app, take_while_app by done.
    rewrite N.eqb_refl. cbn [skip1]. change (is_space SP) with true. cbn iota.
    by rewrite split_nl_app. }
  split; [done|]. rewrite Hu.
  rewrite comment_line_spec.
  2:{ rewrite single_line_app by by apply blank_is_dot. done. }
  unfold comment_spec. rewrite blank_line_spec, forallb_app. simpl. rewrite Hc.
  rewrite andb_false_r.
  rewrite drop_while_app, take_while_app by done.
  assert (Hf : exists r, fst (split_nl (c :: rest)) = c :: r) .
  { cbn [split_nl]. rewrite !bool_decide_eq_false_2; [by eexists| |].
    - intros [= -> _]. done.
    - intros [= -> _]. done. }
  destruct Hf as [r Hr]. pose proof (split_nl_app (c :: rest)) as Happ.
  rewrite Hr in *. unfold lstrip. simpl. rewrite Hc. simpl.
  apply N.eqb_neq in Hh. rewrite Hh. simpl.
  simpl in Happ. by rewrite Happ.
Qed.

Lemma comment_uncomment_line_witness :
  uncomment_line (lit "    # )," ++ [LF]) = lit "    )," ++ [LF]
  /\ comment_line (uncomment_line (lit "    # )," ++ [LF])) = lit "    # )," ++ [LF].
Proof.
  apply (comment_uncomment_line (lit "    ") RPAREN [COMMA; LF]);
    [reflexivity|reflexivity|discriminate|reflexivity].
Defined.

(** ** Terminators *)

Lemma is_linebreak_space c : is_linebreak c = true -> is_space c = true.
Proof.
  unfold is_linebreak, is_space. intros E.
  repeat rewrite ?orb_true_iff, ?andb_true_iff, ?N.leb_le, ?N.eqb_eq in E.
  repeat rewrite ?orb_true_iff, ?andb_true_iff, ?N.leb_le, ?N.eqb_eq. lia.
Qed.

Lemma terminator_snoc x c :
  terminator (x ++ [c])
  = if (c =? LF)%N then
      match rev x with
      | d :: _ => if (d =? CR)%N then [CR; LF] else [LF]
      | [] => [LF]
      end
    else if is_linebreak c then [c] else [].
Proof. unfold terminator. by rewrite rev_app_distr. Qed.

Lemma terminator_blank a : forallb is_blank a = true -> terminator a = [].
Proof.
  intros Ha. destruct a as [|c a] using rev_ind; [done|].
  rewrite forallb_app in Ha. apply andb_true_iff in Ha as [_ Hc].
  simpl in Hc. rewrite andb_true_r in Hc. rewrite terminator_snoc.
  pose proof (is_blank_not_LF c Hc) as H1. apply N.eqb_neq in H1. rewrite H1.
  destruct (is_linebreak c) eqn:E; [|done].
  unfold is_blank in Hc. apply orb_true_iff in Hc. rewrite !N.eqb_eq in Hc.
  by destruct Hc as [-> | ->].
Qed.

Lemma terminator_blank_lf a : forallb is_blank a = true -> terminator (a ++ [LF]) = [LF].
Proof.
  intros Ha. rewrite terminator_snoc. simpl.
  destruct (rev a) as [|d r] eqn:E; [done|].
  assert (Hd : is_blank d = true).
  { rewrite <- forallb_rev, E in Ha. simpl in Ha. by apply andb_true_iff in Ha as [? _]. }
  pose proof (is_blank_not_CR d Hd) as H1. apply N.eqb_neq in H1. by rewrite H1.
Qed.

Lemma terminator_length x : length (terminator x) <= 2.
Proof.
  unfold terminator. destruct (rev x) as [|c r]; [simpl; lia|].
  destruct (c =? LF)%N.
  - destruct r as [|d r]; [simpl; lia|]. destruct (d =? CR)%N; simpl; lia.
  - destruct (is_linebreak c); simpl; lia.
Qed.

Lemma terminator_two x c d : terminator x = [c; d] -> c = CR /\ d = LF.
Proof.
  unfold terminator. destruct (rev x) as [|e r]; [done|].
  destruct (e =? LF)%N.
  - destruct r as [|f r]; [done|]. destruct (f =? CR)%N; [|done]. by intros [= <- <-].
  - by destruct (is_linebreak e).
Qed.

(** X3: [comment_line] keeps the terminator of every line.  So does
    [uncomment_line] on a line it strips the marker of, unless what follows
    the marker is the terminator alone: the whitespace character the
    pattern allows after the marker is then taken from the terminator. *)
Theorem toggle_terminator (s : str) :
  single_line s = true ->
  terminator (comment_line s) = terminator s
  /\ forall t, drop_while is_blank s = HASH :: t ->
       (terminator (uncomment_line s) = terminator s <-> t = [] \/ t <> terminator s).
Proof.
  intros Hs. split; [by apply comment_line_terminator|]. intros t Et.
  pose proof (take_drop_while is_blank s) as E. rewrite Et in E.
  pose proof (take_while_all is_blank s) as Ha.
  set (a := take_while is_blank s) in *.
  rewrite uncomment_line_spec by done. unfold uncomment_spec.
  rewrite Et, N.eqb_refl, split_nl_app.
  replace (blank_line s) with false by (by rewrite <- E, blank_line_app_hash).
  fold a. rewrite <- E. clear E Et Hs.
  destruct t as [|c [|d t']].
  - cbn [skip1]. rewrite app_nil_r, (terminator_blank a) by done.
    rewrite terminator_snoc. simpl. split; auto.
  - change (a ++ [HASH; c]) with (a ++ [HASH; c]).
    rewrite (terminator_app2 a HASH c). cbn [skip1].
    destruct (is_space c) eqn:Hc.
    + rewrite app_nil_r, (terminator_blank a) by done.
      change [HASH; c] with ([HASH] ++ [c]). rewrite terminator_snoc. simpl.
      destruct (N.eqb_spec c LF) as [->|Hn].
      * split; [done|]. intros [?|?]; done.
      * destruct (is_linebreak c); split; try done.
        -- intros [?|?]; done.
        -- intros _. by right.
    + rewrite terminator_app1.
      2:{ intros ->. done. }
      change [HASH; c] with ([HASH] ++ [c]). rewrite !terminator_snoc.
      destruct (N.eqb_spec c LF) as [->|Hn]; [done|].
      destruct (is_linebreak c) eqn:El.
      { by rewrite (is_linebreak_space c El) in Hc. }
      assert (terminator [c] = []) as ->.
      { unfold terminator. simpl. apply N.eqb_neq in Hn. by rewrite Hn, El. }
      split; [|done]. intros _. by right.
  - cbn [skip1]. destruct (is_space c) eqn:Hc.
    + destruct (decide (d :: t' = [LF])) as [[= -> ->]|Hne].
      * rewrite terminator_blank_lf by done.
        change (a ++ [HASH; c; LF]) with (a ++ [HASH] ++ [c; LF]).
        rewrite app_assoc, terminator_app2.
        change [c; LF] with ([c] ++ [LF]). rewrite terminator_snoc. simpl.
        destruct (N.eqb_spec c CR) as [->|Hn].
        -- split; [done|]. intros [?|?]; done.
        -- split; [|done]. intros _. right. by intros [= ? ?].
      * change (a ++ HASH :: c :: d :: t') with (a ++ [HASH; c] ++ d :: t').
        rewrite app_assoc.
        rewrite (terminator_app a (a ++ [HASH; c]) (d :: t')) by done.
        split; [|done]. intros _. right. intros Ht.
        pose proof (terminator_length ((a ++ [HASH; c]) ++ d :: t')) as Hl.
        rewrite <- Ht in Hl. destruct t' as [|e t']; [|simpl in Hl; lia].
        symmetry in Ht. apply terminator_two in Ht as [-> ->]. done.
    + change (a ++ HASH :: c :: d :: t') with (a ++ [HASH] ++ c :: d :: t').
      rewrite app_assoc.
      rewrite (terminator_app a (a ++ [HASH]) (c :: d :: t')) by done.
      split; [|done]. intros _. right. intros Ht.
      pose proof (terminator_length ((a ++ [HASH]) ++ c :: d :: t')) as Hl.
      rewrite <- Ht in Hl. destruct t' as [|e t']; [|simpl in Hl; lia].
      symmetry in Ht. apply terminator_two in Ht as [-> ->]. done.
Qed.

Lemma toggle_terminator_witness :
  terminator (comment_line (lit "  a=1," ++ [CR; LF])) = terminator (lit "  a=1," ++ [CR; LF])
  /\ forall t, drop_while is_blank (lit "  a=1," ++ [CR; LF]) = HASH :: t ->
       (terminator (uncomment_line (lit "  a=1," ++ [CR; LF]))
        = terminator (lit "  a=1," ++ [CR; LF])
        <-> t = [] \/ t <> terminator (lit "  a=1," ++ [CR; LF])).
Proof. apply toggle_terminator. reflexivity. Defined.

(** ** What the toggle leaves alone *)

Lemma count_parens_toggled st ln ln' :
  single_line ln = true -> toggled ln ln' ->
  count_parens st ln' = count_parens st ln.
Proof.
  intros Hs [-> | [-> | ->]];
    [done | by apply count_parens_comment | by apply count_parens_uncomment].
Qed.

Lemma cfg_scan_toggled ls ls' :
  Forall2 toggled ls ls' -> Forall (fun ln => single_line ln = true) ls ->
  forall st i, cfg_scan st i ls' = cfg_scan st i ls.
Proof.
  induction 1 as [|ln ln' ls ls' Ht _ IH]; intros Hs st i; [done|].
  apply Forall_cons in Hs as [Hs Hss]. simpl.
  rewrite (count_parens_toggled st ln ln' Hs Ht).
  destruct (_ && _); [done|]. by apply IH.
Qed.

(** X4: the toggle neither adds nor removes a parenthesis, so that the end
    the region locator finds from any start line is the same after any
    number of lines of the document have been commented or uncommented. *)
Theorem find_cfg_block_end_toggled (lines lines' : list str) (start_idx : nat) :
  Forall (fun ln => single_line ln = true) lines ->
  Forall2 toggled lines lines' ->
  (forall st ln ln', In ln lines -> toggled ln ln' ->
                     count_parens st ln' = count_parens st ln)
  /\ find_cfg_block_end lines' start_idx = find_cfg_block_end lines start_idx.
Proof.
  intros Hs Ht. split.
  - intros st ln ln' Hin. apply count_parens_toggled.
    rewrite Forall_forall in Hs. apply Hs. by apply list_elem_of_In.
  - unfold find_cfg_block_end.
    rewrite (cfg_scan_toggled (drop start_idx lines) (drop start_idx lines')),
      (Forall2_length _ _ _ Ht); [done| |].
    + by apply Forall2_drop.
    + by apply Forall_drop.
Qed.

Lemma find_cfg_block_end_toggled_witness :
  (forall st ln ln',
      In ln [lit "G1_CFG = UnitreeArticulationCfg("; lit "  # f(x),"; lit ")"] ->
      toggled ln ln' -> count_parens st ln' = count_parens st ln)
  /\ find_cfg_block_end
       [lit "G1_CFG = UnitreeArticulationCfg("; lit "  f(x),"; lit "# )"] 0
     = find_cfg_block_end
         [lit "G1_CFG = UnitreeArticulationCfg("; lit "  # f(x),"; lit ")"] 0.
Proof.
  apply find_cfg_block_end_toggled.
  - repeat apply Forall_cons_2; try reflexivity. apply Forall_nil_2.
  - constructor; [by left|].
    constructor; [right; right; reflexivity|].
    constructor; [right; left; reflexivity|]. constructor.
Defined.

(** X5: on a line of a plain text, [comment_line] changes neither whether
    the line is a header, nor its kind, nor whether it is a footer; the same
    holds of [uncomment_line] when it leaves, after the indentation,
    something that does not begin with the marker. *)
Theorem toggle_keeps_header_and_footer (ln : str) :
  single_line ln = true -> plain_text ln = true ->
  (header_kind (comment_line ln) = header_kind ln
   /\ is_footer (comment_line ln) = is_footer ln)
  /\ (marker_once ln = true ->
      header_kind (uncomment_line ln) = header_kind ln
      /\ is_footer (uncomment_line ln) = is_footer ln).
Proof.
  intros Hs Hp. split.
  - split; [apply header_kind_switched | apply is_footer_switched];
      try done; right; by left.
  - intros Hm.
    split; [apply header_kind_switched | apply is_footer_switched];
      try done; right; by right.
Qed.

Lemma toggle_keeps_header_and_footer_witness :
  (header_kind (comment_line (lit "    spawn=UnitreeUsdFileCfg(" ++ [LF]))
   = header_kind (lit "    spawn=UnitreeUsdFileCfg(" ++ [LF])
   /\ is_footer (comment_line (lit "    spawn=UnitreeUsdFileCfg(" ++ [LF]))
      = is_footer (lit "    spawn=UnitreeUsdFileCfg(" ++ [LF]))
  /\ (marker_once (lit "    spawn=UnitreeUsdFileCfg(" ++ [LF]) = true ->
      header_kind (uncomment_line (lit "    spawn=UnitreeUsdFileCfg(" ++ [LF]))
      = header_kind (lit "    spawn=UnitreeUsdFileCfg(" ++ [LF])
      /\ is_footer (uncomment_line (lit "    spawn=UnitreeUsdFileCfg(" ++ [LF]))
         = is_footer (lit "    spawn=UnitreeUsdFileCfg(" ++ [LF])).
Proof. apply toggle_keeps_header_and_footer; reflexivity. Defined.

(** ** What [uncomment_line] takes for a commented line *)

(** X6: [uncomment_line] changes none but commented lines: a line it
    changes satisfies [is_commented].  On a line of a plain text the
    converse holds as well, so that [is_commented], [comment_line] and
    [uncomment_line] agree there on which lines are commented. *)
Theorem uncomment_line_commented (l : str) :
  single_line l = true ->
  (uncomment_line l <> l -> is_commented l = true)
  /\ (plain_text l = true -> is_commented l = true -> uncomment_line l <> l).
Proof.
  intros Hs. split.
  - intros Hne. rewrite is_commented_spec. unfold lstrip.
    rewrite <- drop_while_blank_space.
    destruct (startswith [HASH] (drop_while is_blank l)) eqn:E.
    + destruct (drop_while is_blank l) as [|c t]; [done|].
      simpl in E. rewrite andb_true_r in E. apply N.eqb_eq in E as ->. done.
    + destruct Hne. apply uncomment_fixed; auto.
  - intros Hp Hc Hfix. apply uncomment_fixed in Hfix; [|done].
    rewrite is_commented_spec in Hc. unfold lstrip in Hc.
    destruct Hfix as [Hb|Hm].
    { rewrite blank_line_spec in Hb. apply drop_while_nil in Hb. by rewrite Hb in Hc. }
    rewrite <- drop_while_blank_space in Hc.
    pose proof (plain_drop_while is_blank l Hp) as Hpb.
    pose proof (single_line_drop_while is_blank l Hs) as Hsb.
    destruct (drop_while is_blank l) as [|c t] eqn:E; [done|].
    pose proof (drop_while_head _ _ _ _ E) as Hcb.
    destruct (is_space c) eqn:Hsp.
    + destruct (plain_space c t Hpb Hsp) as [Hbl | ->]; [congruence|].
      simpl in Hsb. apply bool_decide_eq_true in Hsb as ->. done.
    + simpl in Hc, Hm. rewrite Hsp in Hc. simpl in Hc. congruence.
Qed.

Lemma uncomment_line_commented_witness :
  (uncomment_line (lit "  # x=1," ++ [LF]) <> lit "  # x=1," ++ [LF] ->
   is_commented (lit "  # x=1," ++ [LF]) = true)
  /\ (plain_text (lit "  # x=1," ++ [LF]) = true ->
      is_commented (lit "  # x=1," ++ [LF]) = true ->
      uncomment_line (lit "  # x=1," ++ [LF]) <> lit "  # x=1," ++ [LF]).
Proof. apply uncomment_line_commented. reflexivity. Defined.


(** * Further properties of the region locator and the sub-block finder *)

(** ** The bounds of [find_cfg_block_end] *)

(** X7: from a start line of the document the region locator returns an
    index from the start line to the last line; from a start past the last
    line it returns the index of the last line, which is then before the
    start, and [-1] on a document that has no line. *)
Theorem find_cfg_block_end_bounds (lines : list str) (start_idx : nat) :
  (start_idx < length lines ->
   (Z.of_nat start_idx <= find_cfg_block_end lines start_idx
    < Z.of_nat (length lines))%Z)
  /\ (length lines <= start_idx ->
      find_cfg_block_end lines start_idx = (Z.of_nat (length lines) - 1)%Z)
  /\ find_cfg_block_end [] start_idx = (-1)%Z.
Proof.
  split_and!.
  - apply find_cfg_block_end_ge.
  - intros H. unfold find_cfg_block_end. by rewrite drop_ge.
  - unfold find_cfg_block_end. by rewrite drop_nil.
Qed.

(** ** The start line of a region *)

Lemma count_parens_none st s :
  forallb (fun c => negb ((c =? LPAREN)%N || (c =? RPAREN)%N)) s = true ->
  count_parens st s = st.
Proof.
  induction s as [|c s IH]; [done|]. cbn [forallb].
  intros [Hc Hs]%andb_true_iff. apply negb_true_iff, orb_false_iff in Hc as [H1 H2].
  rewrite count_parens_skip; [auto| |]; by apply N.eqb_neq.
Qed.

Lemma count_parens_class (p : char -> bool) st s :
  p LPAREN = false -> p RPAREN = false -> forallb p s = true ->
  count_parens st s = st.
Proof.
  intros H1 H2 Hs. apply count_parens_none.
  rewrite forallb_forall in *. intros c Hc. apply Hs in Hc.
  apply negb_true_iff, orb_false_iff.
  split; apply N.eqb_neq; intros ->; congruence.
Qed.

Lemma count_parens_lparen st s :
  count_parens st (LPAREN :: s) = count_parens ((fst st + 1)%Z, true) s.
Proof. by destruct st. Qed.

Opaque lit.

(** A start line holds one opening parenthesis and no closing one. *)
Lemma cfg_start_parens s m st :
  re_match CFG_START_RE s = Some m ->
  count_parens st s = ((fst st + 1)%Z, true).
Proof.
  intros H. apply re_match_sound in H as (w & H).
  unfold CFG_START_RE, Plus in H. inv_matches.
  repeat match goal with
         | H : startswith _ _ = true |- _ => apply startswith_split in H as [? ?]; subst
         | H : context [drop (length ?v) (?v ++ _)] |- _ =>
             rewrite (drop_app_length v) in H; subst
         | H : is_char _ _ = true |- _ => apply is_char_true in H; subst
         end.
  assert (Hc : c <> LPAREN /\ c <> RPAREN) by (split; intros ->; discriminate).
  assert (Hfin : count_parens ((st.1 + 1)%Z, true) s0 = ((st.1 + 1)%Z, true))
    by (destruct H as [-> | ->]; reflexivity).
  rewrite count_parens_app, (count_parens_class is_blank _ w0)
    by (assumption || reflexivity).
  rewrite count_parens_skip by tauto.
  rewrite count_parens_app, (count_parens_class is_upper_digit_us _ w13)
    by (assumption || reflexivity).
  rewrite count_parens_app, (count_parens_none _ (lit "_CFG")) by (vm_compute; reflexivity).
  rewrite count_parens_app, (count_parens_class is_space _ w3)
    by (assumption || reflexivity).
  rewrite count_parens_skip by discriminate.
  rewrite count_parens_app, (count_parens_class is_space _ w5)
    by (assumption || reflexivity).
  rewrite count_parens_app, (count_parens_none _ (lit "UnitreeArticulationCfg"))
    by (vm_compute; reflexivity).
  rewrite count_parens_app, (count_parens_class is_space _ w7)
    by (assumption || reflexivity).
  rewrite count_parens_lparen.
  by rewrite count_parens_app, (count_parens_class is_space _ w9)
    by (assumption || reflexivity).
Qed.

Transparent lit.

Lemma cfg_start_line_parens ln st :
  is_cfg_start ln = true -> count_parens st ln = ((fst st + 1)%Z, true).
Proof.
  unfold is_cfg_start. intros [m Hm]%bool_decide_eq_true.
  destruct (rstrip_nl_split ln) as (t & E & Ht). rewrite E at 1.
  rewrite count_parens_app, (cfg_start_parens (rstrip_nl ln) m) by done.
  apply (count_parens_class (is_char LF)); [reflexivity|reflexivity|done].
Qed.

(** X8: the region of a start line runs past that line: the start line
    holds one opening parenthesis and no closing one, so the locator returns
    a later index, unless the start line is the last line of the document,
    where it returns that line. *)
Theorem find_cfg_block_end_past_start (lines : list str) (i : nat) (ln : str) :
  lines !! i = Some ln -> is_cfg_start ln = true ->
  count_parens (0%Z, false) ln = (1%Z, true)
  /\ (S i < length lines -> (Z.of_nat i < find_cfg_block_end lines i)%Z)
  /\ (S i = length lines -> find_cfg_block_end lines i = Z.of_nat i).
Proof.
  intros Hl Hc. pose proof (cfg_start_line_parens ln (0%Z, false) Hc) as Hp.
  change ((0%Z, false).1 + 1)%Z with 1%Z in Hp.
  split; [done|]. unfold find_cfg_block_end.
  rewrite (drop_S _ _ _ Hl). cbn [cfg_scan]. rewrite Hp. cbn [fst snd andb].
  change (1 <=? 0)%Z with false. cbn iota.
  destruct (cfg_scan (1%Z, true) (S i) (drop (S i) lines)) as [r|] eqn:E.
  - apply cfg_scan_some in E as (n & -> & Hn & _). rewrite length_drop in Hn.
    split; intros; lia.
  - split; intros; lia.
Qed.

Lemma find_cfg_block_end_past_start_witness :
  count_parens (0%Z, false) (lit "G1_CFG = UnitreeArticulationCfg(" ++ [LF]) = (1%Z, true)
  /\ (1 < length [lit "G1_CFG = UnitreeArticulationCfg(" ++ [LF]; lit ")" ++ [LF]] ->
      (Z.of_nat 0
       < find_cfg_block_end
           [lit "G1_CFG = UnitreeArticulationCfg(" ++ [LF]; lit ")" ++ [LF]] 0)%Z)
  /\ (1 = length [lit "G1_CFG = UnitreeArticulationCfg(" ++ [LF]; lit ")" ++ [LF]] ->
      find_cfg_block_end
        [lit "G1_CFG = UnitreeArticulationCfg(" ++ [LF]; lit ")" ++ [LF]] 0
      = Z.of_nat 0).
Proof.
  apply (find_cfg_block_end_past_start
           [lit "G1_CFG = UnitreeArticulationCfg(" ++ [LF]; lit ")" ++ [LF]] 0
           (lit "G1_CFG = UnitreeArticulationCfg(" ++ [LF])); reflexivity.
Defined.

(** ** The footer search *)

(** X9: [find_matching_footer] returns the first footer line after
    [start_idx] anywhere in the rest of the document (the search is not
    bounded by a region), and [None] exactly when no later line is a
    footer. *)
Theorem find_matching_footer_first (lines : list str) (start_idx : nat) :
  (forall j,
      find_matching_footer lines start_idx = Some j
      <-> start_idx < j
          /\ (exists ln, lines !! j = Some ln /\ is_footer ln = true)
          /\ forall m ln, start_idx < m < j -> lines !! m = Some ln -> is_footer ln = false)
  /\ (find_matching_footer lines start_idx = None
      <-> forall m ln, start_idx < m -> lines !! m = Some ln -> is_footer ln = false).
Proof.
  split.
  - intros j. split.
    + intros H. apply find_matching_footer_some in H as (? & ? & ?).
      split_and!; [lia|done|done].
    + intros (Hj & (ln & Hl & Hf) & Hfirst).
      destruct (find_matching_footer lines start_idx) as [j'|] eqn:E.
      * apply find_matching_footer_some in E as (Hj' & (ln' & Hl' & Hf') & Hfirst').
        destruct (Nat.lt_trichotomy j j') as [Hlt | [-> | Hgt]]; [|done|].
        -- rewrite (Hfirst' j ln) in Hf; [done|lia|done].
        -- rewrite (Hfirst j' ln') in Hf'; [done|lia|done].
      * rewrite (find_matching_footer_none _ _ E j ln) in Hf; [done|lia|done].
  - split.
    + apply find_matching_footer_none.
    + intros H. destruct (find_matching_footer lines start_idx) as [j|] eqn:E; [|done].
      apply find_matching_footer_some in E as (Hj & (ln & Hl & Hf) & _).
      rewrite (H j ln) in Hf; [done|lia|done].
Qed.

(** ** The sub-block finder past the end of the document *)

Lemma locate_loop_beyond lines be :
  (Z.of_nat (length lines) <= be)%Z ->
  forall fuel u d i,
    i <= length lines -> length lines - i < fuel ->
    locate_loop fuel lines be u d i = IndexError.
Proof.
  intros Hbe. induction fuel as [|fuel IH]; intros u d i Hi Hfuel; [lia|].
  rewrite locate_loop_step.
  replace (Z.of_nat i <=? be)%Z with true by (symmetry; apply Z.leb_le; lia).
  destruct (lines !! i) as [ln|] eqn:El; [|done].
  apply lookup_lt_Some in El.
  destruct (header_kind ln); [|apply IH; lia].
  destruct (find_matching_footer lines i) as [j|] eqn:Ef; [|apply IH; lia].
  apply find_matching_footer_some in Ef as (Hj & _).
  destruct (Z.of_nat j >? be)%Z; apply IH; lia.
Qed.

(** X10: the sub-block finder reads [lines[i]] for every index it visits up
    to [block_end]; when [block_end] is not an index of the document and the
    range is not empty, it raises [IndexError] whatever the document
    holds. *)
Theorem locate_spawn_blocks_within_beyond
    (lines : list str) (block_start : nat) (block_end : Z) :
  (Z.of_nat (length lines) <= block_end)%Z ->
  (Z.of_nat block_start <= block_end)%Z ->
  locate_spawn_blocks_within lines block_start block_end = IndexError.
Proof.
  intros Hbe Hs. unfold locate_spawn_blocks_within.
  destruct (decide (block_start <= length lines)) as [Hle|Hgt].
  - apply locate_loop_beyond; [done|done|lia].
  - rewrite locate_loop_step.
    replace (Z.of_nat block_start <=? block_end)%Z with true
      by (symmetry; apply Z.leb_le; lia).
    rewrite lookup_ge_None_2; [done|lia].
Qed.

Lemma locate_spawn_blocks_within_beyond_witness :
  locate_spawn_blocks_within [lit "A_CFG = UnitreeArticulationCfg("; lit ")"] 0 2
  = IndexError.
Proof. apply locate_spawn_blocks_within_beyond; simpl; lia. Defined.

(** ** [switch_spawn_block] *)

Lemma switch_from_error (f : str -> str) n : forall (lines : list str) k,
  switch_from f lines k n = IndexError <-> 0 < n /\ length lines < k + n.
Proof.
  induction n as [|n IH]; intros lines k.
  - cbn [switch_from]. split; [done|lia].
  - cbn [switch_from]. unfold getitem. destruct (lines !! k) as [ln|] eqn:E.
    + cbn [bind]. rewrite IH, length_insert. apply lookup_lt_Some in E. lia.
    + cbn [bind]. apply lookup_ge_None in E. split; [lia|done].
Qed.

(** X11: [switch_spawn_block] raises [IndexError] exactly when the span is
    not empty and ends past the last line.  Otherwise it returns as many
    lines as it was given, with [uncomment_line] or [comment_line] applied
    to each line of the span and every other line as it was; an empty
    span changes nothing. *)
Theorem switch_spawn_block_bounds
    (lines : list str) (s e : nat) (enable : bool) :
  (switch_spawn_block lines (s, e) enable = IndexError
   <-> s <= e /\ length lines <= e)
  /\ (e < s -> switch_spawn_block lines (s, e) enable = Ret lines)
  /\ (s <= e -> e < length lines ->
      exists lines',
        switch_spawn_block lines (s, e) enable = Ret lines'
        /\ length lines' = length lines
        /\ (forall i, s <= i <= e ->
              lines' !! i
              = (if enable then uncomment_line else comment_line) <$> lines !! i)
        /\ (forall i, ~ (s <= i <= e) -> lines' !! i = lines !! i)).
Proof.
  split_and!.
  - unfold switch_spawn_block. rewrite switch_from_error. lia.
  - intros H. unfold switch_spawn_block. by replace (S e - s) with 0 by lia.
  - intros Hse He. apply (switch_spawn_block_spec lines (s, e) enable Hse He).
Qed.

(** What [comment_line] does to a line that is blank or does not begin with
    the marker, [uncomment_line] undoes. *)
Lemma uncomment_comment_spec L :
  single_line L = true ->
  blank_line L = true \/ startswith [HASH] (drop_while is_blank L) = false ->
  uncomment_line (comment_line L) = L.
Proof.
  intros Hs Hc. rewrite comment_line_spec by done.
  destruct (comment_spec_cases L) as [-> | [_ ->]].
  - by apply uncomment_fixed.
  - rewrite uncomment_line_spec by by apply single_line_commented.
    apply uncomment_spec_commented.
Qed.

(** X12: disabling a span and enabling it again gives the lines back, when
    every line of the span is blank or does not begin with the marker after
    its spaces and tabs (a block of live code). *)
Theorem switch_spawn_block_round_trip (lines : list str) (s e : nat) :
  e < length lines ->
  (forall k ln, s <= k <= e -> lines !! k = Some ln ->
     single_line ln = true
     /\ (blank_line ln = true \/ startswith [HASH] (drop_while is_blank ln) = false)) ->
  (do lines1 <- switch_spawn_block lines (s, e) false;
   switch_spawn_block lines1 (s, e) true) = Ret lines.
Proof.
  intros He Hlive. destruct (decide (s <= e)) as [Hse|Hgt].
  2:{ unfold switch_spawn_block. by replace (S e - s) with 0 by lia. }
  destruct (switch_spawn_block_spec lines (s, e) false Hse He)
    as (l1 & -> & Hl1 & Hin1 & Hout1). cbn [bind].
  destruct (switch_spawn_block_spec l1 (s, e) true Hse) as (l2 & -> & Hl2 & Hin2 & Hout2).
  { simpl in *. lia. }
  f_equal. apply list_eq. intros i.
  destruct (decide (s <= i <= e)) as [Hi|Hi].
  - rewrite Hin2, Hin1 by done. destruct (lines !! i) as [ln|] eqn:E; [|done].
    simpl. f_equal. destruct (Hlive i ln Hi E) as [Hs Hc].
    by apply uncomment_comment_spec.
  - by rewrite Hout2, Hout1.
Qed.

Lemma switch_spawn_block_round_trip_witness :
  (do lines1 <- switch_spawn_block
                  [lit "A_CFG = UnitreeArticulationCfg(" ++ [LF];
                   lit "    spawn=UnitreeUsdFileCfg(" ++ [LF];
                   [LF];
                   lit "        usd_path=G1," ++ [LF];
                   lit "    )," ++ [LF];
                   lit ")" ++ [LF]] (1, 4) false;
   switch_spawn_block lines1 (1, 4) true)
  = Ret [lit "A_CFG = UnitreeArticulationCfg(" ++ [LF];
         lit "    spawn=UnitreeUsdFileCfg(" ++ [LF];
         [LF];
         lit "        usd_path=G1," ++ [LF];
         lit "    )," ++ [LF];
         lit ")" ++ [LF]].
Proof.
  apply switch_spawn_block_round_trip.
  - simpl. lia.
  - intros k ln Hk Hl.
    destruct k as [|[|[|[|[|k]]]]]; try lia; injection Hl as <-;
      (split; [reflexivity|]); ((left; reflexivity) || (right; reflexivity)).
Defined.


(** * Further properties of the orchestrator *)

(** ** The regions it visits *)

Lemma regions_from_bounds lines fuel : forall j bs be,
  (bs, be) ∈ regions_from fuel lines j ->
  j <= bs < length lines /\ (Z.of_nat bs <= be < Z.of_nat (length lines))%Z.
Proof.
  induction fuel as [|fuel IH]; intros j bs be Hin; [by apply elem_of_nil in Hin|].
  cbn [regions_from] in Hin. destruct (lines !! j) as [ln|] eqn:El.
  2:{ by apply elem_of_nil in Hin. }
  assert (Hj : j < length lines) by by eapply lookup_lt_Some.
  pose proof (find_cfg_block_end_ge lines j Hj) as Hbe.
  destruct (is_cfg_start ln).
  - apply elem_of_cons in Hin as [[= -> ->]|Hin]; [lia|].
    apply IH in Hin. lia.
  - apply IH in Hin. lia.
Qed.

(** The spans found in a region lie in the region. *)
Lemma located_range mode lines bs be u d k :
  (be < Z.of_nat (length lines))%Z ->
  locate_spawn_blocks_within lines bs be = Ret (u, d) ->
  in_opt_span (enabled_span mode u d) k \/ in_opt_span (disabled_span mode u d) k ->
  bs <= k /\ (Z.of_nat k <= be)%Z.
Proof.
  intros Hbe Hloc Hk.
  destruct (locate_spawn_blocks_within_spans lines bs be Hbe)
    as (u' & d' & Hloc' & Hu & Hd & _).
  rewrite Hloc in Hloc'. injection Hloc' as <- <-.
  unfold enabled_span, disabled_span in Hk.
  destruct (bool_decide (mode = lit "urdf")), Hk as [Hk|Hk];
    first [apply (span_ok_range lines bs be _ _ k Hu Hk)
          |apply (span_ok_range lines bs be _ _ k Hd Hk)].
Qed.

Lemma count_seen_bounds lines regs :
  (0 <= fst (count_seen lines regs) <= Z.of_nat (length regs))%Z
  /\ (0 <= snd (count_seen lines regs) <= Z.of_nat (length regs))%Z.
Proof.
  induction regs as [|[bs be] regs IH]; [simpl; lia|]. cbn [count_seen length].
  destruct (locate_spawn_blocks_within lines bs be) as [[u d]| |]; cbn [fst snd];
    [destruct u, d; simpl; lia|lia|lia].
Qed.

(** ** The lines and the counters it returns *)

(** Every line the orchestrator returns, from its position on, is the line
    of the document uncommented if it lies in a span to enable, commented
    if it lies in a span to disable, and the line itself otherwise; the
    counters grow by the number of regions and of spans of each kind. *)
Lemma patch_loop_lines mode orig fuel : forall cur i c us ds,
  length cur = length orig ->
  drop i cur = drop i orig ->
  length orig - i < fuel ->
  exists out c' us' ds',
    patch_loop fuel mode cur i c us ds = Ret (out, c', us', ds')
    /\ length out = length orig
    /\ (forall k, k < i -> out !! k = cur !! k)
    /\ (forall k ln, i <= k -> orig !! k = Some ln ->
          (in_enabled_of mode orig (regions_from fuel orig i) k
           /\ out !! k = Some (uncomment_line ln))
          \/ (in_disabled_of mode orig (regions_from fuel orig i) k
              /\ out !! k = Some (comment_line ln))
          \/ (~ in_enabled_of mode orig (regions_from fuel orig i) k
              /\ ~ in_disabled_of mode orig (regions_from fuel orig i) k
              /\ out !! k = Some ln))
    /\ c' = (c + Z.of_nat (length (regions_from fuel orig i)))%Z
    /\ us' = (us + fst (count_seen orig (regions_from fuel orig i)))%Z
    /\ ds' = (ds + snd (count_seen orig (regions_from fuel orig i)))%Z.
Proof.
  induction fuel as [|fuel IH]; intros cur i c us ds Hlen Hdrop Hfuel; [lia|].
  rewrite patch_loop_step. cbn [regions_from].
  pose proof (drop_lookup cur orig i i Hdrop) as Hci. rewrite Hci by lia.
  destruct (orig !! i) as [ln|] eqn:El.
  2:{ exists cur, c, us, ds. simpl. split_and!; [done|done|done| |lia|lia|lia].
      intros k l Hk Hl. apply lookup_lt_Some in Hl. apply lookup_ge_None in El. lia. }
  assert (Hi : i < length orig) by by eapply lookup_lt_Some.
  destruct (is_cfg_start ln) eqn:Ecfg.
  - rewrite (find_cfg_block_end_ext cur orig i) by done.
    rewrite (locate_spawn_blocks_within_ext cur orig i) by done.
    pose proof (find_cfg_block_end_ge orig i Hi) as Hbe.
    set (be := find_cfg_block_end orig i) in *.
    destruct (locate_spawn_blocks_within_spans cur i be) as (u & d & Hloc & Hu & Hd & Hud);
      [lia|].
    rewrite (locate_spawn_blocks_within_ext cur orig i) in Hloc by done.
    rewrite Hloc. cbn [bind].
    destruct (switch_region_spec mode cur i be u d)
      as (cur' & -> & Hl' & Hen & Hdis & Hout & Hout2); [lia|done|done|done|].
    cbn [bind].
    destruct (IH cur' (Z.to_nat (be + 1)) (c + 1)%Z (us + seen u)%Z (ds + seen d)%Z)
      as (out & c' & us' & ds' & -> & Hlo & Hbefore & Hlines & Hc' & Hus' & Hds').
    { lia. }
    { apply drop_ext; [lia|]. intros k Hk. rewrite Hout by lia.
      apply (drop_lookup cur orig i k Hdrop). lia. }
    { lia. }
    set (rest := regions_from fuel orig (Z.to_nat (be + 1))) in *.
    assert (Hnot : forall k, Z.to_nat (be + 1) <= k ->
              ~ in_opt_span (enabled_span mode u d) k
              /\ ~ in_opt_span (disabled_span mode u d) k).
    { intros k Hk. split; intros Hin.
      - destruct (located_range mode orig i be u d k) as [_ ?]; [lia|done|by left|lia].
      - destruct (located_range mode orig i be u d k) as [_ ?]; [lia|done|by right|lia]. }
    assert (Hrest : forall k, k < Z.to_nat (be + 1) ->
              ~ in_enabled_of mode orig rest k /\ ~ in_disabled_of mode orig rest k).
    { intros k Hk. split; intros (bs' & be' & u' & d' & Hin & Hloc' & Hk').
      - apply regions_from_bounds in Hin as [? ?].
        destruct (located_range mode orig bs' be' u' d' k) as [? _];
          [lia|done|by left|lia].
      - apply regions_from_bounds in Hin as [? ?].
        destruct (located_range mode orig bs' be' u' d' k) as [? _];
          [lia|done|by right|lia]. }
    exists out, c', us', ds'. split_and!; [done|done| | | | |].
    + intros k Hk. rewrite Hbefore by lia. apply Hout. lia.
    + intros k l Hk Hl. destruct (decide (Z.to_nat (be + 1) <= k)) as [Hge|Hlt].
      * destruct (Hnot k Hge) as [Hn1 Hn2].
        destruct (Hlines k l Hge Hl)
          as [[(bs' & be' & u' & d' & Hin & Hloc' & Hk') Ho]
             |[[(bs' & be' & u' & d' & Hin & Hloc' & Hk') Ho]
              |(Hne & Hnd & Ho)]].
        -- left. split; [|done]. exists bs', be', u', d'. split_and!; [by right|done|done].
        -- right. left. split; [|done].
           exists bs', be', u', d'. split_and!; [by right|done|done].
        -- right. right. split_and!; [| |done].
           ++ intros (bs' & be' & u' & d' & Hin & Hloc' & Hk').
              apply elem_of_cons in Hin as [[= -> ->]|Hin].
              ** rewrite Hloc in Hloc'. injection Hloc' as <- <-. done.
              ** apply Hne. by exists bs', be', u', d'.
           ++ intros (bs' & be' & u' & d' & Hin & Hloc' & Hk').
              apply elem_of_cons in Hin as [[= -> ->]|Hin].
              ** rewrite Hloc in Hloc'. injection Hloc' as <- <-. done.
              ** apply Hnd. by exists bs', be', u', d'.
      * assert (Hlt' : k < Z.to_nat (be + 1)) by lia.
        destruct (Hrest k Hlt') as [Hr1 Hr2].
        rewrite Hbefore by lia.
        pose proof (drop_lookup cur orig i k Hdrop Hk) as Hck. rewrite Hl in Hck.
        destruct (in_opt_span_dec (enabled_span mode u d) k) as [Hin|Hnin].
        { left. split; [|by rewrite Hen, Hck].
          exists i, be, u, d. split_and!; [by left|done|done]. }
        destruct (in_opt_span_dec (disabled_span mode u d) k) as [Hin|Hnin2].
        { right. left. split; [|by rewrite Hdis, Hck].
          exists i, be, u, d. split_and!; [by left|done|done]. }
        right. right. split_and!; [| |by rewrite Hout2, Hck].
        -- intros (bs' & be' & u' & d' & Hin & Hloc' & Hk').
           apply elem_of_cons in Hin as [[= -> ->]|Hin].
           ** rewrite Hloc in Hloc'. injection Hloc' as <- <-. done.
           ** apply Hr1. by exists bs', be', u', d'.
        -- intros (bs' & be' & u' & d' & Hin & Hloc' & Hk').
           apply elem_of_cons in Hin as [[= -> ->]|Hin].
           ** rewrite Hloc in Hloc'. injection Hloc' as <- <-. done.
           ** apply Hr2. by exists bs', be', u', d'.
    + cbn [length]. lia.
    + cbn [count_seen]. rewrite Hloc. cbn [fst]. lia.
    + cbn [count_seen]. rewrite Hloc. cbn [snd]. lia.
  - destruct (IH cur (S i) c us ds)
      as (out & c' & us' & ds' & -> & Hlo & Hbefore & Hlines & Hc' & Hus' & Hds').
    { done. } { apply (drop_drop_eq cur orig i (S i) Hdrop). lia. } { lia. }
    exists out, c', us', ds'.
    assert (Hnone : forall k, k < S i ->
              ~ in_enabled_of mode orig (regions_from fuel orig (S i)) k
              /\ ~ in_disabled_of mode orig (regions_from fuel orig (S i)) k).
    { intros k Hk. split; intros (bs' & be' & u' & d' & Hin & Hloc' & Hk').
      - apply regions_from_bounds in Hin as [? ?].
        destruct (located_range mode orig bs' be' u' d' k) as [? _];
          [lia|done|by left|lia].
      - apply regions_from_bounds in Hin as [? ?].
        destruct (located_range mode orig bs' be' u' d' k) as [? _];
          [lia|done|by right|lia]. }
    split_and!; [done| done | | | | |].
    + intros k Hk. apply Hbefore. lia.
    + intros k l Hk Hl. destruct (decide (k = i)) as [Hki|Hne].
      * subst k. destruct (Hnone i) as [H1 H2]; [lia|].
        right. right. split_and!; [done|done|].
        rewrite Hbefore, Hci by lia. by rewrite <- Hl.
      * apply Hlines; [lia|done].
    + lia.
    + lia.
    + lia.
Qed.

Lemma patch_spawn_modes_run src mode :
  exists out c us ds,
    patch_loop (S (length (splitlines src))) mode (splitlines src) 0 0%Z 0%Z 0%Z
    = Ret (out, c, us, ds)
    /\ patch_spawn_modes src mode = Ret (join out, c, us, ds)
    /\ length out = length (splitlines src)
    /\ (forall k ln, splitlines src !! k = Some ln ->
          (in_enabled_of mode (splitlines src) (regions (splitlines src)) k
           /\ out !! k = Some (uncomment_line ln))
          \/ (in_disabled_of mode (splitlines src) (regions (splitlines src)) k
              /\ out !! k = Some (comment_line ln))
          \/ (~ in_enabled_of mode (splitlines src) (regions (splitlines src)) k
              /\ ~ in_disabled_of mode (splitlines src) (regions (splitlines src)) k
              /\ out !! k = Some ln))
    /\ c = Z.of_nat (length (regions (splitlines src)))
    /\ (us, ds) = count_seen (splitlines src) (regions (splitlines src)).
Proof.
  destruct (patch_loop_lines mode (splitlines src) (S (length (splitlines src)))
              (splitlines src) 0 0%Z 0%Z 0%Z)
    as (out & c & us & ds & H & Hl & _ & Hlines & Hc & Hus & Hds); [done|done|lia|].
  exists out, c, us, ds. split_and!; [done| |done| |by rewrite Hc|].
  - unfold patch_spawn_modes. by rewrite H.
  - intros k ln Hk. apply Hlines; [lia|done].
  - unfold regions. rewrite Hus, Hds, !Z.add_0_l. by destruct (count_seen _ _).
Qed.

Lemma regions_from_none lines fuel : forall i,
  (forall ln, ln ∈ lines -> is_cfg_start ln = false) ->
  regions_from fuel lines i = [].
Proof.
  induction fuel as [|fuel IH]; intros i Hno; [done|]. cbn [regions_from].
  destruct (lines !! i) as [ln|] eqn:El; [|done].
  rewrite (Hno ln) by by eapply list_elem_of_lookup_2. by apply IH.
Qed.

(** X13: a document none of whose lines starts a region is returned as it
    is, character for character, with all three counters at zero. *)
Theorem patch_spawn_modes_no_region (src mode : str) :
  (forall ln, ln ∈ splitlines src -> is_cfg_start ln = false) ->
  patch_spawn_modes src mode = Ret (src, 0%Z, 0%Z, 0%Z).
Proof.
  intros Hno.
  destruct (patch_spawn_modes_run src mode)
    as (out & c & us & ds & _ & -> & Hl & Hlines & -> & Hcount).
  unfold regions in *. rewrite (regions_from_none _ _ 0 Hno) in *.
  injection Hcount as -> ->.
  assert (out = splitlines src) as ->; [|by rewrite join_splitlines].
  apply list_eq. intros k. destruct (splitlines src !! k) as [ln|] eqn:E.
  - destruct (Hlines k ln E)
      as [[(bs & be & u & d & Hin & _) _]|[[(bs & be & u & d & Hin & _) _]|(_ & _ & Ho)]];
      [by apply elem_of_nil in Hin|by apply elem_of_nil in Hin|done].
  - apply lookup_ge_None. apply lookup_ge_None in E. lia.
Qed.

Lemma patch_spawn_modes_no_region_witness :
  patch_spawn_modes (lit "import os" ++ [LF] ++ lit "X = f(1)" ++ [LF]) (lit "usd")
  = Ret (lit "import os" ++ [LF] ++ lit "X = f(1)" ++ [LF], 0%Z, 0%Z, 0%Z).
Proof.
  apply patch_spawn_modes_no_region. intros ln Hin.
  replace (splitlines (lit "import os" ++ [LF] ++ lit "X = f(1)" ++ [LF]))
    with [lit "import os" ++ [LF]; lit "X = f(1)" ++ [LF]] in Hin by reflexivity.
  apply elem_of_cons in Hin as [->|Hin]; [reflexivity|].
  apply list_elem_of_singleton in Hin as ->. reflexivity.
Defined.

(** X14: the patched text is the concatenation of as many lines as the
    document has, and each of them is the line of the document
    uncommented when it lies in the span of the requested kind of a region,
    commented when it lies in the span of the other kind, and the line
    itself in every other case: no line outside the spans is touched. *)
Theorem patch_spawn_modes_lines (src mode : str) :
  exists out c us ds,
    patch_spawn_modes src mode = Ret (join out, c, us, ds)
    /\ length out = length (splitlines src)
    /\ forall k ln, splitlines src !! k = Some ln ->
         (in_enabled_of mode (splitlines src) (regions (splitlines src)) k
          /\ out !! k = Some (uncomment_line ln))
         \/ (in_disabled_of mode (splitlines src) (regions (splitlines src)) k
             /\ out !! k = Some (comment_line ln))
         \/ (~ in_enabled_of mode (splitlines src) (regions (splitlines src)) k
             /\ ~ in_disabled_of mode (splitlines src) (regions (splitlines src)) k
             /\ out !! k = Some ln).
Proof.
  destruct (patch_spawn_modes_run src mode)
    as (out & c & us & ds & _ & H & Hl & Hlines & _).
  by exists out, c, us, ds.
Qed.

(** X15: the counters the patch reports are those of the document it was
    given: the number of regions, and the numbers of regions in which the
    sub-block finder finds a span of the first and of the second kind.
    They do not depend on the mode, and neither span counter exceeds the
    number of regions. *)
Theorem patch_spawn_modes_counts (src mode : str) :
  exists out c us ds,
    patch_spawn_modes src mode = Ret (out, c, us, ds)
    /\ c = Z.of_nat (length (regions (splitlines src)))
    /\ (us, ds) = count_seen (splitlines src) (regions (splitlines src))
    /\ (0 <= us <= c)%Z /\ (0 <= ds <= c)%Z.
Proof.
  destruct (patch_spawn_modes_run src mode)
    as (out & c & us & ds & _ & H & _ & _ & Hc & Hcount).
  exists (join out), c, us, ds. do 3 (split; [done|]). split.
  - pose proof (count_seen_bounds (splitlines src) (regions (splitlines src))) as [Hb _].
    rewrite <- Hcount in Hb. simpl in Hb. lia.
  - pose proof (count_seen_bounds (splitlines src) (regions (splitlines src))) as [_ Hb].
    rewrite <- Hcount in Hb. simpl in Hb. lia.
Qed.

(** ** The mode *)

Lemma switch_region_other_mode mode lines u d :
  mode <> lit "urdf" -> switch_region mode lines u d = switch_region (lit "usd") lines u d.
Proof.
  intros H. unfold switch_region. by rewrite bool_decide_eq_false_2.
Qed.

Lemma patch_loop_other_mode mode fuel : forall lines i c us ds,
  mode <> lit "urdf" ->
  patch_loop fuel mode lines i c us ds = patch_loop fuel (lit "usd") lines i c us ds.
Proof.
  induction fuel as [|fuel IH]; intros lines i c us ds Hm; [done|].
  rewrite !patch_loop_step. destruct (lines !! i) as [ln|]; [|done].
  destruct (is_cfg_start ln); [|by apply IH].
  destruct (locate_spawn_blocks_within _ _ _) as [[u d]| |]; [|done|done].
  cbn [bind]. rewrite switch_region_other_mode by done.
  destruct (switch_region _ _ _ _); [|done|done]. cbn [bind]. by apply IH.
Qed.

(** X16: the patch compares its mode with ["urdf"] only: every other mode,
    whatever its spelling, enables the spans of the second kind and
    disables those of the first, as ["usd"] does. *)
Theorem patch_spawn_modes_other_mode (src mode : str) :
  mode <> lit "urdf" ->
  patch_spawn_modes src mode = patch_spawn_modes src (lit "usd").
Proof.
  intros Hm. unfold patch_spawn_modes. by rewrite patch_loop_other_mode.
Qed.

Lemma patch_spawn_modes_other_mode_witness :
  patch_spawn_modes (lit "A_CFG = UnitreeArticulationCfg(" ++ [LF]) (lit "URDF")
  = patch_spawn_modes (lit "A_CFG = UnitreeArticulationCfg(" ++ [LF]) (lit "usd").
Proof. apply patch_spawn_modes_other_mode. discriminate. Defined.

(** ** The disabled span *)

Lemma patch_spawn_modes_patched src mode :
  exists out c us ds,
    patch_loop (S (length (splitlines src))) mode (splitlines src) 0 0%Z 0%Z 0%Z
    = Ret (out, c, us, ds)
    /\ patch_spawn_modes src mode = Ret (join out, c, us, ds)
    /\ patched_lines mode (splitlines src) out.
Proof.
  destruct (patch_spawn_modes_run src mode)
    as (out & c & us & ds & Hrun & H & Hl & Hlines & _).
  exists out, c, us, ds. by split_and!.
Qed.

(** X17: after the patch, every line of the span of the other kind, in
    every region, is blank or commented: [is_commented] holds of it. *)
Theorem patch_spawn_modes_disabled_commented (src mode : str) :
  exists out c us ds,
    patch_spawn_modes src mode = Ret (join out, c, us, ds)
    /\ patched_lines mode (splitlines src) out
    /\ forall k,
         in_disabled_of mode (splitlines src) (regions (splitlines src)) k ->
         exists ln', out !! k = Some ln'
                     /\ (blank_line ln' = true \/ is_commented ln' = true).
Proof.
  destruct (patch_spawn_modes_patched src mode) as (out & c & us & ds & Hrun & H & Hp).
  destruct (patch_loop_spec mode (splitlines src) (S (length (splitlines src)))
              (splitlines src) 0 0%Z 0%Z 0%Z)
    as (out0 & c0 & us0 & ds0 & H0 & _ & _ & Hreg); [done|done|lia|].
  rewrite Hrun in H0. injection H0 as <- <- <- <-.
  exists out, c, us, ds. split; [done|]. split; [done|].
  intros k (bs & be & u & d & Hin & Hloc & Hk).
  destruct (Hreg bs be u d Hin Hloc) as [_ Hdis]. specialize (Hdis k Hk).
  pose proof (regions_from_bounds _ _ _ _ _ Hin) as [_ Hb].
  destruct (located_range mode (splitlines src) bs be u d k) as [_ Hkb];
    [lia|done|by right|].
  destruct (splitlines src !! k) as [ln|] eqn:E.
  2:{ apply lookup_ge_None in E. lia. }
  exists (comment_line ln). split; [done|].
  assert (Hs : single_line ln = true).
  { pose proof (splitlines_single src) as Hall. rewrite Forall_lookup in Hall.
    by apply (Hall k). }
  destruct (blank_line ln) eqn:Hbl.
  - left. assert (comment_line ln = ln) as ->; [|done].
    apply comment_line_fixed; auto.
  - right. by apply comment_line_is_commented.
Qed.


(** * The second run *)

Lemma text_lines_join L : text_lines L -> plain_text (join L) = true.
Proof.
  unfold join. induction L as [|ln L IH]; [done|].
  intros ((_ & _ & Hp) & _ & HL). cbn [concat]. by rewrite plain_text_app, Hp, IH.
Qed.

Lemma universal_newlines_plain s : plain_text s = true -> universal_newlines s = s.
Proof.
  induction s as [|c s IH]; [done|]. intros Hp. cbn [universal_newlines].
  rewrite (plain_not_cr c s Hp). f_equal. apply IH. by eapply plain_text_tail.
Qed.

Lemma count_seen_alike lines lines' regs :
  Forall2 alike lines lines' -> count_seen lines' regs = count_seen lines regs.
Proof.
  intros H. induction regs as [|[bs be] regs IH]; [done|]. cbn [count_seen].
  by rewrite (locate_spawn_blocks_within_alike lines lines' bs be H), IH.
Qed.

(** On a plain text whose spans to enable carry one marker a line, the
    patch and the patch of its result return the same text and the same
    counters. *)
Lemma patch_spawn_modes_stable src mode :
  plain_text src = true ->
  (forall bs be urdf usd k ln,
      (bs, be) ∈ regions (splitlines src) ->
      locate_spawn_blocks_within (splitlines src) bs be = Ret (urdf, usd) ->
      in_opt_span (enabled_span mode urdf usd) k ->
      splitlines src !! k = Some ln ->
      marker_once ln = true) ->
  exists out c us ds,
    patch_spawn_modes src mode = Ret (out, c, us, ds)
    /\ patch_spawn_modes out mode = Ret (out, c, us, ds)
    /\ plain_text out = true.
Proof.
  intros Hp Honce. set (orig := splitlines src) in *.
  pose proof (text_lines_splitlines src Hp) as Htl. fold orig in Htl.
  pose proof (text_lines_plain orig Htl) as Hplain.
  destruct (patch_spawn_modes_run src mode)
    as (out & c & us & ds & Hrun & Hpatch & Hl & _ & Hc & Hcount).
  fold orig in Hrun, Hl, Hc, Hcount.
  destruct (patch_loop_spec mode orig (S (length orig)) orig 0 0%Z 0%Z 0%Z)
    as (out0 & c0 & us0 & ds0 & Hrun0 & _ & _ & Hspans); [done|done|lia|].
  rewrite Hrun in Hrun0. injection Hrun0 as <- <- <- <-.
  destruct (patch_loop_switched mode orig Hplain (S (length orig)) orig 0 0%Z 0%Z 0%Z)
    as (out' & c1 & us1 & ds1 & Hrun' & _ & _ & Hsw & Hreg); [done|done|lia|done|].
  rewrite Hrun in Hrun'. injection Hrun' as <- <- <- <-.
  assert (HF : Forall2 switched orig out).
  { apply Forall2_same_length_lookup_2; [done|].
    intros k x y Hx Hy. destruct (Hsw k x) as (y' & E & H); [lia|done|].
    rewrite Hy in E. by injection E as <-. }
  pose proof (splitlines_join out (text_lines_switched orig out HF Htl)) as Hsplit.
  pose proof (alike_drop orig out 0 Hplain Hl Hsw) as Halike. rewrite !drop_0 in Halike.
  assert (Hregs : regions out = regions orig).
  { unfold regions. by rewrite Hl, Hreg. }
  destruct (patch_spawn_modes_id (join out) mode) as (c' & us' & ds' & Hrun2).
  { rewrite Hsplit, Hregs. intros bs be u d Hin Hloc.
    rewrite (locate_spawn_blocks_within_alike orig out bs be Halike) in Hloc.
    destruct (Hspans bs be u d Hin Hloc) as [Hen Hdis]. split.
    - intros k ln Hk Hln. rewrite Hen in Hln by done.
      destruct (orig !! k) as [l0|] eqn:E0; [|done]. injection Hln as <-.
      apply uncomment_once_fixed.
      + rewrite Forall_lookup in Hplain. by destruct (Hplain k l0 E0) as (_ & ? & _).
      + by apply (Honce bs be u d k l0).
    - intros k ln Hk Hln. rewrite Hdis in Hln by done.
      destruct (orig !! k) as [l0|] eqn:E0; [|done]. injection Hln as <-.
      apply comment_line_idem.
      rewrite Forall_lookup in Hplain. by destruct (Hplain k l0 E0) as (_ & ? & _). }
  destruct (patch_spawn_modes_run (join out) mode)
    as (out2 & c2 & us2 & ds2 & _ & Hpatch2 & _ & _ & Hc2 & Hcount2).
  rewrite Hrun2 in Hpatch2. injection Hpatch2 as _ -> -> ->.
  rewrite Hsplit, Hregs in Hc2, Hcount2.
  rewrite (count_seen_alike orig out _ Halike), <- Hcount in Hcount2.
  injection Hcount2 as -> ->. rewrite <- Hc in Hc2. subst c2.
  exists (join out), c, us, ds. split_and!; [done|done|].
  apply text_lines_join. by apply (text_lines_switched orig out).
Qed.

(** X18: on a text whose whitespace is spaces, tabs and newlines, and in
    which every line of a span of the requested kind is left by
    [uncomment_line] with something after its indentation that does not
    begin with the marker, a second run of the patch finds the regions and
    spans the first run found: it returns the text the first run returned
    and reports the same three counters. *)
Theorem patch_spawn_modes_second_run (src mode : str) :
  plain_text src = true ->
  (forall bs be urdf usd k ln,
      (bs, be) ∈ regions (splitlines src) ->
      locate_spawn_blocks_within (splitlines src) bs be = Ret (urdf, usd) ->
      in_opt_span (enabled_span mode urdf usd) k ->
      splitlines src !! k = Some ln ->
      marker_once ln = true) ->
  exists out c us ds,
    patch_spawn_modes src mode = Ret (out, c, us, ds)
    /\ patch_spawn_modes out mode = Ret (out, c, us, ds).
Proof.
  intros Hp Honce.
  destruct (patch_spawn_modes_stable src mode Hp Honce) as (out & c & us & ds & H1 & H2 & _).
  by exists out, c, us, ds.
Qed.

(** Discharges the hypothesis on the spans to enable for a given document
    with one region: the region, its spans and their lines are computed. *)
Ltac compute_in H :=
  match type of H with
  | _ ∈ ?r => let v := eval vm_compute in r in
              replace r with v in H by (vm_compute; reflexivity)
  | ?l !! _ = _ => let v := eval vm_compute in l in
                   replace l with v in H by (vm_compute; reflexivity)
  | ?l = _ => let v := eval vm_compute in l in
              replace l with v in H by (vm_compute; reflexivity)
  end.

Lemma patch_spawn_modes_second_run_witness :
  exists out c us ds,
    patch_spawn_modes
      (lit "G1_CFG = UnitreeArticulationCfg(" ++ [LF]
       ++ lit "    # spawn=UnitreeUrdfFileCfg(" ++ [LF]
       ++ lit "    #     fix_base=False," ++ [LF]
       ++ lit "    # )," ++ [LF]
       ++ lit ")" ++ [LF])
      (lit "urdf")
    = Ret (out, c, us, ds)
    /\ patch_spawn_modes out (lit "urdf") = Ret (out, c, us, ds).
Proof.
  apply patch_spawn_modes_second_run.
  - vm_compute. reflexivity.
  - intros bs be urdf usd k ln Hin Hloc Hk Hln.
    compute_in Hin. apply list_elem_of_singleton in Hin. injection Hin as -> ->.
    compute_in Hloc. injection Hloc as <- <-.
    replace (enabled_span _ _ _) with (Some (1, 3)) in Hk by (vm_compute; reflexivity).
    destruct Hk as [H1 H2]. simpl in H1, H2. compute_in Hln.
    destruct k as [|[|[|[|k]]]]; try lia; injection Hln as <-; vm_compute; reflexivity.
Defined.

(** X19: under the same conditions and without [--write-dirs], a second
    run of [main] exits with status 0 and leaves the file and its backup as
    the first run left them: the file holds the patched text, and the
    backup, when the first run wrote one, still holds the original text. *)
Theorem main_second_run
    (original : str) (bak : option str) (mode : str) (no_backup : bool)
    (values : gmap str str) :
  plain_text original = true ->
  (forall bs be urdf usd k ln,
      (bs, be) ∈ regions (splitlines original) ->
      locate_spawn_blocks_within (splitlines original) bs be = Ret (urdf, usd) ->
      in_opt_span (enabled_span mode urdf usd) k ->
      splitlines original !! k = Some ln ->
      marker_once ln = true) ->
  exists fs1,
    main (Files (Some original) bak) mode false no_backup values = Ret (0%Z, fs1)
    /\ main fs1 mode false no_backup values = Ret (0%Z, fs1)
    /\ (fs1 = Files (Some original) bak
        \/ exists patched,
             patched <> original
             /\ fs1 = Files (Some patched) (if no_backup then bak else Some original)).
Proof.
  intros Hp Honce.
  destruct (patch_spawn_modes_stable original mode Hp Honce)
    as (out & c & us & ds & H1 & H2 & Hpo).
  unfold main at 1. cbn [unitree_py unitree_py_bak]. unfold read_text.
  rewrite (universal_newlines_plain original Hp), H1. cbn [bind andb].
  destruct (decide (out = original)) as [->|Hne].
  - rewrite bool_decide_eq_false_2 by (intros H; by apply H).
    exists (Files (Some original) bak). split; [done|]. split; [|by left].
    unfold main. cbn [unitree_py unitree_py_bak]. unfold read_text.
    rewrite (universal_newlines_plain original Hp), H1. cbn [bind andb].
    by rewrite bool_decide_eq_false_2 by (intros H; by apply H).
  - rewrite bool_decide_eq_true_2 by done.
    eexists. split; [done|]. split; [|right; by exists out].
    unfold main. cbn [unitree_py unitree_py_bak]. unfold read_text.
    rewrite (universal_newlines_plain out Hpo), H2. cbn [bind andb].
    by rewrite bool_decide_eq_false_2 by (intros H; by apply H).
Qed.

Lemma main_second_run_witness :
  exists fs1,
    main (Files (Some (lit "G1_CFG = UnitreeArticulationCfg(" ++ [LF]
                       ++ lit "    # spawn=UnitreeUrdfFileCfg(" ++ [LF]
                       ++ lit "    # )," ++ [LF]
                       ++ lit ")" ++ [LF])) None)
         (lit "urdf") false false ∅
    = Ret (0%Z, fs1)
    /\ main fs1 (lit "urdf") false false ∅ = Ret (0%Z, fs1)
    /\ (fs1 = Files (Some (lit "G1_CFG = UnitreeArticulationCfg(" ++ [LF]
                           ++ lit "    # spawn=UnitreeUrdfFileCfg(" ++ [LF]
                           ++ lit "    # )," ++ [LF]
                           ++ lit ")" ++ [LF])) None
        \/ exists patched,
             patched <> lit "G1_CFG = UnitreeArticulationCfg(" ++ [LF]
                        ++ lit "    # spawn=UnitreeUrdfFileCfg(" ++ [LF]
                        ++ lit "    # )," ++ [LF]
                        ++ lit ")" ++ [LF]
             /\ fs1 = Files (Some patched)
                        (Some (lit "G1_CFG = UnitreeArticulationCfg(" ++ [LF]
                               ++ lit "    # spawn=UnitreeUrdfFileCfg(" ++ [LF]
                               ++ lit "    # )," ++ [LF]
                               ++ lit ")" ++ [LF]))).
Proof.
  apply (main_second_run _ None (lit "urdf") false ∅).
  - vm_compute. reflexivity.
  - intros bs be urdf usd k ln Hin Hloc Hk Hln.
    compute_in Hin. apply list_elem_of_singleton in Hin. injection Hin as -> ->.
    compute_in Hloc. injection Hloc as <- <-.
    replace (enabled_span _ _ _) with (Some (1, 2)) in Hk by (vm_compute; reflexivity).
    destruct Hk as [H1 H2]. simpl in H1, H2. compute_in Hln.
    destruct k as [|[|[|k]]]; try lia; injection Hln as <-; vm_compute; reflexivity.
Defined.


(** * Further properties of the directive rewriter *)

(** ** Names that are not patched *)

Lemma replace_dir_line_no_key values ln :
  values !! lit "UNITREE_ROS_DIR" = None ->
  values !! lit "UNITREE_MODEL_DIR" = None ->
  replace_dir_line values ln = ln.
Proof.
  intros H1 H2. unfold replace_dir_line.
  destruct (re_match DIR_ASSIGN_RE (rstrip_nl ln)) as [m|] eqn:Em; [|done].
  apply dir_assign_inv in Em
    as (indent & name & mid & q & tail & fin & _ & _ & Hn & _ & _ & _ & _ & -> & _).
  by destruct Hn as [-> | ->]; [rewrite H1 | rewrite H2].
Qed.

(** X20: the rewriter looks up two names only.  With a dictionary that
    holds neither [UNITREE_ROS_DIR] nor [UNITREE_MODEL_DIR], whatever else
    it holds, the text is returned character for character. *)
Theorem replace_dir_assignments_no_key (src : str) (values : gmap str str) :
  values !! lit "UNITREE_ROS_DIR" = None ->
  values !! lit "UNITREE_MODEL_DIR" = None ->
  replace_dir_assignments src values = src.
Proof.
  intros H1 H2. unfold replace_dir_assignments.
  rewrite (map_ext _ id), map_id; [apply join_splitlines|].
  intros ln. by apply replace_dir_line_no_key.
Qed.

Lemma replace_dir_assignments_no_key_witness :
  replace_dir_assignments (lit "UNITREE_ROS_DIR = 'x'" ++ [LF])
                          {[ lit "UNITREE_DIR" := lit "/opt" ]}
  = lit "UNITREE_ROS_DIR = 'x'" ++ [LF].
Proof. apply replace_dir_assignments_no_key; vm_compute; reflexivity. Defined.

(** ** Rewriting twice *)

(** A rewritten line, with the name it carries. *)
Lemma replace_dir_line_rewritten values ln :
  dir_line_matches values ln = true ->
  exists indent name mid q tail fin v,
    rstrip_nl ln = indent ++ name ++ mid ++ [q] ++ tail ++ fin
    /\ forallb is_blank indent = true
    /\ (name = lit "UNITREE_ROS_DIR" \/ name = lit "UNITREE_MODEL_DIR")
    /\ tail_ok tail
    /\ values !! name = Some v
    /\ replace_dir_line values ln
       = indent ++ name ++ lit " = " ++ [DQUOTE] ++ v ++ [DQUOTE] ++ tail ++ [LF].
Proof.
  unfold dir_line_matches, replace_dir_line.
  destruct (re_match DIR_ASSIGN_RE (rstrip_nl ln)) as [m|] eqn:Em; [|done].
  intros H. apply bool_decide_eq_true in H as [v Hv].
  apply dir_assign_inv in Em
    as (indent & name & mid & q & tail & fin & Hs & Hi & Hn & Hq & Ht & Hf & <- & <- & <-).
  rewrite Hv. exists (group_or_empty m "indent"), (group_or_empty m "name"), mid, q,
    (group_or_empty m "tail"), fin, v. by split_and!.
Qed.

(** A directive line in the form the rewriter writes is rewritten to
    itself when its value is the one of the dictionary. *)
Lemma replace_dir_line_written values indent name v sp cmt :
  forallb is_blank indent = true ->
  name = lit "UNITREE_ROS_DIR" \/ name = lit "UNITREE_MODEL_DIR" ->
  forallb is_dot v = true ->
  forallb (fun c => negb (is_char DQUOTE c)) v = true ->
  forallb is_blank sp = true ->
  (cmt = [] \/ exists t, cmt = HASH :: t /\ forallb is_dot t = true) ->
  values !! name = Some v ->
  replace_dir_line values
    (indent ++ name ++ lit " = " ++ [DQUOTE] ++ v ++ [DQUOTE] ++ (sp ++ cmt) ++ [LF])
  = indent ++ name ++ lit " = " ++ [DQUOTE] ++ v ++ [DQUOTE] ++ (sp ++ cmt) ++ [LF].
Proof.
  intros Hi Hn Hv Hq Hsp Hc Hval.
  destruct (dir_assign_match indent name [SP] [SP] DQUOTE v sp cmt)
    as (m & Hm & Gi & Gn & Gt); try done; [by right|].
  unfold replace_dir_line.
  replace (rstrip_nl _)
    with (indent ++ name ++ [SP] ++ [EQUALS] ++ [SP] ++ [DQUOTE] ++ v ++ [DQUOTE] ++ sp ++ cmt).
  { by rewrite Hm, Gn, Hval, Gi, Gt. }
  symmetry.
  replace (indent ++ name ++ lit " = " ++ [DQUOTE] ++ v ++ [DQUOTE] ++ (sp ++ cmt) ++ [LF])
    with ((indent ++ name ++ [SP] ++ [EQUALS] ++ [SP] ++ [DQUOTE] ++ v)
            ++ ([DQUOTE] ++ sp ++ cmt) ++ [LF]) by (by rewrite <- !app_assoc).
  rewrite rstrip_nl_app; [by rewrite <- !app_assoc|done| |by right].
  rewrite !forallb_app. apply andb_true_iff. split; [done|].
  apply andb_true_iff. split; [by apply blank_is_dot|].
  destruct Hc as [-> | (t & -> & Ht)]; [done|]. simpl. by rewrite Ht.
Qed.

Section Twice.
Variable values : gmap str str.
Hypothesis values_clean :
  forall name v,
    name = lit "UNITREE_ROS_DIR" \/ name = lit "UNITREE_MODEL_DIR" ->
    values !! name = Some v ->
    plain_text v = true /\ forallb is_dot v = true
    /\ forallb (fun c => negb (is_char DQUOTE c)) v = true.

Lemma replace_dir_line_again ln :
  replace_dir_line values (replace_dir_line values ln) = replace_dir_line values ln.
Proof.
  destruct (dir_line_matches values ln) eqn:E.
  - apply replace_dir_line_rewritten in E
      as (indent & name & mid & q & tail & fin & v & _ & Hi & Hn & Ht & Hv & ->).
    destruct (values_clean name v Hn Hv) as (_ & Hd & Hq).
    destruct Ht as (sp & cmt & -> & Hsp & Hc).
    by apply replace_dir_line_written.
  - rewrite (replace_dir_line_unmatched values ln E).
    by apply replace_dir_line_unmatched.
Qed.

Lemma name_plain name :
  name = lit "UNITREE_ROS_DIR" \/ name = lit "UNITREE_MODEL_DIR" ->
  plain_text name = true /\ forallb is_dot name = true.
Proof. by intros [-> | ->]. Qed.

(** The rewriter leaves a line of a plain text a line of a plain text,
    ending with a newline if it did. *)
Lemma plain_line_replace ln :
  plain_line ln ->
  plain_line (replace_dir_line values ln)
  /\ (ends_lf ln -> ends_lf (replace_dir_line values ln)).
Proof.
  intros (Hne & Hs & Hp). destruct (dir_line_matches values ln) eqn:E.
  2:{ by rewrite replace_dir_line_unmatched. }
  apply replace_dir_line_rewritten in E
    as (indent & name & mid & q & tail & fin & v & Hr & Hi & Hn & Ht & Hv & ->).
  destruct (values_clean name v Hn Hv) as (Hpv & Hd & Hq).
  destruct (name_plain name Hn) as [Hpn Hdn].
  destruct (rstrip_nl_split ln) as (t & Hln & _). rewrite Hr in Hln.
  rewrite Hln in Hp. rewrite !plain_text_app in Hp.
  apply andb_true_iff in Hp as [Hp _].
  apply andb_true_iff in Hp as [Hpi Hp]. apply andb_true_iff in Hp as [_ Hp].
  apply andb_true_iff in Hp as [_ Hp]. apply andb_true_iff in Hp as [_ Hp].
  apply andb_true_iff in Hp as [Hpt _].
  pose proof (tail_ok_dot tail Ht) as Hdt.
  split.
  - split_and!.
    + intros H. apply (f_equal length) in H. rewrite !length_app in H. simpl in H. lia.
    + replace (indent ++ name ++ lit " = " ++ [DQUOTE] ++ v ++ [DQUOTE] ++ tail ++ [LF])
        with ((indent ++ name ++ lit " = " ++ [DQUOTE] ++ v ++ [DQUOTE] ++ tail) ++ [LF])
        by (by rewrite <- !app_assoc).
      apply single_line_snoc. rewrite !forallb_app.
      by rewrite (blank_is_dot indent Hi), Hdn, Hd, Hdt.
    + rewrite !plain_text_app. by rewrite Hpi, Hpn, Hpv, Hpt.
  - intros _. exists (indent ++ name ++ lit " = " ++ [DQUOTE] ++ v ++ [DQUOTE] ++ tail).
    by rewrite <- !app_assoc.
Qed.

Lemma text_lines_replace L :
  text_lines L -> text_lines (map (replace_dir_line values) L).
Proof.
  induction L as [|ln L IH]; [done|]. intros (Hp & Hlast & HL).
  destruct (plain_line_replace ln Hp) as [Hp' Hlf].
  cbn [map text_lines]. split_and!; [done| |by apply IH].
  destruct Hlast as [-> | H]; [by left | right; by apply Hlf].
Qed.

Lemma replace_dir_assignments_again src :
  plain_text src = true ->
  replace_dir_assignments (replace_dir_assignments src values) values
  = replace_dir_assignments src values.
Proof.
  intros Hp. unfold replace_dir_assignments.
  rewrite splitlines_join by (by apply text_lines_replace, text_lines_splitlines).
  rewrite map_map. f_equal. apply map_ext. intros ln. apply replace_dir_line_again.
Qed.

End Twice.

(** X21: the rewriter is idempotent on a text whose whitespace is spaces,
    tabs and newlines, when the new values of the two names hold no double
    quote, no newline and no other exotic whitespace: rewriting the
    rewritten text changes nothing. *)
Theorem replace_dir_assignments_idempotent (src : str) (values : gmap str str) :
  plain_text src = true ->
  (forall name v,
      name = lit "UNITREE_ROS_DIR" \/ name = lit "UNITREE_MODEL_DIR" ->
      values !! name = Some v ->
      plain_text v = true /\ forallb is_dot v = true
      /\ forallb (fun c => negb (is_char DQUOTE c)) v = true) ->
  replace_dir_assignments (replace_dir_assignments src values) values
  = replace_dir_assignments src values.
Proof. intros Hp Hv. by apply replace_dir_assignments_again. Qed.

Lemma replace_dir_assignments_idempotent_witness :
  replace_dir_assignments
    (replace_dir_assignments (lit "UNITREE_ROS_DIR = 'old'  # robots" ++ [LF])
                             {[ lit "UNITREE_ROS_DIR" := lit "/opt/unitree_ros" ]})
    {[ lit "UNITREE_ROS_DIR" := lit "/opt/unitree_ros" ]}
  = replace_dir_assignments (lit "UNITREE_ROS_DIR = 'old'  # robots" ++ [LF])
                            {[ lit "UNITREE_ROS_DIR" := lit "/opt/unitree_ros" ]}.
Proof.
  apply replace_dir_assignments_idempotent.
  - vm_compute. reflexivity.
  - intros name v [-> | ->] Hv; vm_compute in Hv; [|discriminate Hv].
    injection Hv as <-. vm_compute. repeat split.
Defined.


(** * To the other mode and back *)

(** The regions the orchestrator visits do not overlap. *)
Lemma regions_from_apart lines fuel : forall j bs be bs' be' k,
  (bs, be) ∈ regions_from fuel lines j ->
  (bs', be') ∈ regions_from fuel lines j ->
  bs <= k -> (Z.of_nat k <= be)%Z -> bs' <= k -> (Z.of_nat k <= be')%Z ->
  bs = bs' /\ be = be'.
Proof.
  induction fuel as [|fuel IH]; intros j bs be bs' be' k H1 H2 ? ? ? ?;
    [by apply elem_of_nil in H1|].
  cbn [regions_from] in H1, H2. destruct (lines !! j) as [ln|] eqn:El.
  2:{ by apply elem_of_nil in H1. }
  destruct (is_cfg_start ln); [|by eapply IH].
  apply elem_of_cons in H1 as [[= -> ->]|H1], H2 as [[= -> ->]|H2].
  - done.
  - apply regions_from_bounds in H2. lia.
  - apply regions_from_bounds in H1. lia.
  - by eapply IH.
Qed.

(** No line lies both in a span to enable and in a span to disable. *)
Lemma enabled_disabled_apart mode lines fuel j k :
  in_enabled_of mode lines (regions_from fuel lines j) k ->
  in_disabled_of mode lines (regions_from fuel lines j) k -> False.
Proof.
  intros (bs & be & u & d & Hin & Hloc & Hk) (bs' & be' & u' & d' & Hin' & Hloc' & Hk').
  pose proof (regions_from_bounds _ _ _ _ _ Hin) as [_ Hb].
  pose proof (regions_from_bounds _ _ _ _ _ Hin') as [_ Hb'].
  destruct (located_range mode lines bs be u d k) as [? ?]; [lia|done|by left|].
  destruct (located_range mode lines bs' be' u' d' k) as [? ?]; [lia|done|by right|].
  destruct (regions_from_apart lines fuel j bs be bs' be' k) as [<- <-]; try done.
  rewrite Hloc in Hloc'. injection Hloc' as <- <-.
  destruct (locate_spawn_blocks_within_spans lines bs be) as (u0 & d0 & Hl0 & _ & _ & Hap);
    [lia|].
  rewrite Hloc in Hl0. injection Hl0 as <- <-.
  unfold enabled_span, disabled_span in *.
  destruct (bool_decide (mode = lit "urdf")).
  - by apply (spans_apart_not_both u d k).
  - by apply (spans_apart_not_both u d k).
Qed.

(** ** Lines that are switched off *)

Lemma off_line_marker_once ln :
  single_line ln = true -> off_line ln -> marker_once ln = true.
Proof.
  intros Hs [(indent & c & rest & -> & Hi & Hc & Hh) | [Hb [b ->]]]; unfold marker_once.
  - rewrite uncomment_line_spec by done. unfold uncomment_spec.
    rewrite blank_line_app_hash, drop_while_app, take_while_app by done.
    rewrite N.eqb_refl. cbn [skip1]. change (is_space SP) with true. cbn iota.
    rewrite split_nl_app, drop_while_app by (done || by apply not_space_not_blank).
    apply negb_true_iff. by apply N.eqb_neq.
  - assert (uncomment_line (b ++ [LF]) = b ++ [LF]) as ->.
    { apply uncomment_fixed; auto. }
    destruct (drop_while is_blank (b ++ [LF])) as [|c t] eqn:E.
    { apply drop_while_nil in E. rewrite forallb_app in E.
      apply andb_true_iff in E as [_ E]. done. }
    apply negb_true_iff, N.eqb_neq. intros ->.
    rewrite blank_line_spec in Hb.
    assert (Hin : In HASH (b ++ [LF])).
    { rewrite <- (take_drop_while is_blank (b ++ [LF])), E.
      apply in_or_app. right. by left. }
    rewrite forallb_forall in Hb. by apply Hb in Hin.
Qed.

Lemma off_line_round_trip ln :
  single_line ln = true -> off_line ln -> comment_line (uncomment_line ln) = ln.
Proof.
  intros Hs [(indent & c & rest & -> & Hi & Hc & Hh) | [Hb _]].
  - assert (Hsc : single_line (c :: rest) = true).
    { rewrite single_line_app in Hs by by apply blank_is_dot.
      by do 2 apply single_line_tail in Hs. }
    assert (Hu : uncomment_line (indent ++ HASH :: SP :: c :: rest) = indent ++ c :: rest).
    { rewrite uncomment_line_spec by done. unfold uncomment_spec.
      rewrite blank_line_app_hash, drop_while_app, take_while_app by done.
      rewrite N.eqb_refl. cbn [skip1]. change (is_space SP) with true. cbn iota.
      by rewrite split_nl_app. }
    rewrite Hu.
    assert (Hs' : single_line (indent ++ c :: rest) = true).
    { by rewrite single_line_app by by apply blank_is_dot. }
    pose proof (not_space_not_blank c Hc) as Hcb.
    destruct (comment_line_fixed (indent ++ c :: rest) Hs') as [Hfix _].
    rewrite comment_line_spec by done.
    destruct (comment_spec_cases (indent ++ c :: rest)) as [E | [_ ->]].
    + rewrite <- comment_line_spec in E by done. apply Hfix in E as [E|E].
      * rewrite blank_line_spec, forallb_app in E. simpl in E. rewrite Hc in E.
        by rewrite andb_false_r in E.
      * rewrite is_commented_spec in E. unfold lstrip in E.
        rewrite drop_while_app in E; [|by apply forallb_forall; intros x Hx;
          apply is_blank_space; rewrite forallb_forall in Hi; auto|done].
        simpl in E. apply N.eqb_neq in Hh. by rewrite Hh in E.
    + by rewrite drop_while_app, take_while_app.
  - assert (uncomment_line ln = ln) as ->; [apply uncomment_fixed; auto|].
    apply comment_line_fixed; auto.
Qed.

Lemma opposite_spans mode mode' u d :
  (mode = lit "urdf" <-> mode' <> lit "urdf") ->
  enabled_span mode' u d = disabled_span mode u d
  /\ disabled_span mode' u d = enabled_span mode u d.
Proof.
  intros H. unfold enabled_span, disabled_span.
  destruct (decide (mode = lit "urdf")) as [E|E].
  - rewrite (bool_decide_eq_true_2 _ E).
    by rewrite (bool_decide_eq_false_2 (mode' = lit "urdf")) by by apply H.
  - rewrite (bool_decide_eq_false_2 _ E).
    rewrite (bool_decide_eq_true_2 (mode' = lit "urdf")); [done|].
    destruct (decide (mode' = lit "urdf")) as [?|E']; [done|]. by apply H in E'.
Qed.

Lemma opposite_in_spans mode mode' orig out regs k :
  (mode = lit "urdf" <-> mode' <> lit "urdf") ->
  Forall2 alike orig out ->
  (in_enabled_of mode' out regs k <-> in_disabled_of mode orig regs k)
  /\ (in_disabled_of mode' out regs k <-> in_enabled_of mode orig regs k).
Proof.
  intros Hm Ha. split; split; intros (bs & be & u & d & Hin & Hloc & Hk);
    exists bs, be, u, d; destruct (opposite_spans mode mode' u d Hm) as [E1 E2];
    rewrite ?(locate_spawn_blocks_within_alike orig out bs be Ha) in *;
    split_and!; try done; congruence.
Qed.

(** X22: switching a document to one mode and then to the other gives the
    document back, character for character, with the same counters: this
    holds for a text whose whitespace is spaces, tabs and newlines, in
    which every line of the spans the first run enables is switched off
    (commented in the style [comment_line] writes, or blank) and every line
    of the spans it disables is live code (blank, or not beginning with the
    marker). *)
Theorem patch_spawn_modes_there_and_back (src mode mode' : str) :
  plain_text src = true ->
  (mode = lit "urdf" <-> mode' <> lit "urdf") ->
  (forall bs be u d k ln,
      (bs, be) ∈ regions (splitlines src) ->
      locate_spawn_blocks_within (splitlines src) bs be = Ret (u, d) ->
      splitlines src !! k = Some ln ->
      (in_opt_span (enabled_span mode u d) k -> off_line ln)
      /\ (in_opt_span (disabled_span mode u d) k -> live_line ln)) ->
  exists out c us ds,
    patch_spawn_modes src mode = Ret (out, c, us, ds)
    /\ patch_spawn_modes out mode' = Ret (src, c, us, ds).
Proof.
  intros Hp Hm Hshape. set (orig := splitlines src) in *.
  pose proof (text_lines_splitlines src Hp) as Htl. fold orig in Htl.
  pose proof (text_lines_plain orig Htl) as Hplain.
  assert (Hsingle : forall k ln, orig !! k = Some ln -> single_line ln = true).
  { intros k ln Hk. rewrite Forall_lookup in Hplain.
    by destruct (Hplain k ln Hk) as (_ & ? & _). }
  destruct (patch_spawn_modes_run src mode)
    as (out & c & us & ds & Hrun & Hpatch & Hl & Hlines & Hc & Hcount).
  fold orig in Hrun, Hl, Hlines, Hc, Hcount.
  destruct (patch_loop_switched mode orig Hplain (S (length orig)) orig 0 0%Z 0%Z 0%Z)
    as (out' & c1 & us1 & ds1 & Hrun' & _ & _ & Hsw & Hreg); [done|done|lia| |].
  { intros bs be u d k ln Hin Hloc Hk Hln.
    apply off_line_marker_once; [by eapply Hsingle|].
    by apply (Hshape bs be u d k ln Hin Hloc Hln). }
  rewrite Hrun in Hrun'. injection Hrun' as <- <- <- <-.
  assert (HF : Forall2 switched orig out).
  { apply Forall2_same_length_lookup_2; [done|].
    intros k x y Hx Hy. destruct (Hsw k x) as (y' & E & H); [lia|done|].
    rewrite Hy in E. by injection E as <-. }
  pose proof (splitlines_join out (text_lines_switched orig out HF Htl)) as Hsplit.
  pose proof (alike_drop orig out 0 Hplain Hl Hsw) as Halike. rewrite !drop_0 in Halike.
  assert (Hregs : regions out = regions orig).
  { unfold regions. by rewrite Hl, Hreg. }
  destruct (patch_spawn_modes_run (join out) mode')
    as (out2 & c2 & us2 & ds2 & _ & Hpatch2 & Hl2 & Hlines2 & Hc2 & Hcount2).
  rewrite Hsplit in Hl2, Hlines2, Hc2, Hcount2.
  rewrite Hregs in Hlines2, Hc2, Hcount2.
  rewrite (count_seen_alike orig out _ Halike), <- Hcount in Hcount2.
  injection Hcount2 as -> ->. rewrite <- Hc in Hc2. subst c2.
  exists (join out), c, us, ds. split; [done|]. rewrite Hpatch2.
  assert (out2 = orig) as ->; [|unfold orig; by rewrite join_splitlines].
  apply list_eq. intros k. destruct (orig !! k) as [ln|] eqn:E.
  2:{ apply lookup_ge_None. apply lookup_ge_None in E. lia. }
  pose proof (Hsingle k ln E) as Hs.
  destruct (opposite_in_spans mode mode' orig out (regions orig) k Hm Halike) as [Oe Od].
  destruct (Hlines k ln E) as [[He Ho]|[[Hd Ho]|(Hne & Hnd & Ho)]].
  - destruct (Hlines2 k _ Ho) as [[He2 _]|[[_ Ho2]|(_ & Hnd2 & _)]].
    + apply Oe in He2. by destruct (enabled_disabled_apart mode orig _ 0 k He He2).
    + rewrite Ho2. f_equal. apply off_line_round_trip; [done|].
      destruct He as (bs & be & u & d & Hin & Hloc & Hk).
      by apply (Hshape bs be u d k ln Hin Hloc E).
    + destruct Hnd2. by apply Od.
  - destruct (Hlines2 k _ Ho) as [[_ Ho2]|[[Hd2 _]|(Hne2 & _ & _)]].
    + rewrite Ho2. f_equal. apply uncomment_comment_spec; [done|].
      destruct Hd as (bs & be & u & d & Hin & Hloc & Hk).
      by apply (Hshape bs be u d k ln Hin Hloc E).
    + apply Od in Hd2. by destruct (enabled_disabled_apart mode orig _ 0 k Hd2 Hd).
    + destruct Hne2. by apply Oe.
  - destruct (Hlines2 k _ Ho) as [[He2 _]|[[Hd2 _]|(_ & _ & Ho2)]].
    + destruct Hnd. by apply Oe.
    + destruct Hne. by apply Od.
    + done.
Qed.

Lemma patch_spawn_modes_there_and_back_witness :
  exists out c us ds,
    patch_spawn_modes
      (lit "G1_CFG = UnitreeArticulationCfg(" ++ [LF]
       ++ lit "    spawn=UnitreeUrdfFileCfg(" ++ [LF]
       ++ lit "        fix_base=False," ++ [LF]
       ++ lit "    )," ++ [LF]
       ++ lit "    # spawn=UnitreeUsdFileCfg(" ++ [LF]
       ++ lit "    # )," ++ [LF]
       ++ lit ")" ++ [LF])
      (lit "usd")
    = Ret (out, c, us, ds)
    /\ patch_spawn_modes out (lit "urdf")
       = Ret (lit "G1_CFG = UnitreeArticulationCfg(" ++ [LF]
              ++ lit "    spawn=UnitreeUrdfFileCfg(" ++ [LF]
              ++ lit "        fix_base=False," ++ [LF]
              ++ lit "    )," ++ [LF]
              ++ lit "    # spawn=UnitreeUsdFileCfg(" ++ [LF]
              ++ lit "    # )," ++ [LF]
              ++ lit ")" ++ [LF], c, us, ds).
Proof.
  apply patch_spawn_modes_there_and_back.
  - vm_compute. reflexivity.
  - split; [discriminate|]. intros H. by destruct H.
  - intros bs be u d k ln Hin Hloc Hln.
    compute_in Hin. apply list_elem_of_singleton in Hin. injection Hin as -> ->.
    compute_in Hloc. injection Hloc as <- <-. compute_in Hln.
    replace (enabled_span _ _ _) with (Some (4, 5)) by (vm_compute; reflexivity).
    replace (disabled_span _ _ _) with (Some (1, 3)) by (vm_compute; reflexivity).
    split; intros [H1 H2]; simpl in H1, H2.
    + destruct k as [|[|[|[|[|[|k]]]]]]; try lia; injection Hln as <-; left.
      * exists (lit "    "), 115%N, (lit "pawn=UnitreeUsdFileCfg(" ++ [LF]).
        split_and!; [reflexivity|reflexivity|reflexivity|discriminate].
      * exists (lit "    "), RPAREN, [COMMA; LF].
        split_and!; [reflexivity|reflexivity|reflexivity|discriminate].
    + destruct k as [|[|[|[|k]]]]; try lia; injection Hln as <-; right; reflexivity.
Defined.

(** * The start line of a region is kept *)

Lemma regions_from_start lines fuel : forall j bs be,
  (bs, be) ∈ regions_from fuel lines j ->
  exists ln, lines !! bs = Some ln /\ is_cfg_start ln = true
             /\ be = find_cfg_block_end lines bs.
Proof.
  induction fuel as [|fuel IH]; intros j bs be Hin; [by apply elem_of_nil in Hin|].
  cbn [regions_from] in Hin. destruct (lines !! j) as [ln|] eqn:El.
  2:{ by apply elem_of_nil in Hin. }
  destruct (is_cfg_start ln) eqn:Ec; [|by eapply IH].
  apply elem_of_cons in Hin as [[= -> ->]|Hin]; [by exists ln|by eapply IH].
Qed.

(** X23: the patch never changes the line a region starts at: every region
    the orchestrator visits begins, in the patched text, with the start
    line the document had there.  A start line is no header, and a span
    begins with a header of the region. *)
Theorem patch_spawn_modes_keeps_start (src mode : str) :
  exists out c us ds,
    patch_spawn_modes src mode = Ret (join out, c, us, ds)
    /\ patched_lines mode (splitlines src) out
    /\ forall bs be,
         (bs, be) ∈ regions (splitlines src) ->
         exists ln, splitlines src !! bs = Some ln /\ is_cfg_start ln = true
                    /\ out !! bs = Some ln.
Proof.
  destruct (patch_spawn_modes_patched src mode)
    as (out & c & us & ds & _ & H & Hp).
  pose proof Hp as [_ Hlines].
  exists out, c, us, ds. split; [done|]. split; [done|]. intros bs be Hin.
  destruct (regions_from_start _ _ _ _ _ Hin) as (ln & Hl & Hc & Hbe).
  exists ln. split; [done|]. split; [done|].
  pose proof (regions_from_bounds _ _ _ _ _ Hin) as [_ Hb].
  assert (Hout : forall bs' be' u d,
            (bs', be') ∈ regions (splitlines src) ->
            locate_spawn_blocks_within (splitlines src) bs' be' = Ret (u, d) ->
            in_opt_span (enabled_span mode u d) bs
            \/ in_opt_span (disabled_span mode u d) bs -> False).
  { intros bs' be' u d Hin' Hloc Hk.
    pose proof (regions_from_bounds _ _ _ _ _ Hin') as [_ Hb'].
    destruct (located_range mode (splitlines src) bs' be' u d bs) as [? ?];
      [lia|done|done|].
    destruct (regions_from_apart (splitlines src) (S (length (splitlines src))) 0
                bs be bs' be' bs) as [<- <-]; try done; try lia.
    destruct (locate_spawn_blocks_within_spans (splitlines src) bs be)
      as (u0 & d0 & Hl0 & Hu & Hd & _); [lia|].
    rewrite Hloc in Hl0. injection Hl0 as <- <-.
    destruct (span_ok_enabled_disabled mode (splitlines src) bs be u d Hu Hd)
      as (s1 & s2 & Hs1 & Hs2).
    destruct Hk as [Hk|Hk].
    - by apply (cfg_start_outside (splitlines src) bs be s1 _ ln Hl Hc Hs1).
    - by apply (cfg_start_outside (splitlines src) bs be s2 _ ln Hl Hc Hs2). }
  destruct (Hlines bs ln Hl)
    as [[(bs' & be' & u & d & Hin' & Hloc & Hk) _]
       |[[(bs' & be' & u & d & Hin' & Hloc & Hk) _]|(_ & _ & Ho)]]; [| |done].
  - destruct (Hout bs' be' u d Hin' Hloc). by left.
  - destruct (Hout bs' be' u d Hin' Hloc). by right.
Qed.


(** * The repository root *)

Lemma find_parents_from (f : path -> bool) p : forall n,
  match List.find f (parents_from n p) with
  | Some r => exists m, m < n /\ r = take m p /\ f r = true
                        /\ forall j, m < j < n -> f (take j p) = false
  | None => forall j, j < n -> f (take j p) = false
  end.
Proof.
  induction n as [|n IH]; [intros j Hj; lia|]. cbn [parents_from List.find].
  destruct (f (take n p)) eqn:E.
  - exists n. split_and!; [lia|done|done|]. intros j Hj. lia.
  - destruct (List.find f (parents_from n p)) as [r|].
    + destruct IH as (m & Hm & -> & Hf & Hfirst). exists m.
      split_and!; [lia|done|done|]. intros j Hj.
      destruct (decide (j = n)) as [->|Hne]; [done|]. apply Hfirst. lia.
    + intros j Hj. destruct (decide (j = n)) as [->|Hne]; [done|]. apply IH. lia.
Qed.

(** X24: [find_repo_root] returns the resolved start or one of its
    ancestors.  When the start or an ancestor holds [pixi.toml], it
    returns the nearest one that does; when none does, it returns the
    resolved start itself. *)
Theorem find_repo_root_nearest (exists_ : path -> bool) (p : path) :
  exists n,
    n <= length p
    /\ find_repo_root exists_ p = take n p
    /\ (forall m, n < m <= length p -> exists_ (take m p ++ [lit "pixi.toml"]) = false)
    /\ (exists_ (take n p ++ [lit "pixi.toml"]) = true
        \/ (n = length p
            /\ forall m, m <= length p -> exists_ (take m p ++ [lit "pixi.toml"]) = false)).
Proof.
  unfold find_repo_root, parents. cbn [List.find].
  pose proof (find_parents_from (fun parent => exists_ (parent ++ [lit "pixi.toml"]))
                p (length p)) as H.
  cbv beta in H. unfold path in *.
  destruct (exists_ (p ++ [lit "pixi.toml"])) eqn:Ep.
  - exists (length p). rewrite firstn_all.
    split; [lia|]. split; [reflexivity|]. split; [intros m Hm; lia|]. left. exact Ep.
  - match goal with
    | |- context [List.find ?f ?l] => destruct (List.find f l) as [r|]
    end.
    + destruct H as (m & Hm & -> & Hf & Hfirst). exists m.
      split; [lia|]. split; [reflexivity|]. split; [|left; exact Hf].
      intros j Hj. destruct (decide (j = length p)) as [->|Hne].
      * rewrite firstn_all. exact Ep.
      * apply (Hfirst j). lia.
    + exists (length p). rewrite firstn_all.
      split; [lia|]. split; [reflexivity|]. split; [intros m Hm; lia|].
      right. split; [done|]. intros m Hm.
      destruct (decide (m = length p)) as [->|Hne]; [rewrite firstn_all; exact Ep|].
      apply (H m). lia.
Qed.


(** * What the scans read *)

(** ** A region with no sub-block *)

Lemma locate_loop_nothing lines be :
  (be < Z.of_nat (length lines))%Z ->
  forall fuel bs i,
    bs <= i ->
    (forall k ln, bs <= k -> (Z.of_nat k <= be)%Z -> lines !! k = Some ln ->
       header_kind ln = None
       \/ forall j, find_matching_footer lines k = Some j -> (be < Z.of_nat j)%Z) ->
    Z.to_nat (be + 1 - Z.of_nat i) < fuel ->
    locate_loop fuel lines be None None i = Ret (None, None).
Proof.
  intros Hbe. induction fuel as [|fuel IH]; intros bs i Hi Hno Hfuel; [lia|].
  rewrite locate_loop_step. destruct (Z.of_nat i <=? be)%Z eqn:Ei; [|done].
  apply Z.leb_le in Ei.
  destruct (lines !! i) as [ln|] eqn:El.
  2:{ apply lookup_ge_None in El. lia. }
  assert (Hnext : locate_loop fuel lines be None None (S i) = Ret (None, None)).
  { apply (IH bs); [lia|done|lia]. }
  destruct (Hno i ln Hi Ei El) as [-> | Hf]; [done|].
  destruct (header_kind ln); [|done].
  destruct (find_matching_footer lines i) as [j|]; [|done].
  specialize (Hf j eq_refl).
  replace (Z.of_nat j >? be)%Z with true; [done|].
  symmetry. apply Z.gtb_lt. lia.
Qed.

(** X25: in a region of the document in which no header line has its
    first footer inside the region (in particular in a region without any
    header line), the sub-block finder finds no span of either kind. *)
Theorem locate_spawn_blocks_within_nothing
    (lines : list str) (block_start : nat) (block_end : Z) :
  (block_end < Z.of_nat (length lines))%Z ->
  (forall k ln,
      block_start <= k -> (Z.of_nat k <= block_end)%Z -> lines !! k = Some ln ->
      header_kind ln = None
      \/ forall j, find_matching_footer lines k = Some j -> (block_end < Z.of_nat j)%Z) ->
  locate_spawn_blocks_within lines block_start block_end = Ret (None, None).
Proof.
  intros Hbe Hno. unfold locate_spawn_blocks_within.
  apply (locate_loop_nothing lines block_end Hbe _ block_start); [done|done|lia].
Qed.

Lemma locate_spawn_blocks_within_nothing_witness :
  locate_spawn_blocks_within
    [lit "A_CFG = UnitreeArticulationCfg("; lit "  spawn=UnitreeUsdFileCfg(";
     lit ")"; lit "  ),"] 0 2
  = Ret (None, None).
Proof.
  apply locate_spawn_blocks_within_nothing; [reflexivity|].
  intros k ln Hk Hbe Hl. destruct k as [|[|[|k]]]; try (simpl in Hbe; lia);
    injection Hl as <-.
  - left. reflexivity.
  - right. intros j Hj. vm_compute in Hj. injection Hj as <-. reflexivity.
  - left. reflexivity.
Defined.

(** ** The lines the region locator reads *)

Lemma scan_state_agree lines lines' start i :
  (forall k, start <= k <= i -> lines' !! k = lines !! k) ->
  scan_state lines' start i = scan_state lines start i.
Proof.
  intros H. unfold scan_state. f_equal. apply list_eq. intros j.
  destruct (decide (j < S i - start)) as [Hj|Hj].
  - rewrite !lookup_take_lt, !lookup_drop by done. apply H. lia.
  - by rewrite !lookup_take_ge by lia.
Qed.

(** X26: the region locator reads the lines from the start line to the end
    it returns and no other: when the region from [start_idx] closes at
    line [r] of a document, the locator returns [r] for every document that
    has the same lines from [start_idx] to [r], whatever the lines before
    and after. *)
Theorem find_cfg_block_end_local (lines lines' : list str) (start_idx r : nat) :
  start_idx <= r < length lines ->
  balanced_at lines start_idx r = true ->
  (forall i, start_idx <= i < r -> balanced_at lines start_idx i = false) ->
  (forall k, start_idx <= k <= r -> lines' !! k = lines !! k) ->
  find_cfg_block_end lines start_idx = Z.of_nat r
  /\ find_cfg_block_end lines' start_idx = Z.of_nat r.
Proof.
  intros Hr Hb Hfirst Hsame.
  assert (Hgen : forall ls : list str,
            r < length ls ->
            (forall k, start_idx <= k <= r -> ls !! k = lines !! k) ->
            find_cfg_block_end ls start_idx = Z.of_nat r).
  { intros ls Hlen Hag.
    assert (Hbal : forall i, i <= r ->
              balanced_at ls start_idx i = balanced_at lines start_idx i).
    { intros i Hi. unfold balanced_at. f_equal. apply scan_state_agree.
      intros k Hk. apply Hag. lia. }
    destruct (cfg_scan (0%Z, false) start_idx (drop start_idx ls)) as [r'|] eqn:E.
    - apply find_cfg_block_end_closed in E as (-> & Hr' & Hb' & Hfirst').
      f_equal. destruct (Nat.lt_trichotomy r r') as [Hlt | [-> | Hgt]]; [|done|].
      + rewrite <- Hbal, Hfirst' in Hb by lia. done.
      + rewrite Hbal, Hfirst in Hb' by lia. done.
    - apply find_cfg_block_end_open in E as [_ E].
      rewrite <- Hbal, E in Hb by lia. done. }
  split; apply Hgen; try done; try lia.
  assert (Hl : is_Some (lines !! r)) by (apply lookup_lt_is_Some; lia).
  rewrite <- Hsame in Hl by lia. apply lookup_lt_is_Some in Hl. done.
Qed.

Lemma find_cfg_block_end_local_witness :
  find_cfg_block_end
    [lit "G1_CFG = UnitreeArticulationCfg("; lit "  f(x),"; lit ")"; lit "y = (1"] 0
  = Z.of_nat 2
  /\ find_cfg_block_end
       [lit "G1_CFG = UnitreeArticulationCfg("; lit "  f(x),"; lit ")"; lit "z"; lit "))"] 0
     = Z.of_nat 2.
Proof.
  apply find_cfg_block_end_local.
  - simpl. lia.
  - reflexivity.
  - intros i Hi. destruct i as [|[|i]]; [reflexivity|reflexivity|lia].
  - intros k Hk. destruct k as [|[|[|k]]]; [reflexivity|reflexivity|reflexivity|lia].
Defined.


(** * What the sub-block finder finds *)

(** A header carries one of the two kinds. *)
Lemma header_kind_cases ln kind :
  header_kind ln = Some kind ->
  kind = lit "UnitreeUrdfFileCfg" \/ kind = lit "UnitreeUsdFileCfg".
Proof.
  rewrite header_kind_spec. unfold header_rest.
  repeat case_match; intros [= <-]; auto.
Qed.

(** The scan returns when the region ends inside the document. *)
Lemma locate_loop_returns lines be fuel : forall u d i,
  (be < Z.of_nat (length lines))%Z ->
  Z.to_nat (be + 1 - Z.of_nat i) < fuel ->
  exists r, locate_loop fuel lines be u d i = Ret r.
Proof.
  induction fuel as [|fuel IH]; intros u d i Hbe Hfuel; [lia|].
  rewrite locate_loop_step.
  destruct (Z.of_nat i <=? be)%Z eqn:Ei; [|by eexists].
  apply Z.leb_le in Ei.
  destruct (lines !! i) as [ln|] eqn:El.
  2:{ apply lookup_ge_None in El. lia. }
  destruct (header_kind ln) as [kind|]; [|apply IH; [done|lia]].
  destruct (find_matching_footer lines i) as [j|] eqn:Ej; [|apply IH; [done|lia]].
  apply find_matching_footer_some in Ej as [? _].
  destruct (Z.of_nat j >? be)%Z; apply IH; (done || lia).
Qed.

Lemma locate_from_returns lines be u d i :
  (be < Z.of_nat (length lines))%Z -> exists r, locate_from lines be u d i = Ret r.
Proof. intros Hbe. apply locate_loop_returns; [done|lia]. Qed.

(** A span once recorded is what the scan returns for its kind. *)
Lemma locate_loop_keeps lines be fuel : forall u d i r,
  locate_loop fuel lines be u d i = Ret r ->
  (forall sp, u = Some sp -> fst r = Some sp)
  /\ (forall sp, d = Some sp -> snd r = Some sp).
Proof.
  induction fuel as [|fuel IH]; intros u d i r H; [done|].
  rewrite locate_loop_step in H.
  destruct (Z.of_nat i <=? be)%Z; [|by injection H as <-].
  destruct (lines !! i) as [ln|]; [|done].
  destruct (header_kind ln) as [kind|]; [|by eapply IH].
  destruct (find_matching_footer lines i) as [j|]; [|by eapply IH].
  destruct (Z.of_nat j >? be)%Z; [by eapply IH|].
  apply IH in H as [H1 H2].
  destruct (record_span_keeps kind i j u d) as [K1 K2]. split; intros sp Hsp; auto.
Qed.

Section Finds.
Variables (lines : list str) (bs : nat) (be : Z) (suffix : str) (h f : nat).
Variable pr : option span * option span -> option span.
Hypothesis be_inside : (be < Z.of_nat (length lines))%Z.
Hypothesis block : first_block lines bs be suffix h f.
Hypothesis pr_other : forall kind i j u d,
  endswith suffix kind = false -> pr (record_span kind i j u d) = pr (u, d).
Hypothesis pr_record : forall kind i j u d,
  kind = lit "UnitreeUrdfFileCfg" \/ kind = lit "UnitreeUsdFileCfg" ->
  endswith suffix kind = true -> pr (u, d) = None ->
  pr (record_span kind i j u d) = Some (i, j).
Hypothesis pr_keeps : forall fuel u d i r sp,
  locate_loop fuel lines be u d i = Ret r -> pr (u, d) = Some sp -> pr r = Some sp.

Lemma locate_from_finds n : forall i u d,
  h - i < n -> bs <= i <= h -> pr (u, d) = None ->
  exists r, locate_from lines be u d i = Ret r /\ pr r = Some (h, f).
Proof.
  destruct block as (Hbs & Hf & (ln & kind & Hl & Hk & Hsfx) & Hfoot & Hbefore).
  pose proof (find_matching_footer_some _ _ _ Hfoot) as (Hhf & _ & _).
  induction n as [|n IH]; intros i u d Hn Hi Hnone; [lia|].
  destruct (decide (i = h)) as [->|Hne].
  - rewrite (locate_from_footer lines be u d h ln kind f) by (done || lia).
    destruct (locate_from_returns lines be
                (fst (record_span kind h f u d)) (snd (record_span kind h f u d)) (S f)
                be_inside) as [r Hr].
    exists r. split; [done|].
    apply (pr_keeps _ _ _ _ _ _ Hr).
    rewrite <- surjective_pairing. apply pr_record; [|done|done].
    by eapply header_kind_cases.
  - destruct (lines !! i) as [ln'|] eqn:El'.
    2:{ apply lookup_ge_None in El'. lia. }
    destruct (header_kind ln') as [kind'|] eqn:Ek'.
    2:{ rewrite (locate_from_plain lines be u d i ln') by (done || lia).
        apply IH; [lia|lia|done]. }
    destruct (find_matching_footer lines i) as [f'|] eqn:Ef'.
    2:{ rewrite (locate_from_no_footer lines be u d i ln' kind') by
          (done || lia || (intros ?; congruence)).
        apply IH; [lia|lia|done]. }
    destruct (decide (Z.of_nat f' <= be)%Z) as [Hin|Hout].
    + destruct (Hbefore i ln' kind' f') as [Hlt Hother]; [lia|done|done|done|done|].
      pose proof (find_matching_footer_some _ _ _ Ef') as (Hif & _ & _).
      rewrite (locate_from_footer lines be u d i ln' kind' f') by (done || lia).
      apply IH; [lia|lia|].
      rewrite <- surjective_pairing. by rewrite pr_other.
    + rewrite (locate_from_no_footer lines be u d i ln' kind') by
        (done || lia || (intros j Hj; rewrite Ef' in Hj; injection Hj as <-; lia)).
      apply IH; [lia|lia|done].
Qed.

End Finds.

Lemma endswith_urdf_usd : endswith (lit "UrdfFileCfg") (lit "UnitreeUsdFileCfg") = false.
Proof. reflexivity. Qed.

(** The first block of a kind in a region, when the blocks before it end
    before it, is the span the finder returns for the kind. *)
Lemma locate_finds_urdf lines bs be h f :
  (be < Z.of_nat (length lines))%Z ->
  first_block lines bs be (lit "UrdfFileCfg") h f ->
  exists r, locate_spawn_blocks_within lines bs be = Ret r /\ fst r = Some (h, f).
Proof.
  intros Hbe Hb.
  apply (locate_from_finds lines bs be (lit "UrdfFileCfg") h f fst Hbe Hb) with (n := S (h - bs)).
  - intros kind i j u d E. unfold record_span. rewrite E. cbn [andb].
    by destruct (_ && _).
  - intros kind i j u d _ E Hu. simpl in Hu. subst u. unfold record_span.
    by rewrite E.
  - intros fuel u d i r sp Hr Hu. by apply (locate_loop_keeps _ _ _ _ _ _ _ Hr).
  - lia.
  - destruct Hb as (? & _). lia.
  - done.
Qed.

Lemma locate_finds_usd lines bs be h f :
  (be < Z.of_nat (length lines))%Z ->
  first_block lines bs be (lit "UsdFileCfg") h f ->
  exists r, locate_spawn_blocks_within lines bs be = Ret r /\ snd r = Some (h, f).
Proof.
  intros Hbe Hb.
  apply (locate_from_finds lines bs be (lit "UsdFileCfg") h f snd Hbe Hb) with (n := S (h - bs)).
  - intros kind i j u d E. unfold record_span. rewrite E. cbn [andb].
    by destruct (_ && _).
  - intros kind i j u d Hk E Hd. simpl in Hd. subst d. unfold record_span.
    destruct Hk as [-> | ->]; [done|]. by rewrite endswith_urdf_usd.
  - intros fuel u d i r sp Hr Hd. by apply (locate_loop_keeps _ _ _ _ _ _ _ Hr).
  - lia.
  - destruct Hb as (? & _). lia.
  - done.
Qed.

Lemma locate_finds lines bs be urdf usd :
  (be < Z.of_nat (length lines))%Z ->
  locate_spawn_blocks_within lines bs be = Ret (urdf, usd) ->
  (forall h f, first_block lines bs be (lit "UrdfFileCfg") h f -> urdf = Some (h, f))
  /\ (forall h f, first_block lines bs be (lit "UsdFileCfg") h f -> usd = Some (h, f)).
Proof.
  intros Hbe Hloc. split; intros h f Hb.
  - destruct (locate_finds_urdf lines bs be h f Hbe Hb) as (r & Hr & E).
    rewrite Hloc in Hr. by injection Hr as <-.
  - destruct (locate_finds_usd lines bs be h f Hbe Hb) as (r & Hr & E).
    rewrite Hloc in Hr. by injection Hr as <-.
Qed.

(** C8: within one enclosing region [block_start .. block_end] of the
    document, the sub-block finder raises no error and returns at most one
    span per kind; a returned span starts at a header of its kind in the
    region and ends at the first footer strictly after that header, which
    lies in the region; the two spans do not overlap; and the first block of
    a kind in the region (a header of the kind whose first footer lies in
    the region, every earlier header of the region with its footer in the
    region being of the other kind and closed before it) is the span
    returned for the kind.  The scan starts at [block_start] with nothing
    recorded and goes turn by turn: past [block_end] it returns what is
    recorded; a line that is no header is passed; a header whose first
    footer is missing or lies after the region is skipped and the scan goes
    on at the next line; at a header with its footer in the region the span
    is recorded when its kind has none yet, a recorded span is kept, and the
    scan resumes at the line after the footer. *)
Theorem locate_spawn_blocks_within_correct
    (lines : list str) (block_start : nat) (block_end : Z) :
  (block_end < Z.of_nat (length lines))%Z ->
  (exists urdf usd,
      locate_spawn_blocks_within lines block_start block_end = Ret (urdf, usd)
      /\ span_ok lines block_start block_end (lit "UrdfFileCfg") urdf
      /\ span_ok lines block_start block_end (lit "UsdFileCfg") usd
      /\ spans_apart urdf usd
      /\ (forall h f, first_block lines block_start block_end (lit "UrdfFileCfg") h f ->
            urdf = Some (h, f))
      /\ (forall h f, first_block lines block_start block_end (lit "UsdFileCfg") h f ->
            usd = Some (h, f)))
  /\ locate_spawn_blocks_within lines block_start block_end
     = locate_from lines block_end None None block_start
  /\ (forall i urdf usd,
        (block_end < Z.of_nat i)%Z ->
        locate_from lines block_end urdf usd i = Ret (urdf, usd))
  /\ (forall i ln urdf usd,
        (Z.of_nat i <= block_end)%Z ->
        lines !! i = Some ln -> header_kind ln = None ->
        locate_from lines block_end urdf usd i
        = locate_from lines block_end urdf usd (S i))
  /\ (forall i ln kind urdf usd,
        (Z.of_nat i <= block_end)%Z ->
        lines !! i = Some ln -> header_kind ln = Some kind ->
        (forall j, find_matching_footer lines i = Some j -> (block_end < Z.of_nat j)%Z) ->
        locate_from lines block_end urdf usd i
        = locate_from lines block_end urdf usd (S i))
  /\ (forall i ln kind j urdf usd,
        (Z.of_nat i <= block_end)%Z ->
        lines !! i = Some ln -> header_kind ln = Some kind ->
        find_matching_footer lines i = Some j -> (Z.of_nat j <= block_end)%Z ->
        locate_from lines block_end urdf usd i
        = locate_from lines block_end (fst (record_span kind i j urdf usd))
                      (snd (record_span kind i j urdf usd)) (S j)
        /\ (forall sp, urdf = Some sp -> fst (record_span kind i j urdf usd) = Some sp)
        /\ (forall sp, usd = Some sp -> snd (record_span kind i j urdf usd) = Some sp)
        /\ (urdf = None -> endswith (lit "UrdfFileCfg") kind = true ->
            fst (record_span kind i j urdf usd) = Some (i, j))
        /\ (usd = None -> endswith (lit "UsdFileCfg") kind = true ->
            snd (record_span kind i j urdf usd) = Some (i, j))).
Proof.
  intros Hbe. split; [|split; [|split; [|split; [|split]]]].
  - destruct (locate_spawn_blocks_within_spans lines block_start block_end Hbe)
      as (u & d & Hloc & Hu & Hd & Hap).
    destruct (locate_finds lines block_start block_end u d Hbe Hloc) as [Fu Fd].
    exists u, d. repeat (split; [assumption|]). assumption.
  - reflexivity.
  - intros i u d Hi. by apply locate_from_done.
  - intros i ln u d Hi Hl Hh. by eapply locate_from_plain.
  - intros i ln kind u d Hi Hl Hh Hf. by eapply locate_from_no_footer.
  - intros i ln kind j u d Hi Hl Hh Hf Hj.
    split; [by eapply locate_from_footer|].
    split; [apply record_span_keeps|].
    split; [apply record_span_keeps|].
    split.
    + intros -> E. unfold record_span. by rewrite E.
    + intros -> E. unfold record_span. rewrite E.
      destruct (header_kind_cases _ _ Hh) as [-> | ->]; [done|].
      by rewrite endswith_urdf_usd.
Qed.

Lemma locate_spawn_blocks_within_correct_witness :
  exists urdf usd,
    locate_spawn_blocks_within
      [lit "A_CFG = UnitreeArticulationCfg("; lit "  # spawn=UnitreeUrdfFileCfg(";
       lit "  # ),"; lit "  spawn = UnitreeUsdFileCfg("; lit "  ),"; lit ")"] 0 5
    = Ret (urdf, usd)
    /\ span_ok
         [lit "A_CFG = UnitreeArticulationCfg("; lit "  # spawn=UnitreeUrdfFileCfg(";
          lit "  # ),"; lit "  spawn = UnitreeUsdFileCfg("; lit "  ),"; lit ")"] 0 5
         (lit "UrdfFileCfg") urdf
    /\ span_ok
         [lit "A_CFG = UnitreeArticulationCfg("; lit "  # spawn=UnitreeUrdfFileCfg(";
          lit "  # ),"; lit "  spawn = UnitreeUsdFileCfg("; lit "  ),"; lit ")"] 0 5
         (lit "UsdFileCfg") usd
    /\ spans_apart urdf usd
    /\ (forall h f,
          first_block
            [lit "A_CFG = UnitreeArticulationCfg("; lit "  # spawn=UnitreeUrdfFileCfg(";
             lit "  # ),"; lit "  spawn = UnitreeUsdFileCfg("; lit "  ),"; lit ")"] 0 5
            (lit "UrdfFileCfg") h f ->
          urdf = Some (h, f))
    /\ (forall h f,
          first_block
            [lit "A_CFG = UnitreeArticulationCfg("; lit "  # spawn=UnitreeUrdfFileCfg(";
             lit "  # ),"; lit "  spawn = UnitreeUsdFileCfg("; lit "  ),"; lit ")"] 0 5
            (lit "UsdFileCfg") h f ->
          usd = Some (h, f)).
Proof.
  apply (locate_spawn_blocks_within_correct
           [lit "A_CFG = UnitreeArticulationCfg("; lit "  # spawn=UnitreeUrdfFileCfg(";
            lit "  # ),"; lit "  spawn = UnitreeUsdFileCfg("; lit "  ),"; lit ")"] 0 5).
  reflexivity.
Defined.

(** Both blocks of a region that holds one of each kind are first blocks. *)
Lemma first_block_both :
  first_block
    [lit "A_CFG = UnitreeArticulationCfg("; lit "  # spawn=UnitreeUrdfFileCfg(";
     lit "  # ),"; lit "  spawn = UnitreeUsdFileCfg("; lit "  ),"; lit ")"] 0 5
    (lit "UrdfFileCfg") 1 2
  /\ first_block
       [lit "A_CFG = UnitreeArticulationCfg("; lit "  # spawn=UnitreeUrdfFileCfg(";
        lit "  # ),"; lit "  spawn = UnitreeUsdFileCfg("; lit "  ),"; lit ")"] 0 5
       (lit "UsdFileCfg") 3 4.
Proof.
  split.
  - split; [lia|]. split; [lia|]. split; [by eexists _, _|]. split; [reflexivity|].
    intros h' ln' kind' f' Hh' Hl Hk Hf Hin.
    destruct h' as [|[|h']]; [|lia|lia].
    injection Hl as <-. vm_compute in Hk. discriminate.
  - split; [lia|]. split; [lia|]. split; [by eexists _, _|]. split; [reflexivity|].
    intros h' ln' kind' f' Hh' Hl Hk Hf Hin.
    destruct h' as [|[|[|h']]]; [| | |lia]; injection Hl as <-.
    + vm_compute in Hk. discriminate.
    + vm_compute in Hk, Hf. injection Hk as <-. injection Hf as <-.
      split; [lia|reflexivity].
    + vm_compute in Hk. discriminate.
Qed.

(** * The run, region by region *)

Lemma patch_spawn_modes_regions src mode :
  exists out c us ds,
    patch_spawn_modes src mode = Ret (join out, c, us, ds)
    /\ patched_lines mode (splitlines src) out
    /\ forall bs be,
         (bs, be) ∈ regions (splitlines src) ->
         exists urdf usd,
           locate_spawn_blocks_within (splitlines src) bs be = Ret (urdf, usd)
           /\ (forall h f, first_block (splitlines src) bs be (lit "UrdfFileCfg") h f ->
                 urdf = Some (h, f))
           /\ (forall h f, first_block (splitlines src) bs be (lit "UsdFileCfg") h f ->
                 usd = Some (h, f))
           /\ (forall k, in_opt_span (enabled_span mode urdf usd) k ->
                 out !! k = uncomment_line <$> splitlines src !! k)
           /\ (forall k, in_opt_span (disabled_span mode urdf usd) k ->
                 out !! k = comment_line <$> splitlines src !! k).
Proof.
  destruct (patch_spawn_modes_patched src mode) as (out & c & us & ds & Hloop & Hrun & Hpat).
  destruct (patch_loop_spec mode (splitlines src) (S (length (splitlines src)))
              (splitlines src) 0 0%Z 0%Z 0%Z)
    as (out' & c' & us' & ds' & H & _ & _ & Hreg); [done|done|lia|].
  rewrite Hloop in H. injection H as <- <- <- <-.
  exists out, c, us, ds. split; [done|]. split; [done|].
  intros bs be Hin.
  pose proof (regions_from_bounds _ _ _ _ _ Hin) as [_ Hbe].
  destruct (locate_spawn_blocks_within_spans (splitlines src) bs be) as (u & d & Hloc & _);
    [lia|].
  destruct (locate_finds (splitlines src) bs be u d) as [Fu Fd]; [lia|done|].
  destruct (Hreg bs be u d Hin Hloc) as [Hen Hdis].
  exists u, d. split; [done|]. split; [done|]. split; [done|]. split; done.
Qed.


(** * Regions that never close *)

(** The depth the scan reaches is the depth it had plus the depth of the
    lines read since. *)
Lemma count_parens_depth ln : forall st,
  fst (count_parens st ln) = (fst st + fst (count_parens (0%Z, false) ln))%Z
  /\ (snd st = true -> snd (count_parens st ln) = true).
Proof.
  unfold count_parens. induction ln as [|c ln IH]; intros [depth started].
  - simpl. split; [lia|done].
  - cbn [fold_left].
    destruct (c =? LPAREN)%N; [|destruct (c =? RPAREN)%N].
    + destruct (IH ((depth + 1)%Z, true)) as [E1 E2].
      destruct (IH ((0 + 1)%Z, true)) as [E3 _].
      rewrite E1, E3. cbn [fst snd]. split; [lia|auto].
    + destruct (IH ((depth - 1)%Z, started)) as [E1 E2].
      destruct (IH ((0 - 1)%Z, false)) as [E3 _].
      rewrite E1, E3. cbn [fst snd] in *. split; [lia|auto].
    + apply IH.
Qed.

Lemma scan_depth ls : forall st,
  fst (fold_left count_parens ls st)
  = (fst st + fst (fold_left count_parens ls (0%Z, false)))%Z
  /\ (snd st = true -> snd (fold_left count_parens ls st) = true).
Proof.
  induction ls as [|ln ls IH]; intros st.
  - simpl. split; [lia|done].
  - cbn [fold_left].
    destruct (IH (count_parens st ln)) as [E1 E2].
    destruct (IH (count_parens (0%Z, false) ln)) as [E3 _].
    destruct (count_parens_depth ln st) as [E4 E5].
    rewrite E1, E3, E4. split; [lia|auto].
Qed.

(** From a start line on, the scan has started. *)
Lemma scan_state_started lines start i ln :
  lines !! start = Some ln -> is_cfg_start ln = true -> start <= i ->
  snd (scan_state lines start i) = true.
Proof.
  intros Hl Hc Hi. unfold scan_state.
  rewrite (drop_S lines ln start Hl).
  replace (S i - start) with (S (i - start)) by lia. cbn [take fold_left].
  apply scan_depth. by rewrite (cfg_start_line_parens ln (0%Z, false) Hc).
Qed.

Lemma scan_state_split lines bs start r :
  bs <= start <= S r ->
  scan_state lines bs r
  = fold_left count_parens (take (S r - start) (drop start lines))
      (fold_left count_parens (take (start - bs) (drop bs lines)) (0%Z, false)).
Proof.
  intros H. unfold scan_state. rewrite <- fold_left_app. f_equal.
  replace (S r - bs) with ((start - bs) + (S r - start)) by lia.
  rewrite <- take_take_drop, drop_drop. do 3 f_equal. lia.
Qed.

(** A start line whose delimiters never balance, inside the region of an
    earlier start line, keeps that region open to the end of the file. *)
Lemma unbalanced_inside lines bs start ln_bs ln :
  lines !! bs = Some ln_bs -> is_cfg_start ln_bs = true ->
  lines !! start = Some ln -> is_cfg_start ln = true ->
  bs < start -> (Z.of_nat start <= find_cfg_block_end lines bs)%Z ->
  (forall i, start <= i < length lines -> balanced_at lines start i = false) ->
  find_cfg_block_end lines bs = (Z.of_nat (length lines) - 1)%Z.
Proof.
  intros Hbs Hcbs Hl Hc Hlt Hin Hopen.
  destruct (cfg_scan (0%Z, false) bs (drop bs lines)) as [r|] eqn:E.
  2:{ by apply find_cfg_block_end_open in E as [-> _]. }
  apply find_cfg_block_end_closed in E as (Er & Hr & Hb & Hbefore).
  rewrite Er in Hin. exfalso.
  assert (Hprev : balanced_at lines bs (start - 1) = false) by (apply Hbefore; lia).
  assert (Hhere : balanced_at lines start r = false) by (apply Hopen; lia).
  unfold balanced_at, closed in Hprev, Hhere, Hb.
  rewrite (scan_state_started lines bs (start - 1) ln_bs) in Hprev by (done || lia).
  rewrite (scan_state_started lines start r ln) in Hhere by (done || lia).
  cbn [andb] in Hprev, Hhere. apply Z.leb_gt in Hprev, Hhere.
  apply andb_true_iff in Hb as [_ Hb]. apply Z.leb_le in Hb.
  rewrite (scan_state_split lines bs start r) in Hb by lia.
  destruct (scan_depth (take (S r - start) (drop start lines))
              (fold_left count_parens (take (start - bs) (drop bs lines)) (0%Z, false)))
    as [Ed _].
  rewrite Ed in Hb. unfold scan_state in Hprev, Hhere.
  replace (S (start - 1) - bs) with (start - bs) in Hprev by lia.
  lia.
Qed.

(** Every start line lies in a region the orchestrator visits. *)
Lemma regions_cover lines start ln fuel : forall j,
  lines !! start = Some ln -> is_cfg_start ln = true ->
  j <= start -> length lines - j < fuel ->
  exists bs ln_bs,
    (bs, find_cfg_block_end lines bs) ∈ regions_from fuel lines j
    /\ lines !! bs = Some ln_bs /\ is_cfg_start ln_bs = true
    /\ bs <= start /\ (Z.of_nat start <= find_cfg_block_end lines bs)%Z.
Proof.
  intros j Hl Hc. revert j.
  assert (Hs : start < length lines) by by eapply lookup_lt_Some.
  induction fuel as [|fuel IH]; intros j Hj Hfuel; [lia|].
  cbn [regions_from].
  destruct (lines !! j) as [l|] eqn:El.
  2:{ apply lookup_ge_None in El. lia. }
  assert (Hjl : j < length lines) by by eapply lookup_lt_Some.
  destruct (is_cfg_start l) eqn:Ec.
  - pose proof (find_cfg_block_end_ge lines j Hjl) as Hbe.
    destruct (decide (Z.of_nat start <= find_cfg_block_end lines j)%Z) as [Hin|Hout].
    + exists j, l. split; [apply elem_of_cons; by left|]. done.
    + destruct (IH (Z.to_nat (find_cfg_block_end lines j + 1))) as (bs & lb & H & Hrest);
        [lia|lia|].
      exists bs, lb. split; [apply elem_of_cons; by right|done].
  - assert (Hne : j <> start) by (intros ->; congruence).
    destruct (IH (S j)) as (bs & lb & H & Hrest); [lia|lia|].
    by exists bs, lb.
Qed.

(** The region of a start line whose delimiters never balance: the region
    the orchestrator visits around it runs to the last line. *)
Lemma unbalanced_region lines start ln :
  lines !! start = Some ln -> is_cfg_start ln = true ->
  (forall i, start <= i < length lines -> balanced_at lines start i = false) ->
  find_cfg_block_end lines start = (Z.of_nat (length lines) - 1)%Z
  /\ exists bs, bs <= start
       /\ (bs, (Z.of_nat (length lines) - 1)%Z) ∈ regions lines.
Proof.
  intros Hl Hc Hopen.
  assert (Hend : find_cfg_block_end lines start = (Z.of_nat (length lines) - 1)%Z).
  { destruct (cfg_scan (0%Z, false) start (drop start lines)) as [r|] eqn:E.
    - apply find_cfg_block_end_closed in E as (_ & Hr & Hb & _).
      by rewrite Hopen in Hb.
    - by apply find_cfg_block_end_open in E as [-> _]. }
  split; [done|].
  destruct (regions_cover lines start ln (S (length lines)) 0 Hl Hc)
    as (bs & lb & Hin & Hlb & Hcb & Hle & Hbe); [lia|lia|].
  exists bs. split; [done|]. unfold regions.
  destruct (decide (bs = start)) as [->|Hne].
  - by rewrite <- Hend.
  - by rewrite <- (unbalanced_inside lines bs start lb ln) by (done || lia).
Qed.

(** C1, as amended: when the delimiters of a region that starts at line
    [start] of the text read from the file never balance before the end of
    the file, the region locator raises nothing and returns the index of the
    last line, and the region the orchestrator visits around [start] runs to
    the end of the file.  The run raises no error: every line of the patched
    text is pinned (uncommented in a span found for the requested kind,
    commented in a span found for the alternate kind, unchanged elsewhere),
    the sub-blocks found inside the unbalanced region are switched like
    those of any other region, and [main] exits with status 0, rewriting the
    file with the patched text, after the backup of the text read unless
    backups are off, exactly when the patched text differs from the text
    read, and leaving the file as it is otherwise. *)
Theorem unbalanced_region_runs_to_end
    (content mode : str) (write_dirs no_backup : bool)
    (values : gmap str str) (bak : option str) (start : nat) (ln : str) :
  splitlines (read_text content) !! start = Some ln ->
  is_cfg_start ln = true ->
  (forall i, start <= i < length (splitlines (read_text content)) ->
             balanced_at (splitlines (read_text content)) start i = false) ->
  find_cfg_block_end (splitlines (read_text content)) start
  = (Z.of_nat (length (splitlines (read_text content))) - 1)%Z
  /\ exists bs out c us ds,
       bs <= start
       /\ (bs, (Z.of_nat (length (splitlines (read_text content))) - 1)%Z)
            ∈ regions (splitlines (read_text content))
       /\ patch_spawn_modes (read_text content) mode = Ret (join out, c, us, ds)
       /\ patched_lines mode (splitlines (read_text content)) out
       /\ (exists urdf usd,
             locate_spawn_blocks_within (splitlines (read_text content)) bs
               (Z.of_nat (length (splitlines (read_text content))) - 1)%Z
             = Ret (urdf, usd)
             /\ (forall h f,
                   first_block (splitlines (read_text content)) bs
                     (Z.of_nat (length (splitlines (read_text content))) - 1)%Z
                     (lit "UrdfFileCfg") h f ->
                   urdf = Some (h, f))
             /\ (forall h f,
                   first_block (splitlines (read_text content)) bs
                     (Z.of_nat (length (splitlines (read_text content))) - 1)%Z
                     (lit "UsdFileCfg") h f ->
                   usd = Some (h, f))
             /\ (forall k, in_opt_span (enabled_span mode urdf usd) k ->
                   out !! k = uncomment_line <$> splitlines (read_text content) !! k)
             /\ (forall k, in_opt_span (disabled_span mode urdf usd) k ->
                   out !! k = comment_line <$> splitlines (read_text content) !! k))
       /\ main (Files (Some content) bak) mode write_dirs no_backup values
          = Ret (0%Z,
                 let patched :=
                   if write_dirs && negb (bool_decide (values = ∅))
                   then replace_dir_assignments (join out) values else join out in
                 if bool_decide (patched <> read_text content)
                 then Files (Some patched)
                            (if no_backup then bak else Some (read_text content))
                 else Files (Some content) bak).
Proof.
  intros Hl Hc Hopen.
  destruct (unbalanced_region _ _ _ Hl Hc Hopen) as (Hend & bs & Hbs & Hin).
  split; [exact Hend|].
  destruct (patch_spawn_modes_regions (read_text content) mode)
    as (out & c & us & ds & Hrun & Hpat & Hreg).
  destruct (main_total content bak mode write_dirs no_backup values)
    as (out' & c' & us' & ds' & Hrun' & Hmain).
  rewrite Hrun in Hrun'. injection Hrun' as <- <- <- <-.
  exists bs, out, c, us, ds.
  split; [exact Hbs|]. split; [exact Hin|]. split; [exact Hrun|].
  split; [exact Hpat|]. split; [exact (Hreg _ _ Hin)|exact Hmain].
Qed.

Lemma unbalanced_region_runs_to_end_witness :
  find_cfg_block_end
    (splitlines (read_text (lit "A_CFG = UnitreeArticulationCfg(" ++ [CR; LF]
                            ++ lit "    spawn=UnitreeUsdFileCfg(" ++ [CR; LF]
                            ++ lit "    )," ++ [CR; LF]))) 0
  = (Z.of_nat
       (length (splitlines (read_text (lit "A_CFG = UnitreeArticulationCfg(" ++ [CR; LF]
                                       ++ lit "    spawn=UnitreeUsdFileCfg(" ++ [CR; LF]
                                       ++ lit "    )," ++ [CR; LF])))) - 1)%Z.
Proof.
  apply (unbalanced_region_runs_to_end
           (lit "A_CFG = UnitreeArticulationCfg(" ++ [CR; LF]
            ++ lit "    spawn=UnitreeUsdFileCfg(" ++ [CR; LF]
            ++ lit "    )," ++ [CR; LF])
           (lit "urdf") false false ∅ None 0
           (lit "A_CFG = UnitreeArticulationCfg(" ++ [LF])).
  - reflexivity.
  - reflexivity.
  - intros i Hi.
    change (length (splitlines (read_text (lit "A_CFG = UnitreeArticulationCfg(" ++ [CR; LF]
                                           ++ lit "    spawn=UnitreeUsdFileCfg(" ++ [CR; LF]
                                           ++ lit "    )," ++ [CR; LF])))) with 3 in Hi.
    destruct i as [|[|[|i]]]; [reflexivity|reflexivity|reflexivity|lia].
Defined.

(** C1 as stated fails: a region whose delimiters never balance raises
    nothing; its sub-block is switched and the file is rewritten. *)
Lemma unbalanced_region_is_patched :
  is_cfg_start (lit "A_CFG = UnitreeArticulationCfg(" ++ [LF]) = true
  /\ read_text (lit "A_CFG = UnitreeArticulationCfg(" ++ [LF]
                ++ lit "    spawn=UnitreeUsdFileCfg(" ++ [LF]
                ++ lit "    )," ++ [LF])
     = lit "A_CFG = UnitreeArticulationCfg(" ++ [LF]
       ++ lit "    spawn=UnitreeUsdFileCfg(" ++ [LF]
       ++ lit "    )," ++ [LF]
  /\ forallb
       (fun i => negb (balanced_at
                         (splitlines (lit "A_CFG = UnitreeArticulationCfg(" ++ [LF]
                                      ++ lit "    spawn=UnitreeUsdFileCfg(" ++ [LF]
                                      ++ lit "    )," ++ [LF])) 0 i))
       [0; 1; 2] = true
  /\ main (Files (Some (lit "A_CFG = UnitreeArticulationCfg(" ++ [LF]
                        ++ lit "    spawn=UnitreeUsdFileCfg(" ++ [LF]
                        ++ lit "    )," ++ [LF])) None)
          (lit "urdf") false false ∅
     = Ret (0%Z,
            Files (Some (lit "A_CFG = UnitreeArticulationCfg(" ++ [LF]
                         ++ lit "    # spawn=UnitreeUsdFileCfg(" ++ [LF]
                         ++ lit "    # )," ++ [LF]))
                  (Some (lit "A_CFG = UnitreeArticulationCfg(" ++ [LF]
                         ++ lit "    spawn=UnitreeUsdFileCfg(" ++ [LF]
                         ++ lit "    )," ++ [LF]))).
Proof.
  split; [reflexivity|]. split; [reflexivity|]. split; [reflexivity|].
  unfold main. cbn [unitree_py unitree_py_bak andb].
  replace (read_text _)
    with (lit "A_CFG = UnitreeArticulationCfg(" ++ [LF]
          ++ lit "    spawn=UnitreeUsdFileCfg(" ++ [LF]
          ++ lit "    )," ++ [LF])
    by reflexivity.
  replace (patch_spawn_modes _ _)
    with (Ret (lit "A_CFG = UnitreeArticulationCfg(" ++ [LF]
               ++ lit "    # spawn=UnitreeUsdFileCfg(" ++ [LF]
               ++ lit "    # )," ++ [LF], 1%Z, 0%Z, 1%Z))
    by (vm_compute; reflexivity).
  cbn [bind]. rewrite bool_decide_eq_true_2; [done|]. by vm_compute.
Qed.

